(** * nas-dashboard: session tokens, access guard, favicon probing and icon
    normalisation of [app.py], over the store of [database.py].

    The development follows the two source files.  Python values, the
    exceptions the handlers can meet and the standard-library string and
    base64 routines they call come first; then the SQLite tables of
    [database.py]; then the Flask view functions of [app.py], each written
    in the order of its source statements; the theorems come last.

    What lies outside the two files is treated as follows.
    - A [str] is the sequence of the bytes of its UTF-8 text.  The routines
      used on strings ([replace], [split], [in], [rstrip]) are about ASCII
      separators, which never occur inside a multi-byte character.
    - [base64] is embedded in full: the encoder of RFC 4648 and the loop of
      [binascii.a2b_base64] in its default, non-strict mode, as in CPython
      3.11 and later.
    - The random bytes, the clock, psutil and the network are inputs of a
      request ([env]); the network may answer a GET differently each time.
    - [urlparse], [str(e)], [repr] and the numeric conversions of SQLite are
      parameters.  Pillow's decoder, resampler and PNG writer are
      parameters; the size [Image.thumbnail] computes is embedded in
      binary64 arithmetic: each operation gives the exact result rounded to
      the nearest number of 53 significant bits, ties to even.
    - What the handlers print to the console is left out. *)

From Stdlib Require Import ZArith NArith QArith Qround Qabs Qpower Lia Lqa List Bool Sorted.
From Stdlib.Strings Require Import Ascii String Byte.
From stdpp Require Import base option list strings pretty gmap.

Local Open Scope Z_scope.
Local Open Scope string_scope.
Local Set Warnings "-register-all".

(** ** Python strings *)

Module Str.

(** [s[0] == c and ...]: [old] is a prefix of [s] ([str.startswith]). *)
Fixpoint startswith (old s : string) : bool :=
  match old, s with
  | EmptyString, _ => true
  | String a old', String b s' => if Ascii.eqb a b then startswith old' s' else false
  | String _ _, EmptyString => false
  end.

(** [c in s] for a one-character [c]. *)
Fixpoint contains_char (c : ascii) (s : string) : bool :=
  match s with
  | EmptyString => false
  | String a s' => if Ascii.eqb a c then true else contains_char c s'
  end.

(** [old in s] for a non-empty [old]: some suffix of [s] starts with it. *)
Fixpoint contains (old s : string) : bool :=
  match s with
  | EmptyString => startswith old EmptyString
  | String _ s' => if startswith old s then true else contains old s'
  end.

(** The scan of [str.replace(old, new)] for a non-empty [old]: left to
    right, every match found is replaced and the scan resumes after it, so
    the replaced occurrences never overlap.  [skip] counts the characters of
    the current match that are still to be passed over. *)
Fixpoint replace_from (old new s : string) (skip : nat) : string :=
  match s with
  | EmptyString => EmptyString
  | String c s' =>
      match skip with
      | S k => replace_from old new s' k
      | O =>
          if startswith old s
          then new +:+ replace_from old new s' (String.length old - 1)
          else String c (replace_from old new s' 0)
      end
  end.

(** [s.replace("", new)] puts [new] before every character and at the end. *)
Fixpoint intersperse (new s : string) : string :=
  match s with
  | EmptyString => new
  | String c s' => new +:+ String c (intersperse new s')
  end.

(** [s.replace(old, new)]. *)
Definition replace (old new s : string) : string :=
  match old with
  | EmptyString => intersperse new s
  | String _ _ => replace_from old new s 0
  end.

(** [s.split(sep)] for a one-character separator: the pieces between the
    separators, in order; a string without separator is the only piece. *)
Fixpoint split (sep : ascii) (s : string) : list string :=
  match s with
  | EmptyString => [EmptyString]
  | String c s' =>
      if Ascii.eqb c sep then EmptyString :: split sep s'
      else match split sep s' with
           | piece :: pieces => String c piece :: pieces
           | [] => [String c EmptyString]
           end
  end.

(** [s.rstrip(c)] for a one-character [c]. *)
Fixpoint rstrip (c : ascii) (s : string) : string :=
  match s with
  | EmptyString => EmptyString
  | String a s' =>
      match rstrip c s' with
      | EmptyString => if Ascii.eqb a c then EmptyString else String a EmptyString
      | r => String a r
      end
  end.

(** [s.lower()] on ASCII letters, as HTTP header names are compared. *)
Definition lower_ascii (c : ascii) : ascii :=
  let n := nat_of_ascii c in
  if (Nat.leb 65 n && Nat.leb n 90)%bool then ascii_of_nat (n + 32) else c.

Fixpoint lower (s : string) : string :=
  match s with
  | EmptyString => EmptyString
  | String c s' => String (lower_ascii c) (lower s')
  end.

(** Every character is below 128 ([str.isascii]). *)
Fixpoint isascii (s : string) : bool :=
  match s with
  | EmptyString => true
  | String c s' => (Nat.ltb (nat_of_ascii c) 128 && isascii s')%bool
  end.

End Str.

(** ** The [base64] module *)

Module Base64.

(** The standard alphabet (RFC 4648, table 1): [binascii]'s [table_b2a_base64]. *)
Definition alphabet : string :=
  "ABCDEFGHIJKLMNOPQRSTUVWXYZabcdefghijklmnopqrstuvwxyz0123456789+/".

Definition pad : ascii := "="%char.

(** The character of a six-bit value. *)
Definition b2a (n : N) : ascii :=
  match String.get (N.to_nat n) alphabet with
  | Some c => c
  | None => pad
  end.

(** The six-bit value of a character of the alphabet: [table_a2b_base64],
    with [None] for the characters the table maps outside 0..63. *)
Fixpoint index_of (c : ascii) (s : string) (i : N) : option N :=
  match s with
  | EmptyString => None
  | String a s' => if Ascii.eqb a c then Some i else index_of c s' (N.succ i)
  end.

Definition a2b (c : ascii) : option N := index_of c alphabet 0.

Definition byte_of (n : N) : byte :=
  match Byte.of_N (N.land n 255) with
  | Some b => b
  | None => x00
  end.

(** The four six-bit values of a group of three bytes [a], [b], [c]. *)
Definition sextet_0 (a : N) : N := N.shiftr a 2.
Definition sextet_1 (a b : N) : N := N.lor (N.shiftl (N.land a 3) 4) (N.shiftr b 4).
Definition sextet_2 (b c : N) : N := N.lor (N.shiftl (N.land b 15) 2) (N.shiftr c 6).
Definition sextet_3 (c : N) : N := N.land c 63.

(** [binascii.b2a_base64(s, newline=False)]: three bytes give four characters;
    a last group of one or two bytes is filled with zero bits and completed
    with [=]. *)
Fixpoint b64encode_chars (bs : list byte) : list ascii :=
  match bs with
  | [] => []
  | [a] =>
      let a := Byte.to_N a in
      [b2a (sextet_0 a); b2a (sextet_1 a 0); pad; pad]
  | [a; b] =>
      let a := Byte.to_N a in
      let b := Byte.to_N b in
      [b2a (sextet_0 a); b2a (sextet_1 a b); b2a (sextet_2 b 0); pad]
  | a :: b :: c :: rest =>
      let a := Byte.to_N a in
      let b := Byte.to_N b in
      let c := Byte.to_N c in
      b2a (sextet_0 a) :: b2a (sextet_1 a b) :: b2a (sextet_2 b c) :: b2a (sextet_3 c)
      :: b64encode_chars rest
  end.

(** [base64.b64encode(s).decode("utf-8")]. *)
Definition b64encode (bs : list byte) : string :=
  string_of_list_ascii (b64encode_chars bs).

(** [base64.urlsafe_b64encode]: the standard encoding with [+] and [/]
    translated to [-] and [_]. *)
Definition urlsafe_char (c : ascii) : ascii :=
  if Ascii.eqb c "+" then "-"%char
  else if Ascii.eqb c "/" then "_"%char else c.

Definition urlsafe_b64encode (bs : list byte) : string :=
  string_of_list_ascii (map urlsafe_char (b64encode_chars bs)).

(** The translation back ([base64.urlsafe_b64decode] starts with it). *)
Definition standard_char (c : ascii) : ascii :=
  if Ascii.eqb c "-" then "+"%char
  else if Ascii.eqb c "_" then "/"%char else c.

(** The state of the loop of [binascii.a2b_base64]: position in the current
    group of four, bits left over from the previous character, padding
    characters seen in a row, and the bytes written so far (latest first). *)
Record a2b_state := {
  quad_pos : nat;
  leftchar : N;
  pads : nat;
  written : list byte;
}.

Inductive a2b_step := Continue (st : a2b_state) | Done (st : a2b_state).

(** One iteration of the loop in non-strict mode: a [=] counts as padding
    once two characters of the group have been read, and ends the input
    when it completes the group; a character outside the alphabet is
    skipped; a letter adds its six bits. *)
Definition a2b_char (st : a2b_state) (this_ch : ascii) : a2b_step :=
  if Ascii.eqb this_ch pad then
    if Nat.leb 2 (quad_pos st) then
      if Nat.leb 4 (quad_pos st + S (pads st)) then Done st
      else Continue {| quad_pos := quad_pos st; leftchar := leftchar st;
                       pads := S (pads st); written := written st |}
    else Continue st
  else
    match a2b this_ch with
    | None => Continue st
    | Some v =>
        match quad_pos st with
        | 0%nat => Continue {| quad_pos := 1; leftchar := v; pads := 0;
                              written := written st |}
        | 1%nat => Continue {| quad_pos := 2; leftchar := N.land v 15; pads := 0;
                              written := byte_of (N.lor (N.shiftl (leftchar st) 2) (N.shiftr v 4))
                                         :: written st |}
        | 2%nat => Continue {| quad_pos := 3; leftchar := N.land v 3; pads := 0;
                              written := byte_of (N.lor (N.shiftl (leftchar st) 4) (N.shiftr v 2))
                                         :: written st |}
        | _ => Continue {| quad_pos := 0; leftchar := 0; pads := 0;
                           written := byte_of (N.lor (N.shiftl (leftchar st) 6) v)
                                      :: written st |}
        end
    end.

(** The loop over the input; [Done] is the jump to [done:] at a complete
    padding, which leaves the rest of the input unread. *)
Fixpoint a2b_loop (st : a2b_state) (s : string) : a2b_step :=
  match s with
  | EmptyString => Continue st
  | String c s' =>
      match a2b_char st c with
      | Continue st' => a2b_loop st' s'
      | Done st' => Done st'
      end
  end.

Inductive decode_error :=
  | NonAscii          (* ValueError: string argument should contain only ASCII characters *)
  | OneExtraCharacter (* binascii.Error: number of data characters cannot be 1 more than a multiple of 4 *)
  | IncorrectPadding. (* binascii.Error: Incorrect padding *)

(** What [a2b_base64] does after the loop: at [done:] or with no group
    open it returns the bytes written; a group left open is an error. *)
Definition a2b_result (r : a2b_step) : decode_error + list byte :=
  match r with
  | Done st => inr (rev (written st))
  | Continue st =>
      match quad_pos st with
      | 0%nat => inr (rev (written st))
      | 1%nat => inl OneExtraCharacter
      | _ => inl IncorrectPadding
      end
  end.

Definition a2b_start : a2b_state :=
  {| quad_pos := 0; leftchar := 0; pads := 0; written := [] |}.

(** [base64.b64decode(s)] of a [str], [validate=False]: the string must be
    ASCII; characters outside the alphabet are discarded; a group left
    incomplete at the end is an error. *)
Definition b64decode (s : string) : decode_error + list byte :=
  if Str.isascii s then a2b_result (a2b_loop a2b_start s) else inl NonAscii.

(** A test of every byte. *)
Definition all_bytes : list byte :=
  flat_map (fun n => match Byte.of_N (N.of_nat n) with Some b => [b] | None => [] end)
           (seq 0 256).

Definition for_all_bytes (P : byte -> bool) : bool := forallb P all_bytes.

(** A six-bit value whose character is a letter of the alphabet that reads
    back as the value, is ASCII, and whose URL-safe letter is not [=] and
    translates back to it. *)
Definition letter_ok (v : N) : bool :=
  (negb (Ascii.eqb (b2a v) pad)
   && match a2b (b2a v) with Some v' => N.eqb v' v | None => false end
   && Nat.ltb (nat_of_ascii (b2a v)) 128
   && negb (Ascii.eqb (urlsafe_char (b2a v)) pad)
   && Ascii.eqb (standard_char (urlsafe_char (b2a v))) (b2a v))%bool.

(** The bit identities between a byte and the six-bit values it is spread
    over, as tests on one byte and on two neighbouring bytes. *)
Definition byte_ok (b : byte) : bool :=
  let B := Byte.to_N b in
  (letter_ok (sextet_0 B) && letter_ok (sextet_3 B)
   && letter_ok (sextet_1 B 0) && letter_ok (sextet_2 B 0)
   && N.eqb (N.land (N.lor (N.shiftl (sextet_0 B) 2) (N.land B 3)) 255) B
   && N.eqb (N.land (N.lor (N.shiftl (N.shiftr B 4) 4) (N.land B 15)) 255) B
   && N.eqb (N.land (N.lor (N.shiftl (N.shiftr B 6) 6) (sextet_3 B)) 255) B)%bool.

Definition pair_ok (a b : byte) : bool :=
  let A := Byte.to_N a in
  let B := Byte.to_N b in
  (letter_ok (sextet_1 A B) && letter_ok (sextet_2 A B)
   && N.eqb (N.shiftr (sextet_1 A B) 4) (N.land A 3)
   && N.eqb (N.land (sextet_1 A B) 15) (N.shiftr B 4)
   && N.eqb (N.shiftr (sextet_2 A B) 2) (N.land A 15)
   && N.eqb (N.land (sextet_2 A B) 3) (N.shiftr B 6))%bool.

End Base64.

(** ** Python values and exceptions *)

(** The values [request.json] can hold, which are also the values the
    handlers pass on: [None], [bool], [int], [float], [str], [list], and
    [dict] as its items in order.  A [float] is the dyadic number
    [m * 2^e], the zero of negative sign, or one of the three values the
    decoder makes of the tokens [NaN], [Infinity] and [-Infinity] (and of
    a number too large for a [float]). *)
Inductive pyval :=
  | PyNone
  | PyBool (b : bool)
  | PyInt (z : Z)
  | PyFloat (m e : Z)
  | PyNegZero
  | PyNaN
  | PyInf (negative : bool)
  | PyStr (s : string)
  | PyList (l : list pyval)
  | PyDict (items : list (string * pyval)).

(** The exceptions the handlers can meet.  [HTTPException] is werkzeug's
    (415 and 400 from [request.json]); all are subclasses of [Exception]. *)
Inductive exn :=
  | HTTPException (code : Z)
  | KeyError (key : string)
  | AttributeError
  | TypeError
  | ValueError
  | BinasciiError
  | UnidentifiedImageError
  | OSError
  | RequestException
  | SqliteError
  | OtherError (msg : string).

(** A computation that returns or raises. *)
Definition result (A : Type) : Type := exn + A.

Definition ret {A} (a : A) : result A := inr a.
Definition raise {A} (e : exn) : result A := inl e.
Definition bind {A B} (m : result A) (k : A -> result B) : result B :=
  match m with
  | inl e => inl e
  | inr a => k a
  end.

Notation "'let!' x ':=' m 'in' k" := (bind m (fun x => k))
  (at level 10, x pattern, m at level 100, k at level 200).

(** Truth value of an object ([if v], [v and ...], [v or ...]). *)
Definition truthy (v : pyval) : bool :=
  match v with
  | PyNone => false
  | PyBool b => b
  | PyInt z => negb (z =? 0)%Z
  | PyFloat m _ => negb (m =? 0)%Z
  | PyNegZero => false
  | PyNaN | PyInf _ => true
  | PyStr s => negb (String.eqb s "")
  | PyList l => match l with [] => false | _ => true end
  | PyDict l => match l with [] => false | _ => true end
  end.

(** A number as [m * 2^e], for [bool], [int] and a finite [float]. *)
Definition number_of (v : pyval) : option (Z * Z) :=
  match v with
  | PyBool b => Some (if b then 1 else 0, 0)%Z
  | PyInt z => Some (z, 0)%Z
  | PyFloat m e => Some (m, e)
  | PyNegZero => Some (0, 0)%Z
  | _ => None
  end.

Definition is_nan (v : pyval) : bool := match v with PyNaN => true | _ => false end.

(** Order of two numbers [m1 * 2^e1] and [m2 * 2^e2]. *)
Definition dyadic_compare (m1 e1 m2 e2 : Z) : comparison :=
  let e := Z.min e1 e2 in
  (m1 * 2 ^ (e1 - e) ?= m2 * 2 ^ (e2 - e))%Z.

Fixpoint assoc {A} (k : string) (items : list (string * A)) : option A :=
  match items with
  | [] => None
  | (k', v) :: items' => if String.eqb k' k then Some v else assoc k items'
  end.

(** [a == b]: numbers by value, strings by their characters, lists item by
    item, dicts key by key; values of different kinds are unequal.  An
    infinity equals the infinity of its sign only, and NaN equals nothing,
    not even itself.  A list or a dict compares two items as equal when
    they are the same object, before it asks [==]: the JSON decoder returns
    one object for every [NaN] it reads, so inside containers NaN equals
    NaN. *)
Fixpoint py_eq (a b : pyval) {struct a} : bool :=
  match a, b with
  | PyNone, PyNone => true
  | PyStr s, PyStr t => String.eqb s t
  | PyInf n1, PyInf n2 => Bool.eqb n1 n2
  | PyList l1, PyList l2 =>
      (fix items (l1 l2 : list pyval) : bool :=
         match l1, l2 with
         | [], [] => true
         | x :: l1', y :: l2' =>
             ((is_nan x && is_nan y || py_eq x y) && items l1' l2')%bool
         | _, _ => false
         end) l1 l2
  | PyDict d1, PyDict d2 =>
      ((length d1 =? length d2)%nat &&
       (fix items (d1 : list (string * pyval)) : bool :=
          match d1 with
          | [] => true
          | (k, v) :: d1' =>
              match assoc k d2 with
              | Some v' => ((is_nan v && is_nan v' || py_eq v v') && items d1')%bool
              | None => false
              end
          end) d1)%bool
  | _, _ =>
      match number_of a, number_of b with
      | Some (m1, e1), Some (m2, e2) =>
          match dyadic_compare m1 e1 m2 e2 with Eq => true | _ => false end
      | _, _ => false
      end
  end.

(** [a and b], with [b] already evaluated (it has no effect here). *)
Definition py_and (a b : pyval) : pyval := if truthy a then b else a.

(** [a or b]. *)
Definition py_or (a b : pyval) : pyval := if truthy a then a else b.

(** [data.get(key, default)]: a [dict] method; the other JSON types have no
    attribute [get]. *)
Definition py_get (data : pyval) (key : string) (default : pyval) : result pyval :=
  match data with
  | PyDict items => ret (match assoc key items with Some v => v | None => default end)
  | _ => raise AttributeError
  end.

(** [data[key]] for a [str] key: [KeyError] on a [dict] without it; a [list]
    or a [str] wants integer indices, and the other types are not
    subscriptable. *)
Definition py_getitem (data : pyval) (key : string) : result pyval :=
  match data with
  | PyDict items => match assoc key items with Some v => ret v | None => raise (KeyError key) end
  | _ => raise TypeError
  end.

(** [key in data] for a [str] key: membership of the keys of a [dict], of the
    elements of a [list], substring of a [str]; the other types are not
    iterable. *)
Definition py_in (key : string) (data : pyval) : result bool :=
  match data with
  | PyDict items => ret (match assoc key items with Some _ => true | None => false end)
  | PyList l => ret (existsb (fun v => py_eq v (PyStr key)) l)
  | PyStr s => ret (Str.contains key s)
  | _ => raise TypeError
  end.

(** ** [database.py]: the SQLite store *)

Module Database.

(** A stored value, by storage class (SQLite has no other for the values
    the [sqlite3] module binds from JSON data).  A REAL is the dyadic
    number [m * 2^e] or an infinity; SQLite has no NaN. *)
Inductive sqlval :=
  | SNull
  | SInt (z : Z)
  | SReal (m e : Z)
  | SInf (negative : bool)
  | SText (s : string).

(** How [sqlite3] binds a Python parameter: [None], [int] (a [bool] is an
    [int]), [float] and [str] are supported; an [int] outside 64 bits
    overflows and the container types cannot be bound.  SQLite takes a NaN
    as NULL. *)
Definition sql_bind (v : pyval) : result sqlval :=
  match v with
  | PyNone => ret SNull
  | PyBool b => ret (SInt (if b then 1 else 0))
  | PyInt z =>
      if ((- 2 ^ 63 <=? z)%Z && (z <? 2 ^ 63)%Z)%bool then ret (SInt z)
      else raise (OtherError "OverflowError")
  | PyFloat m e => ret (SReal m e)
  | PyNegZero => ret (SReal 0 0)
  | PyNaN => ret SNull
  | PyInf negative => ret (SInf negative)
  | PyStr s => ret (SText s)
  | PyList _ | PyDict _ => raise SqliteError
  end.

(** What a row gives back to Python. *)
Definition py_of_sql (v : sqlval) : pyval :=
  match v with
  | SNull => PyNone
  | SInt z => PyInt z
  | SReal m e => PyFloat m e
  | SInf negative => PyInf negative
  | SText s => PyStr s
  end.

(** The integer a dyadic number is, when it is one. *)
Definition integral (m e : Z) : option Z :=
  if (0 <=? e)%Z then Some (m * 2 ^ e)
  else if (m mod 2 ^ (- e) =? 0)%Z then Some (m / 2 ^ (- e)) else None.

(** The order SQLite sorts by ([ORDER BY], BINARY collation): NULL first,
    then numbers by value (minus infinity below and plus infinity above
    the others), then text byte by byte. *)
Definition sql_compare (a b : sqlval) : comparison :=
  match a, b with
  | SNull, SNull => Eq
  | SNull, _ => Lt
  | _, SNull => Gt
  | SInt x, SInt y => (x ?= y)%Z
  | SInt x, SReal m e => dyadic_compare x 0 m e
  | SReal m e, SInt y => dyadic_compare m e y 0
  | SReal m1 e1, SReal m2 e2 => dyadic_compare m1 e1 m2 e2
  | SInf n1, SInf n2 =>
      match n1, n2 with
      | true, false => Lt
      | false, true => Gt
      | _, _ => Eq
      end
  | SInf negative, (SInt _ | SReal _ _) => if negative then Lt else Gt
  | (SInt _ | SReal _ _), SInf negative => if negative then Gt else Lt
  | (SInt _ | SReal _ _ | SInf _), SText _ => Lt
  | SText _, (SInt _ | SReal _ _ | SInf _) => Gt
  | SText s, SText t => String.compare s t
  end.

(** [column = ?] in a [WHERE]: true only for two non-NULL equal values. *)
Definition sql_eq (a b : sqlval) : bool :=
  match a, b with
  | SNull, _ | _, SNull => false
  | _, _ => match sql_compare a b with Eq => true | _ => false end
  end.

Record setting_row := {
  value : sqlval;
  updated_at : string;
}.

Record group_row := {
  g_id : Z;
  g_name : sqlval;
  g_order_num : sqlval;
  g_is_nas_service : sqlval;
  g_created_at : string;
}.

Record service_row := {
  s_id : Z;
  s_group_id : sqlval;
  s_name : sqlval;
  s_url_public : sqlval;
  s_url_local : sqlval;
  s_icon : sqlval;
  s_order_num : sqlval;
  s_created_at : string;
}.

(** The three tables, with the counters SQLite keeps for the two
    [AUTOINCREMENT] keys (table [sqlite_sequence]).  [settings.key] is the
    primary key, so the table is a map from keys. *)
Record db := {
  settings : gmap string setting_row;
  groups : list group_row;
  groups_seq : Z;
  services : list service_row;
  services_seq : Z;
}.

Definition empty : db :=
  {| settings := ∅; groups := []; groups_seq := 0; services := []; services_seq := 0 |}.

Section Sqlite.

(** The text SQLite renders a REAL as, and the number it reads a text as
    (if it reads as one): its own conversion routines. *)
Variable real_text : Z -> Z -> string.
Variable numeric_of_text : string -> option sqlval.

Definition decimal (z : Z) : string := pretty z.

(** Storing into a TEXT column: numbers are stored as their text. *)
Definition affinity_text (v : sqlval) : sqlval :=
  match v with
  | SInt z => SText (decimal z)
  | SReal m e => SText (real_text m e)
  | SInf negative => SText (if negative then "-Inf" else "Inf")
  | _ => v
  end.

(** Storing into an INTEGER or NUMERIC column (BOOLEAN is NUMERIC): a text
    that reads as a number is stored as the number, and a REAL that is an
    integer strictly between the least and the greatest 64-bit integer is
    stored as that integer. *)
Definition affinity_numeric (v : sqlval) : sqlval :=
  match v with
  | SReal m e =>
      match integral m e with
      | Some z => if ((- 2 ^ 63 <? z)%Z && (z <? 2 ^ 63 - 1)%Z)%bool then SInt z else v
      | None => v
      end
  | SText s => match numeric_of_text s with Some n => n | None => v end
  | _ => v
  end.

(** [get_setting]: the value of the row of [key], [None] without a row. *)
Definition get_setting (d : db) (key : string) : pyval :=
  match settings d !! key with
  | Some row => py_of_sql (value row)
  | None => PyNone
  end.

(** [set_setting]: [INSERT OR REPLACE] of the row of [key]. *)
Definition set_setting (now : string) (key : string) (v : pyval) (d : db) : result db :=
  let! v := sql_bind v in
  ret {| settings := <[key := {| value := affinity_text v; updated_at := now |}]> (settings d);
         groups := groups d; groups_seq := groups_seq d;
         services := services d; services_seq := services_seq d |}.

(** The key an [AUTOINCREMENT] column gives the next row: one more than
    the largest key the table has ever held. *)
Definition next_id (seq : Z) (ids : list Z) : Z := fold_right Z.max seq ids + 1.

Definition is_null (v : sqlval) : bool := match v with SNull => true | _ => false end.

(** [create_group]: [name] is NOT NULL. *)
Definition create_group (now : string) (name order is_nas_service : pyval) (d : db)
  : result (Z * db) :=
  let! name := sql_bind name in
  let! order := sql_bind order in
  let! is_nas := sql_bind is_nas_service in
  if is_null name then raise SqliteError
  else
    let id := next_id (groups_seq d) (map g_id (groups d)) in
    ret (id,
         {| settings := settings d;
            groups := groups d ++ [ {| g_id := id; g_name := affinity_text name;
                                       g_order_num := affinity_numeric order;
                                       g_is_nas_service := affinity_numeric is_nas;
                                       g_created_at := now |} ];
            groups_seq := id;
            services := services d; services_seq := services_seq d |}).

(** [update_group]: with an [order] that is not [None] both columns are
    set, otherwise the name only. *)
Definition update_group (group_id : Z) (name order : pyval) (d : db) : result db :=
  let set_order := match order with PyNone => false | _ => true end in
  let! name := sql_bind name in
  let! order := if set_order then sql_bind order else ret SNull in
  let! _ := sql_bind (PyInt group_id) in
  if (is_null name && existsb (fun g => (g_id g =? group_id)%Z) (groups d))%bool
  then raise SqliteError
  else
    ret {| settings := settings d;
           groups := map (fun g =>
                            if (g_id g =? group_id)%Z then
                              {| g_id := g_id g; g_name := affinity_text name;
                                 g_order_num := if set_order then affinity_numeric order
                                                else g_order_num g;
                                 g_is_nas_service := g_is_nas_service g;
                                 g_created_at := g_created_at g |}
                            else g) (groups d);
           groups_seq := groups_seq d;
           services := services d; services_seq := services_seq d |}.

(** [delete_group].  The connection never turns [PRAGMA foreign_keys] on,
    so the [ON DELETE CASCADE] of [services.group_id] is not enforced and
    the services of the group stay. *)
Definition delete_group (group_id : Z) (d : db) : result db :=
  let! _ := sql_bind (PyInt group_id) in
  ret {| settings := settings d;
         groups := List.filter (fun g => negb (g_id g =? group_id)%Z) (groups d);
         groups_seq := groups_seq d;
         services := services d; services_seq := services_seq d |}.

(** [create_service]: [group_id] and [name] are NOT NULL. *)
Definition create_service (now : string)
    (group_id name url_public url_local icon order : pyval) (d : db) : result (Z * db) :=
  let! group_id := sql_bind group_id in
  let! name := sql_bind name in
  let! url_public := sql_bind url_public in
  let! url_local := sql_bind url_local in
  let! icon := sql_bind icon in
  let! order := sql_bind order in
  if (is_null (affinity_numeric group_id) || is_null name)%bool then raise SqliteError
  else
    let id := next_id (services_seq d) (map s_id (services d)) in
    ret (id,
         {| settings := settings d; groups := groups d; groups_seq := groups_seq d;
            services := services d ++ [ {| s_id := id;
                                           s_group_id := affinity_numeric group_id;
                                           s_name := affinity_text name;
                                           s_url_public := affinity_text url_public;
                                           s_url_local := affinity_text url_local;
                                           s_icon := affinity_text icon;
                                           s_order_num := affinity_numeric order;
                                           s_created_at := now |} ];
            services_seq := id |}).

(** An optional argument of [update_service]: bound when it is not [None]. *)
Definition bind_if_given (arg : pyval) : result (option sqlval) :=
  match arg with
  | PyNone => ret None
  | _ => let! v := sql_bind arg in ret (Some v)
  end.

(** The column after the update: the bound value when there is one. *)
Definition set_if_given (aff : sqlval -> sqlval) (given : option sqlval) (old : sqlval)
  : sqlval :=
  match given with
  | Some v => aff v
  | None => old
  end.

(** [update_service]: [name] is always set, the other columns when given. *)
Definition update_service (service_id : Z)
    (name url_public url_local icon order : pyval) (d : db) : result db :=
  let! name := sql_bind name in
  let! url_public := bind_if_given url_public in
  let! url_local := bind_if_given url_local in
  let! icon := bind_if_given icon in
  let! order := bind_if_given order in
  let! _ := sql_bind (PyInt service_id) in
  if (is_null name && existsb (fun s => (s_id s =? service_id)%Z) (services d))%bool
  then raise SqliteError
  else
    let update (s : service_row) : service_row :=
      {| s_id := s_id s; s_group_id := s_group_id s; s_name := affinity_text name;
         s_url_public := set_if_given affinity_text url_public (s_url_public s);
         s_url_local := set_if_given affinity_text url_local (s_url_local s);
         s_icon := set_if_given affinity_text icon (s_icon s);
         s_order_num := set_if_given affinity_numeric order (s_order_num s);
         s_created_at := s_created_at s |} in
    ret {| settings := settings d; groups := groups d; groups_seq := groups_seq d;
           services := map (fun s => if (s_id s =? service_id)%Z then update s else s)
                           (services d);
           services_seq := services_seq d |}.

(** [delete_service]. *)
Definition delete_service (service_id : Z) (d : db) : result db :=
  let! _ := sql_bind (PyInt service_id) in
  ret {| settings := settings d; groups := groups d; groups_seq := groups_seq d;
         services := List.filter (fun s => negb (s_id s =? service_id)%Z) (services d);
         services_seq := services_seq d |}.

(** [ORDER BY order_num, id]: insertion into a list sorted by that key. *)
Definition key_le (a b : sqlval * Z) : bool :=
  match sql_compare (fst a) (fst b) with
  | Lt => true
  | Gt => false
  | Eq => (snd a <=? snd b)%Z
  end.

Fixpoint insert_by {A} (key : A -> sqlval * Z) (x : A) (l : list A) : list A :=
  match l with
  | [] => [x]
  | y :: l' => if key_le (key x) (key y) then x :: l else y :: insert_by key x l'
  end.

Definition order_by {A} (key : A -> sqlval * Z) (l : list A) : list A :=
  fold_right (insert_by key) [] l.

Definition service_dict (s : service_row) : pyval :=
  PyDict [("id", PyInt (s_id s)); ("name", py_of_sql (s_name s));
          ("url_public", py_of_sql (s_url_public s));
          ("url_local", py_of_sql (s_url_local s));
          ("icon", py_of_sql (s_icon s)); ("order", py_of_sql (s_order_num s))].

(** [get_all_groups]: the groups in order, each with its services in
    order. *)
Definition get_all_groups (d : db) : pyval :=
  PyList
    (map (fun g =>
            PyDict [("id", PyInt (g_id g)); ("name", py_of_sql (g_name g));
                    ("order", py_of_sql (g_order_num g));
                    ("is_nas_service", PyBool (truthy (py_of_sql (g_is_nas_service g))));
                    ("services",
                     PyList (map service_dict
                               (order_by (fun s => (s_order_num s, s_id s))
                                  (List.filter (fun s => sql_eq (s_group_id s) (SInt (g_id g)))
                                     (services d)))))])
         (order_by (fun g => (g_order_num g, g_id g)) (groups d))).

(** [_init_db]: the tables exist; a first group is inserted when no group
    is marked as the NAS group. *)
Definition init_db (now : string) (d : db) : db :=
  if existsb (fun g => sql_eq (g_is_nas_service g) (SInt 1)) (groups d) then d
  else
    let id := next_id (groups_seq d) (map g_id (groups d)) in
    {| settings := settings d;
       groups := groups d ++ [ {| g_id := id; g_name := SText "NAS服务";
                                  g_order_num := SInt 1; g_is_nas_service := SInt 1;
                                  g_created_at := now |} ];
       groups_seq := id;
       services := services d; services_seq := services_seq d |}.

End Sqlite.

End Database.

(** ** Binary64 arithmetic *)

(** Python's [float] is the binary64 format of IEEE 754, and each of its
    operations returns the exact result rounded to the nearest
    representable number, ties to the even one; so does [/] on two [int]s.
    A finite [float] is the rational number it stands for, and an operation
    is the exact operation followed by [round].  [round] has 53 significant
    bits and no bound on the exponent: it is the binary64 rounding for
    results in the normal range, from [2^-1022] up to [2^1024], which holds
    all the numbers computed from the sizes of an image (Pillow keeps them
    in C ints, below [2^31]). *)
Module Float.

Local Open Scope Q_scope.

(** [floor (log2 q)] for a positive [q]. *)
Definition ilog2 (q : Q) : Z :=
  let k := (Z.log2 (Qnum q) - Z.log2 (Zpos (Qden q)))%Z in
  if Qle_bool (2 ^ k) q then k else (k - 1)%Z.

(** The nearest integer, the even one of two that are equally near. *)
Definition rne (q : Q) : Z :=
  let f := Qfloor q in
  match Qcompare (q - inject_Z f) (1 # 2) with
  | Lt => f
  | Gt => (f + 1)%Z
  | Eq => if Z.even f then f else (f + 1)%Z
  end.

(** A positive [q] between [2^k] and [2^(k+1)] is rounded to a multiple
    of [2^(k-52)]. *)
Definition round_pos (q : Q) : Q :=
  let e := (ilog2 q - 52)%Z in inject_Z (rne (q / 2 ^ e)) * 2 ^ e.

Definition round (q : Q) : Q :=
  let q := Qred q in
  match Qcompare q 0 with
  | Eq => 0
  | Gt => round_pos q
  | Lt => - round_pos (- q)
  end.

(** [float(z)], and the operations on two [float]s; [div] is also [a / b]
    for two [int]s, which Python rounds once. *)
Definition of_int (z : Z) : Q := round (inject_Z z).
Definition div (a b : Q) : Q := round (a / b).
Definition mul (a b : Q) : Q := round (a * b).
Definition sub (a b : Q) : Q := round (a - b).

(** Half a unit in the last place of 1: [2^-53]. *)
Definition u : Q := 1 # 9007199254740992.

End Float.

(** ** Pillow's thumbnail size *)

Module Pillow.

Local Open Scope Q_scope.

(** [min(a, b, key=key)]: the first of the two with the least key. *)
Definition min_by (key : Z -> Q) (a b : Z) : Z :=
  if Qle_bool (key a) (key b) then a else b.

(** [round_aspect(number, key)]: of the two integers around [number] the
    one with the least key, and at least 1. *)
Definition round_aspect (number : Q) (key : Z -> Q) : Z :=
  Z.max (min_by key (Qfloor number) (Qceiling number)) 1.

(** [x = round_aspect(y * aspect, key=lambda n: abs(aspect - n / y))]. *)
Definition fit_width (y : Z) (aspect : Q) : Z :=
  round_aspect (Float.mul (Float.of_int y) aspect)
    (fun n => Qabs (Float.sub aspect (Float.div (inject_Z n) (inject_Z y)))).

(** [y = round_aspect(x / aspect,
                      key=lambda n: 0 if n == 0 else abs(aspect - x / n))]. *)
Definition fit_height (x : Z) (aspect : Q) : Z :=
  round_aspect (Float.div (Float.of_int x) aspect)
    (fun n => if (n =? 0)%Z then 0
              else Qabs (Float.sub aspect (Float.div (inject_Z x) (inject_Z n)))).

(** [preserve_aspect_ratio()] inside [Image.thumbnail(size)], for an image
    of [width] by [height] and the requested [(x, y)]: [None] when the
    image already fits; otherwise the side that binds keeps the requested
    length and the other is scaled by the aspect.  The aspect, the scaled
    length and the keys are [float]s.  A division by zero raises. *)
Definition preserve_aspect_ratio (x y width height : Z) : result (option (Z * Z)) :=
  if ((width <=? x)%Z && (height <=? y)%Z)%bool then ret None
  else if (height =? 0)%Z then raise (OtherError "ZeroDivisionError")
  else
    let aspect := Float.div (inject_Z width) (inject_Z height) in
    if (y =? 0)%Z then raise (OtherError "ZeroDivisionError")
    else if Qle_bool aspect (Float.div (inject_Z x) (inject_Z y)) then
      ret (Some (fit_width y aspect, y))
    else if Qeq_bool aspect 0 then raise (OtherError "ZeroDivisionError")
    else ret (Some (x, fit_height x aspect)).

End Pillow.

(** ** [app.py]: requests, responses and the world a handler acts on *)

(** What a handler reads of the request: the [Authorization] header when
    there is one, and what [request.json] evaluates to (it raises werkzeug's
    415 or 400 when the body is not JSON). *)
Record request := {
  authorization : option string;
  json : result pyval;
}.

Inductive body :=
  | Json (v : pyval)       (* jsonify(v) *)
  | ErrorPage (e : exn).   (* the page Flask renders for an exception *)

Record response := {
  status : Z;
  body_of : body;
}.

(** [jsonify(v)] and [jsonify(v), code]. *)
Definition jsonify (v : pyval) : response := {| status := 200; body_of := Json v |}.
Definition jsonify_status (v : pyval) (code : Z) : response := {| status := code; body_of := Json v |}.

(** The answer of [requests.get]. *)
Record http_response := {
  status_code : Z;
  content : list byte;
  headers : list (string * string);
}.

(** The value of a header; header names compare without case. *)
Fixpoint headers_find (hs : list (string * string)) (name : string) : option string :=
  match hs with
  | [] => None
  | (k, v) :: hs' =>
      if String.eqb (Str.lower k) (Str.lower name) then Some v else headers_find hs' name
  end.

(** [response.headers.get(name, default)]. *)
Definition headers_get (hs : list (string * string)) (name default : string) : string :=
  match headers_find hs name with
  | Some v => v
  | None => default
  end.

(** What psutil reports. *)
Record metrics := {
  cpu_percent : pyval;
  cpu_count : pyval;
  memory_total : pyval;
  memory_used : pyval;
  memory_percent : pyval;
  disk_total : pyval;
  disk_used : pyval;
  disk_percent : pyval;
}.

(** What the outside gives one request: the clock of the database, the
    bytes [os.urandom] returns to [secrets.token_bytes(32)], the readings of
    psutil with the time stamp, and the network, whose answer to a GET may
    depend on the GETs made before it. *)
Record env := {
  now : string;
  entropy : list byte;
  psutil : result metrics;
  isoformat_now : string;
  http_get : list string -> string -> result http_response;
}.

(** What a handler can change: the database, and the GETs it has sent. *)
Record world := {
  store : Database.db;
  attempted : list string;
}.

(** A handler step: it returns or raises, and leaves a world. *)
Definition M (A : Type) : Type := world -> result A * world.

Definition mret {A} (a : A) : M A := fun w => (inr a, w).
Definition mraise {A} (e : exn) : M A := fun w => (inl e, w).
Definition mbind {A B} (m : M A) (k : A -> M B) : M B :=
  fun w => match m w with
           | (inl e, w') => (inl e, w')
           | (inr a, w') => k a w'
           end.

(** [try: m except Exception as e: handler(e)]. *)
Definition try_except {A} (m : M A) (handler : exn -> M A) : M A :=
  fun w => match m w with
           | (inl e, w') => handler e w'
           | (inr a, w') => (inr a, w')
           end.

(** A pure step that may raise. *)
Definition lift {A} (r : result A) : M A := fun w => (r, w).

(** A read of the database. *)
Definition query {A} (f : Database.db -> A) : M A := fun w => (inr (f (store w)), w).

(** A statement that changes the database and commits, or fails and
    changes nothing. *)
Definition execute {A} (f : Database.db -> result (A * Database.db)) : M A :=
  fun w => match f (store w) with
           | inl e => (inl e, w)
           | inr (a, d) => (inr a, {| store := d; attempted := attempted w |})
           end.

Definition execute_ (f : Database.db -> result Database.db) : M unit :=
  execute (fun d => match f d with inl e => inl e | inr d' => inr (tt, d') end).

Notation "'let*' x ':=' m 'in' k" := (mbind m (fun x => k))
  (at level 10, x pattern, m at level 100, k at level 200).

(** Flask around a view function: an exception that leaves it becomes the
    error page of its HTTP code, or of 500. *)
Definition flask (view : M response) (w : world) : response * world :=
  match view w with
  | (inr r, w') => (r, w')
  | (inl e, w') =>
      ({| status := match e with HTTPException code => code | _ => 500 end;
          body_of := ErrorPage e |}, w')
  end.

(** ** [app.py]: the view functions *)

(** The text stored under the reserved key, if a text is stored there. *)
Definition stored_token (d : Database.db) : option string :=
  match Database.settings d !! "access_token" with
  | Some {| Database.value := Database.SText t |} => Some t
  | _ => None
  end.


Section App.

(** [AUTH_KEY], read from the environment when the process starts. *)
Variable AUTH_KEY : string.

(** Conversions of SQLite (see [Database]). *)
Variable real_text : Z -> Z -> string.
Variable numeric_of_text : string -> option Database.sqlval.

(** [str(e)] of an exception, [repr] of a float, list or dict. *)
Variable str_of_exn : exn -> string.
Variable py_repr : pyval -> string.

(** The attributes of [urlparse(url)] the code reads, as the f-string
    renders them. *)
Record ParseResult := {
  scheme : string;
  netloc : string;
}.

(** [urllib.parse.urlparse]; it raises on some inputs. *)
Variable urlparse : pyval -> result ParseResult.

(** Pillow: an opened image has a size; opening, resampling to a size
    (which loads the pixel data) and writing as PNG can each fail. *)
Variable image : Type.
Variable Image_open : list byte -> result image.
Variable image_size : image -> Z * Z.
Variable image_resize : image -> Z * Z -> result image.
Variable image_save_png : image -> result (list byte).

(** [generate_token]: [secrets.token_urlsafe(32)], the URL-safe base64 text
    of 32 random bytes without its padding. *)
Definition generate_token (e : env) : string :=
  Str.rstrip "=" (Base64.urlsafe_b64encode (entropy e)).

(** [verify_token]. *)
Definition verify_token (d : Database.db) (token : pyval) : pyval :=
  let stored_token := Database.get_setting d "access_token" in
  py_and stored_token (PyBool (py_eq stored_token token)).

(** [authenticate]: POST /api/auth. *)
Definition authenticate (req : request) (e : env) : M response :=
  let* data := lift (json req) in
  let* auth_key := lift (py_get data "auth_key" (PyStr "")) in
  if py_eq auth_key (PyStr AUTH_KEY) then
    let token := generate_token e in
    let* _ := execute_ (Database.set_setting real_text (now e) "access_token" (PyStr token)) in
    mret (jsonify (PyDict [("success", PyBool true); ("token", PyStr token)]))
  else
    mret (jsonify_status (PyDict [("success", PyBool false); ("message", PyStr "认证失败")]) 401).

(** [verify]: POST /api/verify. *)
Definition verify (req : request) : M response :=
  let* data := lift (json req) in
  let* token := lift (py_get data "token" (PyStr "")) in
  let* ok := query (fun d => verify_token d token) in
  if truthy ok then mret (jsonify (PyDict [("success", PyBool true)]))
  else mret (jsonify_status (PyDict [("success", PyBool false)]) 401).

(** [request.headers.get("Authorization", "").replace("Bearer ", "")]. *)
Definition bearer_token (req : request) : string :=
  Str.replace "Bearer " ""
    (match authorization req with Some h => h | None => "" end).

Definition unauthorized : response :=
  jsonify_status (PyDict [("error", PyStr "Unauthorized")]) 401.

Definition success : response := jsonify (PyDict [("success", PyBool true)]).

(** [get_system_info]: GET /api/system-info. *)
Definition get_system_info (req : request) (e : env) : M response :=
  let token := bearer_token req in
  let* ok := query (fun d => verify_token d (PyStr token)) in
  if negb (truthy ok) then mret unauthorized
  else
    try_except
      (let* m := lift (psutil e) in
       mret (jsonify (PyDict
         [("cpu", PyDict [("percent", cpu_percent m); ("count", cpu_count m)]);
          ("memory", PyDict [("total", memory_total m); ("used", memory_used m);
                             ("percent", memory_percent m)]);
          ("disk", PyDict [("total", disk_total m); ("used", disk_used m);
                           ("percent", disk_percent m)]);
          ("timestamp", PyStr (isoformat_now e))])))
      (fun ex => mret (jsonify_status (PyDict [("error", PyStr (str_of_exn ex))]) 500)).

(** [get_groups]: GET /api/groups. *)
Definition get_groups (req : request) : M response :=
  let token := bearer_token req in
  let* ok := query (fun d => verify_token d (PyStr token)) in
  if negb (truthy ok) then mret unauthorized
  else
    let* groups := query Database.get_all_groups in
    mret (jsonify groups).

(** [create_group]: POST /api/groups. *)
Definition create_group (req : request) (e : env) : M response :=
  let token := bearer_token req in
  let* ok := query (fun d => verify_token d (PyStr token)) in
  if negb (truthy ok) then mret unauthorized
  else
    let* data := lift (json req) in
    let* name := lift (py_getitem data "name") in
    let* order := lift (py_get data "order" (PyInt 999)) in
    let* is_nas_service := lift (py_get data "is_nas_service" (PyBool false)) in
    let* group_id :=
      execute (Database.create_group real_text numeric_of_text (now e)
                 name order is_nas_service) in
    mret (jsonify (PyDict [("success", PyBool true); ("group_id", PyInt group_id)])).

(** [update_group]: PUT /api/groups/<int:group_id>. *)
Definition update_group (group_id : Z) (req : request) : M response :=
  let token := bearer_token req in
  let* ok := query (fun d => verify_token d (PyStr token)) in
  if negb (truthy ok) then mret unauthorized
  else
    let* data := lift (json req) in
    let* name := lift (py_getitem data "name") in
    let* order := lift (py_get data "order" PyNone) in
    let* _ := execute_ (Database.update_group real_text numeric_of_text group_id name order) in
    mret success.

(** [delete_group]: DELETE /api/groups/<int:group_id>. *)
Definition delete_group (group_id : Z) (req : request) : M response :=
  let token := bearer_token req in
  let* ok := query (fun d => verify_token d (PyStr token)) in
  if negb (truthy ok) then mret unauthorized
  else
    let* _ := execute_ (Database.delete_group group_id) in
    mret success.

(** [create_service]: POST /api/services. *)
Definition create_service (req : request) (e : env) : M response :=
  let token := bearer_token req in
  let* ok := query (fun d => verify_token d (PyStr token)) in
  if negb (truthy ok) then mret unauthorized
  else
    let* data := lift (json req) in
    let* group_id := lift (py_getitem data "group_id") in
    let* name := lift (py_getitem data "name") in
    let* url_public := lift (py_get data "url_public" (PyStr "")) in
    let* url_local := lift (py_get data "url_local" (PyStr "")) in
    let* icon := lift (py_get data "icon" (PyStr "")) in
    let* order := lift (py_get data "order" (PyInt 999)) in
    let* service_id :=
      execute (Database.create_service real_text numeric_of_text (now e)
                 group_id name url_public url_local icon order) in
    mret (jsonify (PyDict [("success", PyBool true); ("service_id", PyInt service_id)])).

(** [update_service]: PUT /api/services/<int:service_id>. *)
Definition update_service (service_id : Z) (req : request) : M response :=
  let token := bearer_token req in
  let* ok := query (fun d => verify_token d (PyStr token)) in
  if negb (truthy ok) then mret unauthorized
  else
    let* data := lift (json req) in
    let* name := lift (py_getitem data "name") in
    let* url_public := lift (py_get data "url_public" PyNone) in
    let* url_local := lift (py_get data "url_local" PyNone) in
    let* icon := lift (py_get data "icon" PyNone) in
    let* order := lift (py_get data "order" PyNone) in
    let* _ :=
      execute_ (Database.update_service real_text numeric_of_text service_id
                  name url_public url_local icon order) in
    mret success.

(** [delete_service]: DELETE /api/services/<int:service_id>. *)
Definition delete_service (service_id : Z) (req : request) : M response :=
  let token := bearer_token req in
  let* ok := query (fun d => verify_token d (PyStr token)) in
  if negb (truthy ok) then mret unauthorized
  else
    let* _ := execute_ (Database.delete_service service_id) in
    mret success.

(** [str(v)], as an f-string renders a value. *)
Definition py_str (v : pyval) : string :=
  match v with
  | PyStr s => s
  | PyNone => "None"
  | PyBool true => "True"
  | PyBool false => "False"
  | PyInt z => pretty z
  | _ => py_repr v
  end.

(** The candidate list of [fetch_icon]. *)
Definition favicon_urls (parsed : ParseResult) (url : pyval) : list string :=
  let base_url := scheme parsed +:+ "://" +:+ netloc parsed in
  [ base_url +:+ "/favicon.ico";
    base_url +:+ "/favicon.png";
    base_url +:+ "/apple-touch-icon.png";
    base_url +:+ "/apple-touch-icon-precomposed.png";
    base_url +:+ "/static/favicon.ico";
    py_str url +:+ "/favicon.ico" ].

(** [requests.get(favicon_url, timeout=5, verify=False)]: one more GET
    attempted; it returns a response or raises (connection error, timeout,
    invalid URL). *)
Definition requests_get (e : env) (favicon_url : string) : M http_response :=
  fun w => (http_get e (attempted w) favicon_url,
            {| store := store w; attempted := attempted w ++ [favicon_url] |}).

(** The body of the loop of [fetch_icon] for one candidate: [Some] is the
    [return] inside it; [None] is falling through or [continue]. *)
Definition try_candidate (e : env) (favicon_url : string) : M (option response) :=
  try_except
    (let* response := requests_get e favicon_url in
     if (status_code response =? 200)%Z then
       let icon_base64 := Base64.b64encode (content response) in
       let content_type := headers_get (headers response) "content-type" "image/x-icon" in
       mret (Some (jsonify (PyDict
         [("success", PyBool true);
          ("icon", PyStr ("data:" +:+ content_type +:+ ";base64," +:+ icon_base64))])))
     else mret None)
    (fun _ => mret None).

Definition icon_not_found : response :=
  jsonify_status (PyDict [("success", PyBool false); ("message", PyStr "无法获取图标")]) 404.

(** [for favicon_url in favicon_urls: ...], then the 404 after the loop. *)
Fixpoint probe (e : env) (favicon_urls : list string) : M response :=
  match favicon_urls with
  | [] => mret icon_not_found
  | favicon_url :: rest =>
      let* found := try_candidate e favicon_url in
      match found with
      | Some r => mret r
      | None => probe e rest
      end
  end.

Definition failure (ex : exn) : response :=
  jsonify_status (PyDict [("success", PyBool false); ("message", PyStr (str_of_exn ex))]) 500.

(** [fetch_icon]: POST /api/fetch-icon.  [request.json] and [data.get] are
    evaluated before the [try]. *)
Definition fetch_icon (req : request) (e : env) : M response :=
  let token := bearer_token req in
  let* ok := query (fun d => verify_token d (PyStr token)) in
  if negb (truthy ok) then mret unauthorized
  else
    let* data := lift (json req) in
    let* url := lift (py_get data "url" (PyStr "")) in
    try_except
      (let* parsed := lift (urlparse url) in
       probe e (favicon_urls parsed url))
      (fun ex => mret (failure ex)).

(** [image_data.split(",")[1]]. *)
Definition split_comma_1 (image_data : pyval) : result pyval :=
  match image_data with
  | PyStr s =>
      match Str.split "," s with
      | _ :: piece :: _ => ret (PyStr piece)
      | _ => raise (OtherError "IndexError")
      end
  | _ => raise AttributeError
  end.

(** The string [upload_icon] hands to [base64.b64decode]. *)
Definition payload (image_data : pyval) : result pyval :=
  let! has_comma := py_in "," image_data in
  if has_comma then split_comma_1 image_data else ret image_data.

(** [base64.b64decode(image_data)]: a [str] is decoded; the other JSON
    types are not bytes-like. *)
Definition b64decode (image_data : pyval) : result (list byte) :=
  match image_data with
  | PyStr s =>
      match Base64.b64decode s with
      | inr bs => ret bs
      | inl Base64.NonAscii => raise ValueError
      | inl _ => raise BinasciiError
      end
  | _ => raise TypeError
  end.

(** [img.thumbnail(size, Image.Resampling.LANCZOS)]: nothing happens when
    the image fits; otherwise it is resampled to the computed size. *)
Definition thumbnail (img : image) (size : Z * Z) : result image :=
  let! new_size :=
    Pillow.preserve_aspect_ratio (fst size) (snd size)
      (fst (image_size img)) (snd (image_size img)) in
  match new_size with
  | None => ret img
  | Some (x, y) =>
      if ((fst (image_size img) =? x)%Z && (snd (image_size img) =? y)%Z)%bool then ret img
      else image_resize img (x, y)
  end.

(** The [try] block of [upload_icon]. *)
Definition normalize_icon (req : request) : result response :=
  let! data := json req in
  let! image_data := py_get data "image" (PyStr "") in
  let! image_data := payload image_data in
  let! img_bytes := b64decode image_data in
  let! img := Image_open img_bytes in
  let! img := thumbnail img (128, 128)%Z in
  let! buffered := image_save_png img in
  let img_base64 := Base64.b64encode buffered in
  ret (jsonify (PyDict [("success", PyBool true);
                        ("icon", PyStr ("data:image/png;base64," +:+ img_base64))])).

(** [upload_icon]: POST /api/upload-icon.  Everything after the guard is
    inside the [try]. *)
Definition upload_icon (req : request) : M response :=
  let token := bearer_token req in
  let* ok := query (fun d => verify_token d (PyStr token)) in
  if negb (truthy ok) then mret unauthorized
  else
    try_except (lift (normalize_icon req)) (fun ex => mret (failure ex)).

(** [get_settings]: GET /api/settings. *)
Definition get_settings (req : request) : M response :=
  let token := bearer_token req in
  let* ok := query (fun d => verify_token d (PyStr token)) in
  if negb (truthy ok) then mret unauthorized
  else
    let* force_network := query (fun d => Database.get_setting d "force_network_mode") in
    mret (jsonify (PyDict [("force_network_mode", py_or force_network (PyStr "auto"))])).

(** [save_settings]: POST /api/settings. *)
Definition save_settings (req : request) (e : env) : M response :=
  let token := bearer_token req in
  let* ok := query (fun d => verify_token d (PyStr token)) in
  if negb (truthy ok) then mret unauthorized
  else
    let* data := lift (json req) in
    let* given := lift (py_in "force_network_mode" data) in
    let* _ :=
      if given then
        let* v := lift (py_getitem data "force_network_mode") in
        execute_ (Database.set_setting real_text (now e) "force_network_mode" v)
      else mret tt in
    mret success.

(** The routes behind the access guard. *)
Inductive protected_route :=
  | GET_system_info
  | GET_groups
  | POST_groups
  | PUT_groups (group_id : Z)
  | DELETE_groups (group_id : Z)
  | POST_services
  | PUT_services (service_id : Z)
  | DELETE_services (service_id : Z)
  | POST_fetch_icon
  | POST_upload_icon
  | GET_settings
  | POST_settings.

Definition view (r : protected_route) (req : request) (e : env) : M response :=
  match r with
  | GET_system_info => get_system_info req e
  | GET_groups => get_groups req
  | POST_groups => create_group req e
  | PUT_groups group_id => update_group group_id req
  | DELETE_groups group_id => delete_group group_id req
  | POST_services => create_service req e
  | PUT_services service_id => update_service service_id req
  | DELETE_services service_id => delete_service service_id req
  | POST_fetch_icon => fetch_icon req e
  | POST_upload_icon => upload_icon req
  | GET_settings => get_settings req
  | POST_settings => save_settings req e
  end.

End App.

(** ** The statements about the favicon probe *)

(** The answer of [fetch_icon] for an accepted response: the data URI of
    its body under its declared content type, [image/x-icon] when it
    declares none. *)
Definition data_uri_response (r : http_response) : response :=
  let content_type :=
    match headers_find (headers r) "content-type" with
    | Some declared => declared
    | None => "image/x-icon"
    end in
  {| status := 200;
     body_of := Json (PyDict
       [("success", PyBool true);
        ("icon", PyStr ("data:" +:+ content_type +:+ ";base64,"
                        +:+ Base64.b64encode (content r)))]) |}.

(** A candidate is passed over when its GET raises or when its status is
    not one that [accept] takes. *)
Definition passed_over (accept : Z -> bool) (outcome : result http_response) : Prop :=
  match outcome with
  | inl _ => True
  | inr r => accept (status_code r) = false
  end.

(** "The first candidate with an accepted status wins": when the
    candidates before position [n] are passed over and the one at [n] is
    answered with an accepted status, the probe returns its data URI and has
    sent the GETs up to [n] and no more.  The answer to each GET is the one
    the network gives after the GETs sent before it. *)
Definition first_accepted_wins (accept : Z -> bool) : Prop :=
  forall (e : env) (w : world) (urls : list string) (n : nat) (u : string)
         (r : http_response),
    urls !! n = Some u ->
    (forall (i : nat) (ui : string),
        (i < n)%nat -> urls !! i = Some ui ->
        passed_over accept (http_get e (attempted w ++ take i urls) ui)) ->
    http_get e (attempted w ++ take n urls) u = inr r ->
    accept (status_code r) = true ->
    probe e urls w
    = (inr (data_uri_response r),
       {| store := store w; attempted := attempted w ++ take (S n) urls |}).

(** The statuses 200 to 299, and the status 200 alone. *)
Definition is_2xx (code : Z) : bool := ((200 <=? code)%Z && (code <? 300)%Z)%bool.
Definition is_200 (code : Z) : bool := (code =? 200)%Z.

(** ** The statements about the uploaded image *)

(** The text before the first comma (all of it when there is none), and
    the text after the first comma. *)
Fixpoint before_comma (s : string) : string :=
  match s with
  | EmptyString => EmptyString
  | String c s' => if Ascii.eqb c "," then EmptyString else String c (before_comma s')
  end.

Fixpoint after_first_comma (s : string) : string :=
  match s with
  | EmptyString => EmptyString
  | String c s' => if Ascii.eqb c "," then s' else after_first_comma s'
  end.

(** "With a comma, the whole remainder after the first comma is decoded." *)
Definition decodes_whole_remainder : Prop :=
  forall s : string,
    Str.contains "," s = true ->
    payload (PyStr s) = inr (PyStr (after_first_comma s)).

(** An image of [w] by [h] scaled to [w'] by [h'] keeps its aspect to the
    pixel: the side that binds is 128 and the other side is less than one
    pixel away from the exact proportional length. *)
Definition within_a_pixel (w h w' h' : Z) : Prop :=
  (w' = 128%Z /\ (Qabs (inject_Z h' - inject_Z 128 * inject_Z h / inject_Z w) < 1)%Q)
  \/ (h' = 128%Z /\ (Qabs (inject_Z w' - inject_Z 128 * inject_Z w / inject_Z h) < 1)%Q).

(** The secret [authenticate] reads from a JSON object with these items. *)
Definition submitted_secret (items : list (string * pyval)) : pyval :=
  match assoc "auth_key" items with
  | Some v => v
  | None => PyStr ""
  end.

(** ** The statements about the store *)

(** The keys of a table are in order with its counter: no key twice, and
    none above the last key the counter has given. *)
Definition ids_ok (ids : list Z) (seq : Z) : Prop :=
  NoDup ids /\ Forall (fun i => (i <= seq)%Z) ids.

Definition store_ok (d : Database.db) : Prop :=
  ids_ok (map Database.g_id (Database.groups d)) (Database.groups_seq d)
  /\ ids_ok (map Database.s_id (Database.services d)) (Database.services_seq d).

(** The row of [access_token], which holds the session. *)
Definition session_row (d : Database.db) : option Database.setting_row :=
  Database.settings d !! "access_token".

(** The routes that only read the database. *)
Definition read_only (r : protected_route) : bool :=
  match r with
  | GET_system_info | GET_groups | POST_fetch_icon | POST_upload_icon | GET_settings => true
  | _ => false
  end.

(** Two rows are in the order of [ORDER BY order_num, id]. *)
Definition in_order {A} (key : A -> Database.sqlval * Z) (x y : A) : Prop :=
  Database.key_le (key x) (key y) = true.

(** The services [get_all_groups] selects for the group of an id, in the
    order it lists them. *)
Definition listed_services (d : Database.db) (group_id : Z) : list Database.service_row :=
  Database.order_by
    (fun s => (Database.s_order_num s, Database.s_id s))
    (List.filter
       (fun s => Database.sql_eq (Database.s_group_id s) (Database.SInt group_id))
       (Database.services d)).

(** The entry of a group in the answer of [get_all_groups]. *)
Definition group_entry (d : Database.db) (g : Database.group_row) : pyval :=
  PyDict [("id", PyInt (Database.g_id g)); ("name", Database.py_of_sql (Database.g_name g));
          ("order", Database.py_of_sql (Database.g_order_num g));
          ("is_nas_service",
           PyBool (truthy (Database.py_of_sql (Database.g_is_nas_service g))));
          ("services",
           PyList (map Database.service_dict (listed_services d (Database.g_id g))))].

(** A 64-bit integer, as SQLite stores keys. *)
Definition int64 (z : Z) : Prop := (- 2 ^ 63 <= z < 2 ^ 63)%Z.

(** A statement of [database.py] that writes, as a relation between the
    database before and after it. *)
Inductive write (real_text : Z -> Z -> string)
    (numeric_of_text : string -> option Database.sqlval) (d d' : Database.db) : Prop :=
  | write_setting (now : string) (v : pyval) :
      Database.set_setting real_text now "force_network_mode" v d = inr d' ->
      write real_text numeric_of_text d d'
  | write_create_group (now : string) (name order is_nas_service : pyval) (id : Z) :
      Database.create_group real_text numeric_of_text now name order is_nas_service d
      = inr (id, d') ->
      write real_text numeric_of_text d d'
  | write_update_group (group_id : Z) (name order : pyval) :
      Database.update_group real_text numeric_of_text group_id name order d = inr d' ->
      write real_text numeric_of_text d d'
  | write_delete_group (group_id : Z) :
      Database.delete_group group_id d = inr d' ->
      write real_text numeric_of_text d d'
  | write_create_service (now : string)
      (group_id name url_public url_local icon order : pyval) (id : Z) :
      Database.create_service real_text numeric_of_text now
        group_id name url_public url_local icon order d = inr (id, d') ->
      write real_text numeric_of_text d d'
  | write_update_service (service_id : Z) (name url_public url_local icon order : pyval) :
      Database.update_service real_text numeric_of_text service_id
        name url_public url_local icon order d = inr d' ->
      write real_text numeric_of_text d d'
  | write_delete_service (service_id : Z) :
      Database.delete_service service_id d = inr d' ->
      write real_text numeric_of_text d d'.

(** ** Concrete surroundings, used to run the handlers on examples *)

Module Example.

(** A fresh database after [_init_db], and a world without any GET sent. *)
Definition fresh_db : Database.db := Database.init_db "2024-01-01 00:00:00" Database.empty.

Definition fresh_world : world := {| store := fresh_db; attempted := [] |}.

Definition real_text (m e : Z) : string := pretty m +:+ "p" +:+ pretty e.

Definition numeric_of_text (s : string) : option Database.sqlval := None.

Definition str_of_exn (ex : exn) : string :=
  match ex with
  | BinasciiError => "Incorrect padding"
  | OtherError msg => msg
  | _ => "error"
  end.

Definition py_repr (v : pyval) : string := "<object>".

(** No route answers, no metrics can be read. *)
Definition offline (history : list string) (url : string) : result http_response :=
  raise RequestException.

(** The 32 bytes 0, 1, ..., 31 stand for a draw of [os.urandom(32)]. *)
Definition draw_1 : list byte :=
  [x00; x01; x02; x03; x04; x05; x06; x07; x08; x09; x0a; x0b; x0c; x0d; x0e; x0f;
   x10; x11; x12; x13; x14; x15; x16; x17; x18; x19; x1a; x1b; x1c; x1d; x1e; x1f].

(** A host whose [/favicon.ico] is answered 203 with a PNG body by a
    transforming proxy, and where nothing else answers. *)
Definition proxied_203 (history : list string) (url : string) : result http_response :=
  if String.eqb url "http://nas.local/favicon.ico"
  then ret {| status_code := 203; content := ["A"%byte; "B"%byte; "C"%byte];
              headers := [("Content-Type", "image/png")] |}
  else raise RequestException.

(** What [urlparse] gives for [http://nas.local]; it raises on anything
    else here. *)
Definition urlparse (url : pyval) : result ParseResult :=
  match url with
  | PyStr "http://nas.local" => ret {| scheme := "http"; netloc := "nas.local" |}
  | _ => raise ValueError
  end.

(** A stand-in for Pillow: an image is its size; a file is the two bytes
    of its width and height in tens of pixels; the PNG of an image is the
    two bytes of its width and height. *)
Definition image : Type := (Z * Z)%type.

Definition Image_open (bs : list byte) : result image :=
  match bs with
  | [a; b] => ret (10 * Z.of_N (Byte.to_N a), 10 * Z.of_N (Byte.to_N b))%Z
  | _ => raise UnidentifiedImageError
  end.

Definition image_size (img : image) : Z * Z := img.

Definition image_resize (img : image) (size : Z * Z) : result image := ret size.

Definition image_save_png (img : image) : result (list byte) :=
  ret [Base64.byte_of (Z.to_N (fst img)); Base64.byte_of (Z.to_N (snd img))].

(** An upload with a valid token in the header [h] and the image text [s]. *)
Definition upload_request (h : option string) (s : string) : request :=
  {| authorization := h; json := inr (PyDict [("image", PyStr s)]) |}.

Definition draw_2 : list byte := rev draw_1.

Definition env_with (bytes : list byte)
    (net : list string -> string -> result http_response) : env :=
  {| now := "2024-01-02 03:04:05"; entropy := bytes; psutil := raise OSError;
     isoformat_now := "2024-01-02T03:04:05"; http_get := net |}.

(** A request with the body [{"auth_key": secret}]. *)
Definition auth_request (secret : pyval) : request :=
  {| authorization := None; json := inr (PyDict [("auth_key", secret)]) |}.

(** The process is configured with the default secret. *)
Definition AUTH_KEY : string := "12345".

Definition env_1 : env := env_with draw_1 offline.
Definition env_2 : env := env_with draw_2 offline.

(** The token of the first draw, and the world after a first successful
    authentication in the fresh world. *)
Definition token_1 : string := generate_token env_1.

Definition logged_in : world :=
  snd (flask (authenticate AUTH_KEY real_text (auth_request (PyStr AUTH_KEY)) env_1)
         fresh_world).

(** The header a client sends with a token. *)
Definition bearer (token : string) : option string := Some ("Bearer " +:+ token).

(** A database whose stored token is [t]. *)
Definition db_with_token (t : string) : Database.db :=
  {| Database.settings :=
       {[ "access_token" := {| Database.value := Database.SText t;
                               Database.updated_at := "2024-01-01 00:00:00" |} ]};
     Database.groups := []; Database.groups_seq := 0;
     Database.services := []; Database.services_seq := 0 |}.

(** A host without [/favicon.ico] (404) whose [/favicon.png] is served. *)
Definition png_only (history : list string) (url : string) : result http_response :=
  if String.eqb url "http://nas.local/favicon.png"
  then ret {| status_code := 200; content := ["A"%byte; "B"%byte; "C"%byte];
              headers := [("Content-Type", "image/png")] |}
  else ret {| status_code := 404; content := []; headers := [] |}.

(** A database with one service, in the group [_init_db] made. *)
Definition plex : Database.service_row :=
  {| Database.s_id := 1; Database.s_group_id := Database.SInt 1;
     Database.s_name := Database.SText "Plex";
     Database.s_url_public := Database.SText "https://plex.example.org";
     Database.s_url_local := Database.SText "http://nas.local:32400";
     Database.s_icon := Database.SText ""; Database.s_order_num := Database.SInt 999;
     Database.s_created_at := "2024-01-03 00:00:00" |}.

Definition db_with_service : Database.db :=
  {| Database.settings := Database.settings fresh_db;
     Database.groups := Database.groups fresh_db;
     Database.groups_seq := Database.groups_seq fresh_db;
     Database.services := [plex]; Database.services_seq := 1 |}.

(** A request of the session of [logged_in] with a JSON object as body. *)
Definition session_request (items : list (string * pyval)) : request :=
  {| authorization := bearer token_1; json := inr (PyDict items) |}.

(** The protected view functions in these surroundings. *)
Definition view_of : protected_route -> request -> env -> M response :=
  view real_text numeric_of_text str_of_exn py_repr urlparse
       image Image_open image_size image_resize image_save_png.

End Example.

(** * Properties *)

(** ** Python values *)

Lemma py_eq_str (v : pyval) (s : string) : py_eq v (PyStr s) = true <-> v = PyStr s.
Proof.
  destruct v as [| b | z | m e | | | n | t | l | d]; simpl.
  - split; discriminate.
  - destruct b; split; discriminate.
  - split; discriminate.
  - split; discriminate.
  - split; discriminate.
  - split; discriminate.
  - split; discriminate.
  - rewrite String.eqb_eq. split; congruence.
  - split; discriminate.
  - split; discriminate.
Qed.

Lemma py_eq_str_false (v : pyval) (s : string) : py_eq v (PyStr s) = false <-> v <> PyStr s.
Proof.
  rewrite <- py_eq_str. destruct (py_eq v (PyStr s)); split; congruence.
Qed.

Lemma truthy_str (s : string) : truthy (PyStr s) = true <-> s <> "".
Proof.
  simpl. rewrite negb_true_iff. destruct (String.eqb_spec s ""); split; congruence.
Qed.

(** ** Base64 *)

Lemma for_all_bytes_spec (P : byte -> bool) :
  Base64.for_all_bytes P = true -> forall b, P b = true.
Proof.
  unfold Base64.for_all_bytes, Base64.all_bytes. intros H b.
  rewrite forallb_forall in H. apply H. apply in_flat_map.
  exists (N.to_nat (Byte.to_N b)). split.
  - apply in_seq. pose proof (Byte.to_N_bounded b). lia.
  - rewrite N2Nat.id, Byte.of_to_N. left. reflexivity.
Qed.

Lemma every_byte_ok (b : byte) : Base64.byte_ok b = true.
Proof. revert b. apply for_all_bytes_spec. vm_compute. reflexivity. Qed.

Lemma every_pair_ok (a b : byte) : Base64.pair_ok a b = true.
Proof.
  revert b. apply for_all_bytes_spec. revert a. apply for_all_bytes_spec.
  vm_compute. reflexivity.
Qed.

Lemma byte_of_to_N (n : N) (b : byte) : N.land n 255 = Byte.to_N b -> Base64.byte_of n = b.
Proof. intros H. unfold Base64.byte_of. rewrite H, Byte.of_to_N. reflexivity. Qed.

(** What the tests say of a byte [b] ... *)
Lemma byte_facts (b : byte) :
  Base64.letter_ok (Base64.sextet_0 (Byte.to_N b)) = true
  /\ Base64.letter_ok (Base64.sextet_3 (Byte.to_N b)) = true
  /\ Base64.letter_ok (Base64.sextet_1 (Byte.to_N b) 0) = true
  /\ Base64.letter_ok (Base64.sextet_2 (Byte.to_N b) 0) = true
  /\ N.land (N.lor (N.shiftl (Base64.sextet_0 (Byte.to_N b)) 2) (N.land (Byte.to_N b) 3)) 255
     = Byte.to_N b
  /\ N.land (N.lor (N.shiftl (N.shiftr (Byte.to_N b) 4) 4) (N.land (Byte.to_N b) 15)) 255
     = Byte.to_N b
  /\ N.land (N.lor (N.shiftl (N.shiftr (Byte.to_N b) 6) 6) (Base64.sextet_3 (Byte.to_N b))) 255
     = Byte.to_N b.
Proof.
  pose proof (every_byte_ok b) as H. unfold Base64.byte_ok in H. cbv zeta in H.
  rewrite !andb_true_iff, !N.eqb_eq in H. tauto.
Qed.

(** ... and of two neighbouring bytes [a], [b]. *)
Lemma pair_facts (a b : byte) :
  Base64.letter_ok (Base64.sextet_1 (Byte.to_N a) (Byte.to_N b)) = true
  /\ Base64.letter_ok (Base64.sextet_2 (Byte.to_N a) (Byte.to_N b)) = true
  /\ N.shiftr (Base64.sextet_1 (Byte.to_N a) (Byte.to_N b)) 4 = N.land (Byte.to_N a) 3
  /\ N.land (Base64.sextet_1 (Byte.to_N a) (Byte.to_N b)) 15 = N.shiftr (Byte.to_N b) 4
  /\ N.shiftr (Base64.sextet_2 (Byte.to_N a) (Byte.to_N b)) 2 = N.land (Byte.to_N a) 15
  /\ N.land (Base64.sextet_2 (Byte.to_N a) (Byte.to_N b)) 3 = N.shiftr (Byte.to_N b) 6.
Proof.
  pose proof (every_pair_ok a b) as H. unfold Base64.pair_ok in H. cbv zeta in H.
  rewrite !andb_true_iff, !N.eqb_eq in H. tauto.
Qed.

Lemma letter_ok_spec (v : N) :
  Base64.letter_ok v = true ->
  Ascii.eqb (Base64.b2a v) Base64.pad = false
  /\ Base64.a2b (Base64.b2a v) = Some v
  /\ Nat.ltb (nat_of_ascii (Base64.b2a v)) 128 = true
  /\ Ascii.eqb (Base64.urlsafe_char (Base64.b2a v)) Base64.pad = false
  /\ Base64.standard_char (Base64.urlsafe_char (Base64.b2a v)) = Base64.b2a v.
Proof.
  unfold Base64.letter_ok. rewrite !andb_true_iff, !negb_true_iff.
  intros [[[[H1 H2] H3] H4] H5]. apply Ascii.eqb_eq in H5.
  repeat split; try assumption.
  destruct (Base64.a2b (Base64.b2a v)) as [v' |]; [| discriminate].
  apply N.eqb_eq in H2. congruence.
Qed.

Lemma letter_is_ascii (v : N) :
  Base64.letter_ok v = true -> Nat.ltb (nat_of_ascii (Base64.b2a v)) 128 = true.
Proof. intros H. apply letter_ok_spec in H. tauto. Qed.

(** Reading the character of a six-bit value. *)
Lemma a2b_char_letter (st : Base64.a2b_state) (v : N) :
  Base64.letter_ok v = true ->
  Base64.a2b_char st (Base64.b2a v)
  = match Base64.quad_pos st with
    | 0%nat => Base64.Continue {| Base64.quad_pos := 1; Base64.leftchar := v;
                                  Base64.pads := 0; Base64.written := Base64.written st |}
    | 1%nat => Base64.Continue
                 {| Base64.quad_pos := 2; Base64.leftchar := N.land v 15; Base64.pads := 0;
                    Base64.written :=
                      Base64.byte_of (N.lor (N.shiftl (Base64.leftchar st) 2) (N.shiftr v 4))
                      :: Base64.written st |}
    | 2%nat => Base64.Continue
                 {| Base64.quad_pos := 3; Base64.leftchar := N.land v 3; Base64.pads := 0;
                    Base64.written :=
                      Base64.byte_of (N.lor (N.shiftl (Base64.leftchar st) 4) (N.shiftr v 2))
                      :: Base64.written st |}
    | _ => Base64.Continue
             {| Base64.quad_pos := 0; Base64.leftchar := 0; Base64.pads := 0;
                Base64.written :=
                  Base64.byte_of (N.lor (N.shiftl (Base64.leftchar st) 6) v)
                  :: Base64.written st |}
    end.
Proof.
  intros H. apply letter_ok_spec in H. destruct H as (Hpad & Hval & _).
  unfold Base64.a2b_char. rewrite Hpad, Hval. reflexivity.
Qed.

(** One step of the loop on a letter, with the state taken apart. *)
Ltac read_letter H :=
  rewrite (a2b_char_letter _ _ H);
  cbn [Base64.quad_pos Base64.written Base64.leftchar].

(** A full group of four characters gives back its three bytes. *)
Lemma a2b_loop_group (a b c : byte) (w : list byte) (s : string) :
  Base64.a2b_loop {| Base64.quad_pos := 0; Base64.leftchar := 0; Base64.pads := 0;
                     Base64.written := w |}
    (String (Base64.b2a (Base64.sextet_0 (Byte.to_N a)))
       (String (Base64.b2a (Base64.sextet_1 (Byte.to_N a) (Byte.to_N b)))
          (String (Base64.b2a (Base64.sextet_2 (Byte.to_N b) (Byte.to_N c)))
             (String (Base64.b2a (Base64.sextet_3 (Byte.to_N c))) s))))
  = Base64.a2b_loop {| Base64.quad_pos := 0; Base64.leftchar := 0; Base64.pads := 0;
                       Base64.written := c :: b :: a :: w |} s.
Proof.
  destruct (byte_facts a) as (Ha0 & _ & _ & _ & Ha & _).
  destruct (byte_facts b) as (_ & _ & _ & _ & _ & Hb & _).
  destruct (byte_facts c) as (_ & Hc3 & _ & _ & _ & _ & Hc).
  destruct (pair_facts a b) as (Hab1 & _ & Hab_hi & Hab_lo & _).
  destruct (pair_facts b c) as (_ & Hbc2 & _ & _ & Hbc_hi & Hbc_lo).
  cbn [Base64.a2b_loop].
  read_letter Ha0. read_letter Hab1. read_letter Hbc2. read_letter Hc3.
  rewrite Hab_hi, Hab_lo, Hbc_hi, Hbc_lo.
  rewrite (byte_of_to_N _ a Ha), (byte_of_to_N _ b Hb), (byte_of_to_N _ c Hc).
  reflexivity.
Qed.

(** Lists of bytes, three at a time. *)
Lemma bytes_by_three (P : list byte -> Prop) :
  P [] -> (forall a, P [a]) -> (forall a b, P [a; b]) ->
  (forall a b c rest, P rest -> P (a :: b :: c :: rest)) ->
  forall bs, P bs.
Proof.
  intros H0 H1 H2 H3.
  assert (H : forall bs, P bs /\ (forall a, P (a :: bs)) /\ (forall a b, P (a :: b :: bs))).
  { induction bs as [| x bs (IH0 & IH1 & IH2)].
    - repeat split; auto.
    - repeat split; auto. }
  intros bs. apply H.
Qed.

(** The decoder loop over an encoding returns the bytes encoded. *)
Lemma a2b_loop_b64encode (bs : list byte) :
  forall w : list byte,
    Base64.a2b_result
      (Base64.a2b_loop {| Base64.quad_pos := 0; Base64.leftchar := 0; Base64.pads := 0;
                          Base64.written := w |} (Base64.b64encode bs))
    = inr (rev w ++ bs)%list.
Proof.
  induction bs as [| a | a b | a b c rest IH] using bytes_by_three; intros w.
  - simpl. rewrite app_nil_r. reflexivity.
  - destruct (byte_facts a) as (Ha0 & _ & Ha1 & _ & Ha & _).
    destruct (pair_facts a x00) as (_ & _ & Hhi & _).
    change (Byte.to_N x00) with 0%N in Hhi.
    unfold Base64.b64encode.
    cbn [Base64.b64encode_chars string_of_list_ascii Base64.a2b_loop].
    read_letter Ha0. read_letter Ha1.
    rewrite Hhi, (byte_of_to_N _ a Ha). reflexivity.
  - destruct (byte_facts a) as (Ha0 & _ & _ & _ & Ha & _).
    destruct (byte_facts b) as (_ & _ & _ & Hb2 & _ & Hb & _).
    destruct (pair_facts a b) as (Hab1 & _ & Hab_hi & Hab_lo & _).
    destruct (pair_facts b x00) as (_ & _ & _ & _ & Hb_hi & _).
    change (Byte.to_N x00) with 0%N in Hb_hi.
    unfold Base64.b64encode.
    cbn [Base64.b64encode_chars string_of_list_ascii Base64.a2b_loop].
    read_letter Ha0. read_letter Hab1. read_letter Hb2.
    rewrite Hab_hi, Hab_lo, Hb_hi, (byte_of_to_N _ a Ha), (byte_of_to_N _ b Hb).
    simpl. rewrite <- app_assoc. reflexivity.
  - unfold Base64.b64encode. cbn [Base64.b64encode_chars string_of_list_ascii].
    rewrite a2b_loop_group. fold (Base64.b64encode rest). rewrite IH.
    simpl. rewrite <- !app_assoc. reflexivity.
Qed.

Lemma isascii_b64encode (bs : list byte) : Str.isascii (Base64.b64encode bs) = true.
Proof.
  induction bs as [| a | a b | a b c rest IH] using bytes_by_three.
  - reflexivity.
  - destruct (byte_facts a) as (Ha0 & _ & Ha1 & _).
    unfold Base64.b64encode. cbn [Base64.b64encode_chars string_of_list_ascii Str.isascii].
    rewrite (letter_is_ascii _ Ha0), (letter_is_ascii _ Ha1). reflexivity.
  - destruct (byte_facts a) as (Ha0 & _).
    destruct (byte_facts b) as (_ & _ & _ & Hb2 & _).
    destruct (pair_facts a b) as (Hab1 & _).
    unfold Base64.b64encode. cbn [Base64.b64encode_chars string_of_list_ascii Str.isascii].
    rewrite (letter_is_ascii _ Ha0), (letter_is_ascii _ Hab1), (letter_is_ascii _ Hb2).
    reflexivity.
  - destruct (byte_facts a) as (Ha0 & _).
    destruct (byte_facts c) as (_ & Hc3 & _).
    destruct (pair_facts a b) as (Hab1 & _).
    destruct (pair_facts b c) as (_ & Hbc2 & _).
    unfold Base64.b64encode in *.
    cbn [Base64.b64encode_chars string_of_list_ascii Str.isascii].
    rewrite (letter_is_ascii _ Ha0), (letter_is_ascii _ Hab1), (letter_is_ascii _ Hbc2),
      (letter_is_ascii _ Hc3), IH.
    reflexivity.
Qed.

(** Decoding an encoding gives the bytes back. *)
Theorem b64decode_b64encode (bs : list byte) :
  Base64.b64decode (Base64.b64encode bs) = inr bs.
Proof.
  unfold Base64.b64decode. rewrite isascii_b64encode.
  exact (a2b_loop_b64encode bs []).
Qed.

(** ** The token text *)

Lemma letter_translates_back (v : N) :
  Base64.letter_ok v = true ->
  Base64.standard_char (Base64.urlsafe_char (Base64.b2a v)) = Base64.b2a v.
Proof. intros H. apply letter_ok_spec in H. tauto. Qed.

Lemma letter_urlsafe_not_pad (v : N) :
  Base64.letter_ok v = true ->
  Ascii.eqb (Base64.urlsafe_char (Base64.b2a v)) Base64.pad = false.
Proof. intros H. apply letter_ok_spec in H. tauto. Qed.

(** The URL-safe encoding translates back to the standard one. *)
Lemma urlsafe_translates_back (bs : list byte) :
  map Base64.standard_char (map Base64.urlsafe_char (Base64.b64encode_chars bs))
  = Base64.b64encode_chars bs.
Proof.
  induction bs as [| a | a b | a b c rest IH] using bytes_by_three.
  - reflexivity.
  - destruct (byte_facts a) as (Ha0 & _ & Ha1 & _).
    cbn [Base64.b64encode_chars map].
    rewrite (letter_translates_back _ Ha0), (letter_translates_back _ Ha1). reflexivity.
  - destruct (byte_facts a) as (Ha0 & _).
    destruct (byte_facts b) as (_ & _ & _ & Hb2 & _).
    destruct (pair_facts a b) as (Hab1 & _).
    cbn [Base64.b64encode_chars map].
    rewrite (letter_translates_back _ Ha0), (letter_translates_back _ Hab1),
      (letter_translates_back _ Hb2).
    reflexivity.
  - destruct (byte_facts a) as (Ha0 & _).
    destruct (byte_facts c) as (_ & Hc3 & _).
    destruct (pair_facts a b) as (Hab1 & _).
    destruct (pair_facts b c) as (_ & Hbc2 & _).
    cbn [Base64.b64encode_chars map].
    rewrite (letter_translates_back _ Ha0), (letter_translates_back _ Hab1),
      (letter_translates_back _ Hbc2), (letter_translates_back _ Hc3), IH.
    reflexivity.
Qed.

(** The encoding of [3 k + 2] bytes is [4 k + 2] characters, a letter and
    one [=]. *)
Lemma urlsafe_encoding_ends (bs : list byte) :
  forall k : nat,
    length bs = (3 * k + 2)%nat ->
    exists (letters : list ascii) (last : ascii),
      map Base64.urlsafe_char (Base64.b64encode_chars bs)
      = (letters ++ [last; Base64.pad])%list
      /\ Ascii.eqb last Base64.pad = false
      /\ length letters = (4 * k + 2)%nat.
Proof.
  induction bs as [| a | a b | a b c rest IH] using bytes_by_three; intros k Hlen.
  - simpl in Hlen. lia.
  - simpl in Hlen. lia.
  - assert (k = 0%nat) as -> by (simpl in Hlen; lia).
    destruct (byte_facts b) as (_ & _ & _ & Hb2 & _).
    eexists [_; _], _. split; [reflexivity |].
    split; [exact (letter_urlsafe_not_pad _ Hb2) | reflexivity].
  - destruct k as [| k]; [simpl in Hlen; lia |].
    destruct (IH k) as (letters & last & Heq & Hlast & Hn); [simpl in Hlen; lia |].
    cbn [Base64.b64encode_chars map]. rewrite Heq.
    eexists (_ :: _ :: _ :: _ :: letters), last.
    split; [reflexivity |]. split; [exact Hlast | simpl; lia].
Qed.

Lemma rstrip_last_pad (c x : ascii) (letters : list ascii) :
  Ascii.eqb x c = false ->
  Str.rstrip c (string_of_list_ascii (letters ++ [x; c]))
  = string_of_list_ascii (letters ++ [x]).
Proof.
  intros Hx. induction letters as [| t letters IH].
  - simpl. rewrite Ascii.eqb_refl, Hx. reflexivity.
  - cbn [app string_of_list_ascii Str.rstrip]. rewrite IH.
    destruct letters; reflexivity.
Qed.

Lemma string_of_list_ascii_length (l : list ascii) :
  String.length (string_of_list_ascii l) = length l.
Proof. induction l as [| c l IH]; simpl; [reflexivity | rewrite IH; reflexivity]. Qed.

(** The token of [3 k + 2] random bytes is their URL-safe encoding without
    its last character, the [=]. *)
Lemma generate_token_text (e : env) (k : nat) :
  length (entropy e) = (3 * k + 2)%nat ->
  exists letters : list ascii,
    generate_token e = string_of_list_ascii letters
    /\ map Base64.urlsafe_char (Base64.b64encode_chars (entropy e))
       = (letters ++ [Base64.pad])%list
    /\ length letters = (4 * k + 3)%nat.
Proof.
  intros Hlen.
  destruct (urlsafe_encoding_ends (entropy e) k Hlen) as (letters & last & Heq & Hlast & Hn).
  exists (letters ++ [last])%list.
  unfold generate_token, Base64.urlsafe_b64encode. rewrite Heq.
  split; [exact (rstrip_last_pad _ _ _ Hlast) |].
  split; [rewrite <- app_assoc; reflexivity |].
  rewrite length_app. simpl. lia.
Qed.

(** A token of 32 random bytes has 43 characters. *)
Lemma generate_token_length (e : env) :
  length (entropy e) = 32%nat -> String.length (generate_token e) = 43%nat.
Proof.
  intros Hlen. destruct (generate_token_text e 10 Hlen) as (letters & -> & _ & Hn).
  rewrite string_of_list_ascii_length. exact Hn.
Qed.

(** Different draws give different tokens: the token determines the bytes
    it was made from. *)
Lemma generate_token_injective (e1 e2 : env) :
  length (entropy e1) = 32%nat -> length (entropy e2) = 32%nat ->
  generate_token e1 = generate_token e2 -> entropy e1 = entropy e2.
Proof.
  intros H1 H2 Heq.
  destruct (generate_token_text e1 10 H1) as (l1 & Ht1 & Hc1 & _).
  destruct (generate_token_text e2 10 H2) as (l2 & Ht2 & Hc2 & _).
  assert (Hl : l1 = l2).
  { rewrite <- (list_ascii_of_string_of_list_ascii l1),
            <- (list_ascii_of_string_of_list_ascii l2).
    congruence. }
  assert (Hchars : Base64.b64encode_chars (entropy e1) = Base64.b64encode_chars (entropy e2)).
  { rewrite <- (urlsafe_translates_back (entropy e1)),
            <- (urlsafe_translates_back (entropy e2)).
    congruence. }
  assert (Hdec : (inr (entropy e1) : Base64.decode_error + list byte) = inr (entropy e2)).
  { rewrite <- (b64decode_b64encode (entropy e1)), <- (b64decode_b64encode (entropy e2)).
    unfold Base64.b64encode. rewrite Hchars. reflexivity. }
  congruence.
Qed.

(** ** The session token *)

Lemma get_setting_str (d : Database.db) (t : string) :
  Database.get_setting d "access_token" = PyStr t <-> stored_token d = Some t.
Proof.
  unfold Database.get_setting, stored_token.
  destruct (Database.settings d !! "access_token") as [[v ts]|]; simpl.
  - destruct v; simpl; split; congruence.
  - split; discriminate.
Qed.

Lemma truthy_and (a b : pyval) : truthy (py_and a b) = (truthy a && truthy b)%bool.
Proof. unfold py_and. destruct (truthy a) eqn:H; [reflexivity | exact H]. Qed.

(** What makes [verify_token] return a true value for a [str]. *)
Lemma verify_token_truthy (d : Database.db) (t : string) :
  truthy (verify_token d (PyStr t)) = true <-> t <> "" /\ stored_token d = Some t.
Proof.
  rewrite <- get_setting_str. unfold verify_token. rewrite truthy_and.
  rewrite andb_true_iff. cbn [truthy]. rewrite py_eq_str. split.
  - intros [Ht Hg]. rewrite Hg in Ht. apply truthy_str in Ht. split; assumption.
  - intros [Ht Hg]. rewrite Hg. split; [apply truthy_str; assumption | reflexivity].
Qed.

(** The value [verify_token] returns is the object [True] in the same cases. *)
Lemma verify_token_True (d : Database.db) (t : string) :
  verify_token d (PyStr t) = PyBool true <-> t <> "" /\ stored_token d = Some t.
Proof.
  rewrite <- verify_token_truthy. split.
  - intros ->. reflexivity.
  - unfold verify_token, py_and.
    destruct (truthy (Database.get_setting d "access_token")) eqn:Hs.
    + simpl. intros ->. reflexivity.
    + intros H. congruence.
Qed.

(** C2. For every token [t] and every state of the store, [verify_token]
    is true exactly when [t] is not empty and is the text stored under
    [access_token]: the value returned is then [True], and a false value
    otherwise; the empty token never verifies; [verify_token] is a total
    function, so it returns in every state; and two tokens that both verify
    in one state are the same token. *)
Theorem verify_token_iff_stored (d : Database.db) (t : string) :
  (truthy (verify_token d (PyStr t)) = true <-> t <> "" /\ stored_token d = Some t)
  /\ (verify_token d (PyStr t) = PyBool true <-> t <> "" /\ stored_token d = Some t)
  /\ truthy (verify_token d (PyStr "")) = false
  /\ (exists v, verify_token d (PyStr t) = v)
  /\ (forall t', truthy (verify_token d (PyStr t)) = true ->
                 truthy (verify_token d (PyStr t')) = true -> t = t').
Proof.
  split; [apply verify_token_truthy |].
  split; [apply verify_token_True |].
  split.
  { destruct (truthy (verify_token d (PyStr ""))) eqn:H; [| reflexivity].
    apply verify_token_truthy in H. destruct H as [H _]. congruence. }
  split; [eexists; reflexivity |].
  intros t' H1 H2.
  apply verify_token_truthy in H1, H2. destruct H1 as [_ H1], H2 as [_ H2]. congruence.
Qed.

(** A token of 32 random bytes is not the empty string. *)
Lemma generate_token_nonempty (e : env) :
  length (entropy e) = 32%nat -> generate_token e <> "".
Proof.
  intros Hlen Hempty. pose proof (generate_token_length e Hlen) as H.
  rewrite Hempty in H. discriminate H.
Qed.

Lemma stored_token_insert (d : Database.db) (t ts : string) (g : list Database.group_row)
    (gs : Z) (sv : list Database.service_row) (ss : Z) :
  stored_token
    {| Database.settings :=
         <["access_token" := {| Database.value := Database.SText t; Database.updated_at := ts |}]>
           (Database.settings d);
       Database.groups := g; Database.groups_seq := gs;
       Database.services := sv; Database.services_seq := ss |} = Some t.
Proof. unfold stored_token. simpl. rewrite lookup_insert_eq. reflexivity. Qed.

(** The world after [authenticate] has stored [token] at time [ts]. *)
Lemma authenticate_accepts (AUTH_KEY : string) (real_text : Z -> Z -> string)
    (w : world) (h : option string) (items : list (string * pyval)) (e : env) :
  submitted_secret items = PyStr AUTH_KEY ->
  flask (authenticate AUTH_KEY real_text {| authorization := h; json := inr (PyDict items) |} e) w
  = (jsonify (PyDict [("success", PyBool true); ("token", PyStr (generate_token e))]),
     {| store :=
          {| Database.settings :=
               <["access_token" := {| Database.value := Database.SText (generate_token e);
                                      Database.updated_at := now e |}]>
                 (Database.settings (store w));
             Database.groups := Database.groups (store w);
             Database.groups_seq := Database.groups_seq (store w);
             Database.services := Database.services (store w);
             Database.services_seq := Database.services_seq (store w) |};
        attempted := attempted w |}).
Proof.
  unfold submitted_secret. intros Hkey.
  unfold flask, authenticate, mbind, lift, py_get, ret. simpl.
  rewrite Hkey. simpl. rewrite String.eqb_refl. reflexivity.
Qed.

Lemma authenticate_rejects (AUTH_KEY : string) (real_text : Z -> Z -> string)
    (w : world) (h : option string) (items : list (string * pyval)) (e : env) :
  submitted_secret items <> PyStr AUTH_KEY ->
  flask (authenticate AUTH_KEY real_text {| authorization := h; json := inr (PyDict items) |} e) w
  = (jsonify_status (PyDict [("success", PyBool false); ("message", PyStr "认证失败")]) 401, w).
Proof.
  unfold submitted_secret. intros Hkey. apply py_eq_str_false in Hkey.
  unfold flask, authenticate, mbind, lift, py_get, ret. simpl.
  rewrite Hkey. reflexivity.
Qed.

(** C1. From every state of the store, a request that submits the
    configured secret makes [authenticate] generate a token from the 32
    random bytes (43 characters), store it under [access_token] and return
    it with 200; that token then verifies true.  A later successful
    authentication with another draw of random bytes generates a different
    token; after it the new token verifies true and the earlier one
    verifies false.  A request that submits anything else is answered 401
    and the world, so the stored token, is unchanged. *)
Theorem authenticate_token_lifecycle (AUTH_KEY : string) (real_text : Z -> Z -> string)
    (w : world) (h : option string) (items : list (string * pyval)) (e : env) :
  length (entropy e) = 32%nat ->
  let req := {| authorization := h; json := inr (PyDict items) |} in
  let token := generate_token e in
  (submitted_secret items = PyStr AUTH_KEY ->
   exists w',
     flask (authenticate AUTH_KEY real_text req e) w
     = (jsonify (PyDict [("success", PyBool true); ("token", PyStr token)]), w')
     /\ String.length token = 43%nat
     /\ Database.settings (store w')
        = <["access_token" := {| Database.value := Database.SText token;
                                 Database.updated_at := now e |}]>
            (Database.settings (store w))
     /\ stored_token (store w') = Some token
     /\ truthy (verify_token (store w') (PyStr token)) = true
     /\ forall (w1 : world) (h2 : option string) (items2 : list (string * pyval)) (e2 : env),
          length (entropy e2) = 32%nat ->
          submitted_secret items2 = PyStr AUTH_KEY ->
          entropy e2 <> entropy e ->
          let req2 := {| authorization := h2; json := inr (PyDict items2) |} in
          let w2 := snd (flask (authenticate AUTH_KEY real_text req2 e2) w1) in
          generate_token e2 <> token
          /\ stored_token (store w2) = Some (generate_token e2)
          /\ truthy (verify_token (store w2) (PyStr (generate_token e2))) = true
          /\ truthy (verify_token (store w2) (PyStr token)) = false)
  /\ (submitted_secret items <> PyStr AUTH_KEY ->
      flask (authenticate AUTH_KEY real_text req e) w
      = (jsonify_status (PyDict [("success", PyBool false); ("message", PyStr "认证失败")]) 401,
         w)).
Proof.
  intros Hlen req token.
  split.
  - intros Hkey. eexists. split; [apply authenticate_accepts; assumption |].
    cbn [store Database.settings].
    split; [apply generate_token_length, Hlen |].
    split; [reflexivity |].
    split; [apply stored_token_insert |].
    split.
    { apply verify_token_truthy.
      split; [apply generate_token_nonempty, Hlen | apply stored_token_insert]. }
    intros w1 h2 items2 e2 Hlen2 Hkey2 Hdraw.
    assert (Hdiff : generate_token e2 <> token).
    { intros Heq. apply Hdraw. apply generate_token_injective; assumption. }
    rewrite (authenticate_accepts AUTH_KEY real_text w1 h2 items2 e2 Hkey2).
    cbn [snd store].
    split; [exact Hdiff |].
    split; [apply stored_token_insert |].
    split.
    { apply verify_token_truthy.
      split; [apply generate_token_nonempty, Hlen2 | apply stored_token_insert]. }
    destruct (truthy (verify_token _ (PyStr token))) eqn:Hv; [| reflexivity].
    apply verify_token_truthy in Hv. destruct Hv as [_ Hv].
    rewrite stored_token_insert in Hv. congruence.
  - intros Hkey. apply authenticate_rejects. assumption.
Qed.

(** ** The bearer token *)

Lemma string_length_app (s t : string) :
  String.length (s +:+ t) = (String.length s + String.length t)%nat.
Proof. induction s as [| c s IH]; simpl; [reflexivity | rewrite IH; reflexivity]. Qed.

Lemma string_app_assoc (a b c : string) : (a +:+ b) +:+ c = a +:+ (b +:+ c).
Proof.
  induction a as [| x a IH]; [reflexivity |].
  change (String x (a +:+ b) +:+ c = String x (a +:+ b +:+ c)).
  change (String x ((a +:+ b) +:+ c) = String x (a +:+ b +:+ c)).
  rewrite IH. reflexivity.
Qed.

Lemma startswith_app (old s t : string) :
  Str.startswith old s = true -> Str.startswith old (s +:+ t) = true.
Proof.
  revert s. induction old as [| a old IH]; intros s H; [reflexivity |].
  destruct s as [| b s]; simpl in *; [discriminate |].
  destruct (Ascii.eqb a b); [apply IH; assumption | discriminate].
Qed.

Local Arguments Ascii.eqb : simpl never.

(** [Bearer ] has no border: a match of it cannot begin inside or just
    before another occurrence of it and overlap it. *)
Lemma bearer_match_before (a b : string) :
  a <> "" ->
  Str.startswith "Bearer " (a +:+ "Bearer " +:+ b) = true ->
  Str.startswith "Bearer " a = true /\ (7 <= String.length a)%nat.
Proof.
  intros Hne H.
  destruct a as [| c1 [| c2 [| c3 [| c4 [| c5 [| c6 [| c7 a]]]]]]];
    [contradiction | | | | | | |];
    simpl in H |- *;
    repeat match type of H with
           | context [Ascii.eqb ?x ?y] =>
               let E := fresh "E" in
               destruct (Ascii.eqb x y) eqn:E;
               [ try (vm_compute in E; discriminate E) | try discriminate H ]
           end;
    try discriminate H.
  split; [reflexivity | simpl; lia].
Qed.

Lemma replace_from_0 (old new : string) (c : ascii) (s : string) :
  Str.replace_from old new (String c s) 0
  = if Str.startswith old (String c s)
    then new +:+ Str.replace_from old new s (String.length old - 1)
    else String c (Str.replace_from old new s 0).
Proof. reflexivity. Qed.

Lemma replace_from_S (old new : string) (c : ascii) (s : string) (k : nat) :
  Str.replace_from old new (String c s) (S k) = Str.replace_from old new s k.
Proof. reflexivity. Qed.

Lemma replace_bearer_app (b a : string) (k : nat) :
  (k <= String.length a)%nat ->
  Str.replace_from "Bearer " "" (a +:+ "Bearer " +:+ b) k
  = Str.replace_from "Bearer " "" a k +:+ Str.replace_from "Bearer " "" b 0.
Proof.
  revert k. induction a as [| c a IH]; intros k Hk.
  - simpl in Hk. assert (k = 0%nat) as -> by lia. reflexivity.
  - change (String c a +:+ "Bearer " +:+ b) with (String c (a +:+ "Bearer " +:+ b)).
    destruct k as [| k].
    + rewrite !replace_from_0.
      change (String c (a +:+ "Bearer " +:+ b)) with (String c a +:+ "Bearer " +:+ b).
      destruct (Str.startswith "Bearer " (String c a +:+ "Bearer " +:+ b)) eqn:Hm.
      * apply bearer_match_before in Hm; [| discriminate].
        destruct Hm as [Hm Hlen]. rewrite Hm. simpl in Hlen.
        change ("" +:+ ?x) with x. apply IH. simpl. lia.
      * destruct (Str.startswith "Bearer " (String c a)) eqn:Hm'.
        { apply (startswith_app _ _ ("Bearer " +:+ b)) in Hm'. congruence. }
        change (String c ?x +:+ ?y) with (String c (x +:+ y)). f_equal. apply IH. lia.
    + rewrite !replace_from_S. apply IH. simpl in Hk. lia.
Qed.

Lemma replace_without (old new s : string) :
  Str.contains old s = false -> Str.replace_from old new s 0 = s.
Proof.
  induction s as [| c s IH]; intros H; [reflexivity |].
  cbn [Str.contains] in H. rewrite replace_from_0.
  destruct (Str.startswith old (String c s)); [discriminate |].
  f_equal. apply IH. assumption.
Qed.

Lemma replace_length_le (old s : string) (k : nat) :
  (String.length (Str.replace_from old "" s k) <= String.length s)%nat.
Proof.
  revert k. induction s as [| c s IH]; intros k; [simpl; lia |].
  destruct k as [| k].
  - rewrite replace_from_0. destruct (Str.startswith old (String c s)).
    + specialize (IH (String.length old - 1)%nat).
      change ("" +:+ ?x) with x. cbn [String.length]. lia.
    + specialize (IH 0%nat). cbn [String.length]. lia.
  - rewrite replace_from_S. specialize (IH k). cbn [String.length]. lia.
Qed.

(** Deleting an occurrence that is there makes the text shorter. *)
Lemma replace_shorter (c0 : ascii) (old s : string) :
  Str.contains (String c0 old) s = true ->
  (String.length (Str.replace_from (String c0 old) "" s 0) < String.length s)%nat.
Proof.
  induction s as [| c s IH]; intros H; [discriminate |].
  cbn [Str.contains] in H. rewrite replace_from_0.
  destruct (Str.startswith (String c0 old) (String c s)).
  - pose proof (replace_length_le (String c0 old) s (String.length (String c0 old) - 1)).
    change ("" +:+ ?x) with x. cbn [String.length] in *. lia.
  - specialize (IH H). cbn [String.length]. lia.
Qed.

(** ** The access guard *)

Section Guard.

Variable real_text : Z -> Z -> string.
Variable numeric_of_text : string -> option Database.sqlval.
Variable str_of_exn : exn -> string.
Variable py_repr : pyval -> string.
Variable urlparse : pyval -> result ParseResult.
Variable image : Type.
Variable Image_open : list byte -> result image.
Variable image_size : image -> Z * Z.
Variable image_resize : image -> Z * Z -> result image.
Variable image_save_png : image -> result (list byte).

(** The protected view functions over these surroundings. *)
Local Abbreviation view_of :=
  (view real_text numeric_of_text str_of_exn py_repr urlparse
        image Image_open image_size image_resize image_save_png).

(** A handler that starts with the guard stops there when it fails. *)
Lemma guard_stops (token : string) (rest : M response) (w : world) :
  truthy (verify_token (store w) (PyStr token)) = false ->
  (let* ok := query (fun d => verify_token d (PyStr token)) in
   if negb (truthy ok) then mret unauthorized else rest) w = (inr unauthorized, w).
Proof. intros H. unfold mbind, query, mret. rewrite H. reflexivity. Qed.

(** C3. For every protected route, every request whose bearer token fails
    verification and every state, the view function answers 401
    [{"error": "Unauthorized"}] and the world is the one it started from:
    the settings, groups and services are unchanged and no GET was sent. *)
Theorem unauthorized_changes_nothing (route : protected_route) (req : request) (e : env)
    (w : world) :
  truthy (verify_token (store w) (PyStr (bearer_token req))) = false ->
  flask (view_of route req e) w
  = ({| status := 401; body_of := Json (PyDict [("error", PyStr "Unauthorized")]) |}, w).
Proof.
  intros H. unfold flask.
  destruct route; cbn [view];
    [ unfold get_system_info | unfold get_groups | unfold create_group
    | unfold update_group | unfold delete_group | unfold create_service
    | unfold update_service | unfold delete_service | unfold fetch_icon
    | unfold upload_icon | unfold get_settings | unfold save_settings ];
    rewrite (guard_stops _ _ _ H); reflexivity.
Qed.

Lemma bearer_token_header (h : string) (j : result pyval) :
  bearer_token {| authorization := Some h; json := j |}
  = Str.replace_from "Bearer " "" h 0.
Proof. reflexivity. Qed.

(** C10. The guard reads the token by deleting every occurrence of
    [Bearer ] from the [Authorization] header, wherever it stands: the token
    of a header [a ++ "Bearer " ++ b] is the token of [a] followed by the
    token of [b], and a header without [Bearer ] is its own token.  So an
    absent header gives the empty token; a header that is just the stored
    token, without prefix, verifies true; and a stored token that itself
    contains [Bearer ] cannot be presented: sent after the prefix, or
    alone, it comes out shorter and fails verification.  Every protected
    view function reads the header through this token only. *)
Theorem bearer_token_deletes_every_occurrence (j : result pyval) :
  (forall (route : protected_route) (h1 h2 : option string) (e : env) (w : world),
     bearer_token {| authorization := h1; json := j |}
     = bearer_token {| authorization := h2; json := j |} ->
     view_of route {| authorization := h1; json := j |} e w
     = view_of route {| authorization := h2; json := j |} e w)
  /\ bearer_token {| authorization := None; json := j |} = ""
  /\ (forall a b : string,
        bearer_token {| authorization := Some (a +:+ "Bearer " +:+ b); json := j |}
        = bearer_token {| authorization := Some a; json := j |}
          +:+ bearer_token {| authorization := Some b; json := j |})
  /\ (forall h : string,
        Str.contains "Bearer " h = false ->
        bearer_token {| authorization := Some h; json := j |} = h)
  /\ (forall (d : Database.db) (t : string),
        t <> "" -> stored_token d = Some t -> Str.contains "Bearer " t = false ->
        truthy (verify_token d
                  (PyStr (bearer_token {| authorization := Some t; json := j |}))) = true)
  /\ (forall (d : Database.db) (t : string),
        stored_token d = Some t -> Str.contains "Bearer " t = true ->
        bearer_token {| authorization := Some ("Bearer " +:+ t); json := j |} <> t
        /\ truthy (verify_token d
                     (PyStr (bearer_token {| authorization := Some ("Bearer " +:+ t);
                                             json := j |}))) = false
        /\ truthy (verify_token d
                     (PyStr (bearer_token {| authorization := Some t; json := j |}))) = false).
Proof.
  split.
  { intros route h1 h2 e w H.
    destruct route; cbn [view];
      [ unfold get_system_info | unfold get_groups | unfold create_group
      | unfold update_group | unfold delete_group | unfold create_service
      | unfold update_service | unfold delete_service | unfold fetch_icon
      | unfold upload_icon, normalize_icon | unfold get_settings | unfold save_settings ];
      rewrite H; reflexivity. }
  split; [reflexivity |].
  split.
  { intros a b. rewrite !bearer_token_header. apply replace_bearer_app. lia. }
  split.
  { intros h H. rewrite bearer_token_header. apply replace_without. assumption. }
  split.
  { intros d t Hne Hst Hc. rewrite bearer_token_header, replace_without by assumption.
    apply verify_token_truthy. split; assumption. }
  intros d t Hst Hc.
  assert (Hshort : (String.length (Str.replace_from "Bearer " "" t 0) < String.length t)%nat)
    by (apply replace_shorter; assumption).
  assert (Hprefix : bearer_token {| authorization := Some ("Bearer " +:+ t); json := j |}
                    = Str.replace_from "Bearer " "" t 0).
  { rewrite bearer_token_header.
    exact (replace_bearer_app t "" 0 (Nat.le_refl 0)). }
  assert (Hdiff : Str.replace_from "Bearer " "" t 0 <> t).
  { intros Heq. rewrite Heq in Hshort. lia. }
  assert (Hfail : truthy (verify_token d (PyStr (Str.replace_from "Bearer " "" t 0))) = false).
  { destruct (truthy (verify_token d (PyStr (Str.replace_from "Bearer " "" t 0)))) eqn:Hv;
      [| reflexivity].
    apply verify_token_truthy in Hv. destruct Hv as [_ Hv]. congruence. }
  rewrite Hprefix, bearer_token_header.
  split; [assumption |]. split; assumption.
Qed.

End Guard.

(** ** The favicon probe *)

(** One candidate: its GET is sent, and it is accepted exactly when the
    answer has status 200. *)
Lemma try_candidate_eq (e : env) (u : string) (w : world) :
  try_candidate e u w
  = (inr (match http_get e (attempted w) u with
          | inr r => if is_200 (status_code r) then Some (data_uri_response r) else None
          | inl _ => None
          end),
     {| store := store w; attempted := attempted w ++ [u] |}).
Proof.
  unfold try_candidate, try_except, mbind, requests_get, mret, is_200.
  destruct (http_get e (attempted w) u) as [ex | r]; [reflexivity |].
  destruct (status_code r =? 200)%Z; reflexivity.
Qed.

Lemma probe_cons (e : env) (u : string) (rest : list string) (w : world) :
  probe e (u :: rest) w
  = match http_get e (attempted w) u with
    | inr r =>
        if is_200 (status_code r)
        then (inr (data_uri_response r),
              {| store := store w; attempted := attempted w ++ [u] |})
        else probe e rest {| store := store w; attempted := attempted w ++ [u] |}
    | inl _ => probe e rest {| store := store w; attempted := attempted w ++ [u] |}
    end.
Proof.
  cbn [probe]. unfold mbind at 1. rewrite try_candidate_eq.
  destruct (http_get e (attempted w) u) as [ex | r]; [reflexivity |].
  destruct (is_200 (status_code r)); reflexivity.
Qed.

(** The probe never raises, answers 200 or 404, leaves the database alone
    and sends its GETs in the order of the list, without gaps. *)
Lemma probe_returns (e : env) (urls : list string) (w : world) :
  exists (r : response) (k : nat),
    probe e urls w
    = (inr r, {| store := store w; attempted := attempted w ++ take k urls |})
    /\ (status r = 200 \/ status r = 404)
    /\ (k <= length urls)%nat /\ (urls <> [] -> (1 <= k)%nat).
Proof.
  revert w. induction urls as [| u rest IH]; intros w.
  - exists icon_not_found, 0%nat. cbn [probe take]. unfold mret. rewrite app_nil_r.
    destruct w; simpl. repeat split; auto. intros H. contradiction.
  - rewrite probe_cons.
    destruct (IH {| store := store w; attempted := attempted w ++ [u] |})
      as (r' & k & Hp & Hs & Hk & _).
    assert (Hlater : exists (r : response) (k : nat),
               probe e rest {| store := store w; attempted := attempted w ++ [u] |}
               = (inr r, {| store := store w; attempted := attempted w ++ take k (u :: rest) |})
               /\ (status r = 200 \/ status r = 404)
               /\ (k <= length (u :: rest))%nat /\ (u :: rest <> [] -> (1 <= k)%nat)).
    { exists r', (S k). rewrite Hp. cbn [store attempted take]. rewrite <- app_assoc.
      simpl. repeat split; auto; lia. }
    destruct (http_get e (attempted w) u) as [ex | r]; [exact Hlater |].
    destruct (is_200 (status_code r)); [| exact Hlater].
    exists (data_uri_response r), 1%nat. cbn [take]. simpl.
    repeat split; auto; lia.
Qed.


(** Accepting exactly the status 200, the first accepted candidate wins. *)
Lemma first_200_wins : first_accepted_wins is_200.
Proof.
  intros e w urls n. revert w urls.
  induction n as [| n IH]; intros w urls u r Hu Hbefore Hget Hok.
  - destruct urls as [| u0 rest]; [discriminate |]. injection Hu as ->.
    cbn [take] in Hget. rewrite app_nil_r in Hget.
    rewrite probe_cons, Hget, Hok. reflexivity.
  - destruct urls as [| u0 rest]; [discriminate |].
    rewrite probe_cons.
    assert (Hrest : probe e rest {| store := store w; attempted := attempted w ++ [u0] |}
                    = (inr (data_uri_response r),
                       {| store := store w;
                          attempted := attempted w ++ take (S (S n)) (u0 :: rest) |})).
    { rewrite (IH _ rest u r).
      - cbn [store attempted take]. rewrite <- app_assoc. reflexivity.
      - exact Hu.
      - intros i ui Hi Hui. cbn [attempted]. rewrite <- app_assoc.
        apply (Hbefore (S i) ui); [lia | exact Hui].
      - cbn [attempted]. rewrite <- app_assoc. exact Hget.
      - exact Hok. }
    pose proof (Hbefore 0%nat u0 (Nat.lt_0_succ n) eq_refl) as H0.
    cbn [take] in H0. rewrite app_nil_r in H0.
    destruct (http_get e (attempted w) u0) as [ex | r0]; [exact Hrest |].
    simpl in H0. rewrite H0. exact Hrest.
Qed.

(** C4 (as amended). For every candidate sequence the probe accepts the
    first candidate whose GET is answered with status 200 (a candidate
    answered with another status, 2xx or not, is passed over like one whose
    GET raises); it returns [data:<content-type>;base64,<base64(body)>] built
    from the body and the declared content type of that response,
    [image/x-icon] when the response has no content-type header; and it
    sends no GET for the candidates after it. *)
Theorem accepts_first_status_200 :
  first_accepted_wins is_200
  /\ (forall (r : http_response) (declared : string),
        headers_find (headers r) "content-type" = Some declared ->
        body_of (data_uri_response r)
        = Json (PyDict [("success", PyBool true);
                        ("icon", PyStr ("data:" +:+ declared +:+ ";base64,"
                                        +:+ Base64.b64encode (content r)))]))
  /\ (forall r : http_response,
        headers_find (headers r) "content-type" = None ->
        body_of (data_uri_response r)
        = Json (PyDict [("success", PyBool true);
                        ("icon", PyStr ("data:" +:+ "image/x-icon" +:+ ";base64,"
                                        +:+ Base64.b64encode (content r)))])).
Proof.
  split; [exact first_200_wins |].
  split.
  - intros r declared H. unfold data_uri_response. rewrite H. reflexivity.
  - intros r H. unfold data_uri_response. rewrite H. reflexivity.
Qed.

Section Favicon.

Variable str_of_exn : exn -> string.
Variable py_repr : pyval -> string.
Variable urlparse : pyval -> result ParseResult.

Local Abbreviation fetch_icon_of := (fetch_icon str_of_exn py_repr urlparse).

Lemma guard_passes (token : string) (rest : M response) (w : world) :
  truthy (verify_token (store w) (PyStr token)) = true ->
  (let* ok := query (fun d => verify_token d (PyStr token)) in
   if negb (truthy ok) then mret unauthorized else rest) w = rest w.
Proof. intros H. unfold mbind, query, mret. rewrite H. reflexivity. Qed.

(** [fetch_icon] behind the guard, for a body whose [url] has been read. *)
Lemma fetch_icon_authorized (req : request) (e : env) (w : world) (data url : pyval) :
  truthy (verify_token (store w) (PyStr (bearer_token req))) = true ->
  json req = inr data ->
  py_get data "url" (PyStr "") = inr url ->
  fetch_icon_of req e w
  = match urlparse url with
    | inr parsed => probe e (favicon_urls py_repr parsed url) w
    | inl ex => (inr (failure str_of_exn ex), w)
    end.
Proof.
  intros Hok Hjson Hurl. unfold fetch_icon. rewrite (guard_passes _ _ _ Hok).
  unfold mbind at 1. unfold lift at 1. rewrite Hjson.
  unfold mbind at 1. unfold lift at 1. rewrite Hurl.
  unfold try_except, mbind, lift, mret.
  destruct (urlparse url) as [ex | parsed]; [reflexivity |].
  destruct (probe_returns e (favicon_urls py_repr parsed url) w) as (r & k & Hp & _).
  rewrite Hp. reflexivity.
Qed.


(** C6. For a URL that [urlparse] splits into a scheme and a host, the
    candidates are these six, in this order; the sixth is the URL as given
    followed by [/favicon.ico], so a URL that ends in a slash gives a double
    slash.  The GETs [fetch_icon] sends are the first [k] of them in this
    order, for some [k] from 1 to 6. *)
Theorem six_candidates_in_order (parsed : ParseResult) (url : string) :
  let base_url := scheme parsed +:+ "://" +:+ netloc parsed in
  let urls := favicon_urls py_repr parsed (PyStr url) in
  urls = [ base_url +:+ "/favicon.ico";
           base_url +:+ "/favicon.png";
           base_url +:+ "/apple-touch-icon.png";
           base_url +:+ "/apple-touch-icon-precomposed.png";
           base_url +:+ "/static/favicon.ico";
           url +:+ "/favicon.ico" ]
  /\ length urls = 6%nat
  /\ (forall u : string, url = u +:+ "/" -> urls !! 5%nat = Some (u +:+ "//favicon.ico"))
  /\ (forall (req : request) (e : env) (w : world) (data : pyval),
        truthy (verify_token (store w) (PyStr (bearer_token req))) = true ->
        json req = inr data ->
        py_get data "url" (PyStr "") = inr (PyStr url) ->
        urlparse (PyStr url) = inr parsed ->
        exists (r : response) (k : nat),
          (1 <= k <= 6)%nat
          /\ flask (fetch_icon_of req e) w
             = (r, {| store := store w; attempted := attempted w ++ take k urls |})).
Proof.
  intros base_url urls.
  split; [reflexivity |]. split; [reflexivity |]. split.
  - intros u ->. subst urls. cbn [favicon_urls py_str lookup list_lookup].
    f_equal. apply string_app_assoc.
  - intros req e w data Hok Hjson Hurl Hparsed. unfold flask.
    rewrite (fetch_icon_authorized req e w data (PyStr url) Hok Hjson Hurl), Hparsed.
    subst urls.
    destruct (probe_returns e (favicon_urls py_repr parsed (PyStr url)) w)
      as (r & k & Hp & _ & Hk & Hk1).
    exists r, k. rewrite Hp. split; [| reflexivity].
    split; [apply Hk1; discriminate | exact Hk].
Qed.

End Favicon.

(** ** The uploaded image text *)

Lemma contains_comma (s : string) : Str.contains "," s = Str.contains_char "," s.
Proof.
  induction s as [| c s IH]; [reflexivity |].
  cbn [Str.contains Str.contains_char Str.startswith]. rewrite IH.
  rewrite (Ascii.eqb_sym "," c). destruct (Ascii.eqb c ","); reflexivity.
Qed.

Lemma split_head (s : string) :
  exists rest, Str.split "," s = before_comma s :: rest.
Proof.
  induction s as [| c s [rest IH]]; [exists []; reflexivity |].
  cbn [Str.split before_comma]. destruct (Ascii.eqb c ",").
  - eexists. reflexivity.
  - rewrite IH. eexists. reflexivity.
Qed.

Lemma split_tail (s : string) :
  Str.contains_char "," s = true ->
  Str.split "," s = before_comma s :: Str.split "," (after_first_comma s).
Proof.
  induction s as [| c s IH]; [discriminate |].
  cbn [Str.contains_char Str.split before_comma after_first_comma].
  destruct (Ascii.eqb c ","); [reflexivity |].
  intros H. rewrite (IH H). reflexivity.
Qed.

(** What [upload_icon] decodes: with a comma, the text between the first
    comma and the next one. *)
Lemma payload_eq (s : string) :
  payload (PyStr s)
  = inr (PyStr (if Str.contains "," s then before_comma (after_first_comma s) else s)).
Proof.
  unfold payload, py_in, bind, ret. destruct (Str.contains "," s) eqn:Hc; [| reflexivity].
  rewrite contains_comma in Hc. unfold split_comma_1. rewrite (split_tail s Hc).
  destruct (split_head (after_first_comma s)) as [rest ->]. reflexivity.
Qed.

Lemma before_comma_without (s : string) :
  Str.contains_char "," s = false -> before_comma s = s.
Proof.
  induction s as [| c s IH]; [reflexivity |].
  cbn [Str.contains_char before_comma]. destruct (Ascii.eqb c ","); [discriminate |].
  intros H. rewrite (IH H). reflexivity.
Qed.

(** ** Binary64 rounding *)

Section Binary64.

Local Open Scope Q_scope.

Local Abbreviation u := Float.u.

Lemma pow2_pos (e : Z) : 0 < 2 ^ e.
Proof. apply Qpower_0_lt. reflexivity. Qed.

Lemma pow2_Z (n : Z) : (0 <= n)%Z -> inject_Z (2 ^ n) == 2 ^ n.
Proof. intros H. rewrite (Zpower_Qpower 2 n H). reflexivity. Qed.

Lemma pow2_succ (e : Z) : 2 ^ (e + 1) == 2 * 2 ^ e.
Proof. rewrite Qpower_plus by discriminate. rewrite Qpower_1_r. ring. Qed.

Lemma pow2_minus (a b : Z) : 2 ^ (a - b) * 2 ^ b == 2 ^ a.
Proof.
  rewrite Qpower_minus by discriminate. field.
  pose proof (pow2_pos b). intros H0. lra.
Qed.

Lemma Q_as_quotient (q : Q) : q == inject_Z (Qnum q) / inject_Z (Zpos (Qden q)).
Proof. destruct q as [n d]. cbn [Qnum Qden]. apply Qmake_Qdiv. Qed.

Lemma ilog2_spec (q : Q) :
  0 < q -> 2 ^ Float.ilog2 q <= q /\ q < 2 ^ (Float.ilog2 q + 1).
Proof.
  intros Hq.
  set (n := Qnum q). set (d := Zpos (Qden q)).
  assert (Hn : (0 < n)%Z).
  { destruct q as [qn qd]. unfold Qlt in Hq. cbn in Hq. subst n. cbn. lia. }
  assert (Hd : (0 < d)%Z) by (subst d; lia).
  pose proof (Z.log2_spec n Hn) as [Hn1 Hn2].
  pose proof (Z.log2_spec d Hd) as [Hd1 Hd2].
  pose proof (Z.log2_nonneg n) as Ha. pose proof (Z.log2_nonneg d) as Hb.
  set (a := Z.log2 n) in *. set (b := Z.log2 d) in *.
  assert (Hnq : 2 ^ a <= inject_Z n /\ inject_Z n < 2 * 2 ^ a).
  { rewrite <- pow2_succ, <- !pow2_Z by lia. rewrite <- Zle_Qle, <- Zlt_Qlt.
    replace (a + 1)%Z with (Z.succ a) by lia. split; assumption. }
  assert (Hdq : 2 ^ b <= inject_Z d /\ inject_Z d < 2 * 2 ^ b).
  { rewrite <- pow2_succ, <- !pow2_Z by lia. rewrite <- Zle_Qle, <- Zlt_Qlt.
    replace (b + 1)%Z with (Z.succ b) by lia. split; assumption. }
  assert (Hq' : q * inject_Z d == inject_Z n).
  { rewrite (Q_as_quotient q) at 1. fold n d. field.
    intros H0. assert (0 < inject_Z d) by (rewrite <- (Zlt_Qlt 0); exact Hd). lra. }
  pose proof (pow2_pos a) as Hpa. pose proof (pow2_pos b) as Hpb.
  pose proof (pow2_minus a b) as Hk.
  pose proof (pow2_pos (a - b)) as Hpk.
  assert (Hdpos : 0 < inject_Z d) by lra.
  assert (Hup : q < 2 * 2 ^ (a - b)).
  { apply Qnot_le_lt. intros Hle.
    assert (2 * 2 ^ (a - b) * inject_Z d <= q * inject_Z d)
      by (apply Qmult_le_compat_r; lra).
    assert (2 * 2 ^ (a - b) * 2 ^ b <= 2 * 2 ^ (a - b) * inject_Z d)
      by (apply Qmult_le_l; lra).
    nra. }
  assert (Hlow : 2 ^ (a - b) <= 2 * q).
  { apply Qnot_lt_le. intros Hlt.
    assert (2 * q * inject_Z d < 2 ^ (a - b) * inject_Z d)
      by (apply Qmult_lt_compat_r; lra).
    assert (2 ^ (a - b) * inject_Z d <= 2 ^ (a - b) * (2 * 2 ^ b))
      by (apply Qmult_le_l; lra).
    nra. }
  unfold Float.ilog2. fold n d a b.
  destruct (Qle_bool (2 ^ (a - b)) q) eqn:Hc.
  - apply Qle_bool_iff in Hc. split; [exact Hc |]. rewrite pow2_succ. exact Hup.
  - assert (Hlt : q < 2 ^ (a - b)).
    { apply Qnot_le_lt. intros Hle. apply Qle_bool_iff in Hle. congruence. }
    replace (a - b - 1 + 1)%Z with (a - b)%Z by lia. split; [| exact Hlt].
    assert (H2 : 2 ^ (a - b) == 2 * 2 ^ (a - b - 1)).
    { rewrite <- pow2_succ. replace (a - b - 1 + 1)%Z with (a - b)%Z by lia. reflexivity. }
    lra.
Qed.

Lemma rne_cases (q : Q) :
  (Float.rne q = Qfloor q /\ q - inject_Z (Qfloor q) <= 1 # 2)
  \/ (Float.rne q = (Qfloor q + 1)%Z /\ (1 # 2) <= q - inject_Z (Qfloor q)).
Proof.
  unfold Float.rne.
  destruct (Qcompare (q - inject_Z (Qfloor q)) (1 # 2)) eqn:Hc.
  - apply Qeq_alt in Hc. destruct (Z.even (Qfloor q)); [left | right]; split;
      first [reflexivity | lra].
  - apply Qlt_alt in Hc. left. split; [reflexivity | lra].
  - apply Qgt_alt in Hc. right. split; [reflexivity | lra].
Qed.

(** Rounding to the nearest integer moves by at most one half. *)
Lemma rne_close (q : Q) :
  q - (1 # 2) <= inject_Z (Float.rne q) /\ inject_Z (Float.rne q) <= q + (1 # 2).
Proof.
  pose proof (Qfloor_le q) as Hf1. pose proof (Qlt_floor q) as Hf2.
  rewrite inject_Z_plus in Hf2. change (inject_Z 1) with 1 in Hf2.
  destruct (rne_cases q) as [[-> H] | [-> H]].
  - split; lra.
  - rewrite inject_Z_plus. change (inject_Z 1) with 1. split; lra.
Qed.

Lemma rne_between (q : Q) (lo hi : Z) :
  inject_Z lo <= q -> q <= inject_Z hi -> (lo <= Float.rne q <= hi)%Z.
Proof.
  intros Hlo Hhi.
  pose proof (Qfloor_le q) as Hf1. pose proof (Qlt_floor q) as Hf2.
  rewrite inject_Z_plus in Hf2. change (inject_Z 1) with 1 in Hf2.
  assert (H1 : (lo <= Qfloor q)%Z).
  { rewrite <- (Qfloor_Z lo). apply Qfloor_resp_le. exact Hlo. }
  destruct (rne_cases q) as [[-> H] | [-> H]].
  - split; [exact H1 |]. rewrite Zle_Qle. lra.
  - split; [lia |].
    assert (Hlt : inject_Z (Qfloor q) < inject_Z hi) by lra.
    rewrite <- Zlt_Qlt in Hlt. lia.
Qed.

(** What [round_pos] is: a 53-bit integer at the exponent of [q], at most
    half a unit of that exponent away from [q]. *)
Lemma round_pos_spec (q : Q) :
  0 < q ->
  let e := (Float.ilog2 q - 52)%Z in
  exists m : Z,
    Float.round_pos q = inject_Z m * 2 ^ e
    /\ (2 ^ 52 <= m <= 2 ^ 53)%Z
    /\ 2 ^ 52 * 2 ^ e <= q /\ q < 2 ^ 53 * 2 ^ e
    /\ q - (1 # 2) * 2 ^ e <= inject_Z m * 2 ^ e
    /\ inject_Z m * 2 ^ e <= q + (1 # 2) * 2 ^ e.
Proof.
  intros Hq e.
  destruct (ilog2_spec q Hq) as [Hlo Hhi].
  pose proof (pow2_pos e) as He.
  assert (Hk : 2 ^ Float.ilog2 q == 2 ^ 52 * 2 ^ e).
  { unfold e. rewrite <- Qpower_plus by discriminate.
    replace (52 + (Float.ilog2 q - 52))%Z with (Float.ilog2 q) by lia. reflexivity. }
  assert (Hk1 : 2 ^ (Float.ilog2 q + 1) == 2 ^ 53 * 2 ^ e).
  { unfold e. rewrite <- Qpower_plus by discriminate.
    replace (53 + (Float.ilog2 q - 52))%Z with (Float.ilog2 q + 1)%Z by lia. reflexivity. }
  rewrite Hk in Hlo. rewrite Hk1 in Hhi.
  set (s := q / 2 ^ e).
  assert (Hs : s * 2 ^ e == q) by (unfold s; field; lra).
  assert (Hs1 : 2 ^ 52 <= s).
  { unfold s. apply Qle_shift_div_l; [exact He | exact Hlo]. }
  assert (Hs2 : s <= 2 ^ 53).
  { unfold s. apply Qle_shift_div_r; [exact He | lra]. }
  exists (Float.rne s).
  split; [reflexivity |].
  split.
  { apply rne_between.
    - rewrite pow2_Z by lia. exact Hs1.
    - rewrite pow2_Z by lia. exact Hs2. }
  split; [exact Hlo |]. split; [exact Hhi |].
  destruct (rne_close s) as [Hc1 Hc2].
  split.
  - assert ((s - (1 # 2)) * 2 ^ e <= inject_Z (Float.rne s) * 2 ^ e)
      by (apply Qmult_le_compat_r; lra).
    lra.
  - assert (inject_Z (Float.rne s) * 2 ^ e <= (s + (1 # 2)) * 2 ^ e)
      by (apply Qmult_le_compat_r; lra).
    lra.
Qed.

Lemma round_pos_error (q : Q) :
  0 < q -> q * (1 - u) <= Float.round_pos q /\ Float.round_pos q <= q * (1 + u).
Proof.
  intros Hq. destruct (round_pos_spec q Hq) as (m & -> & _ & Hlo & _ & H1 & H2).
  cbv zeta in *. unfold u.
  change (2 ^ 52) with (4503599627370496 # 1) in Hlo.
  split; lra.
Qed.

Lemma round_pos_pos (q : Q) : 0 < q -> 0 < Float.round_pos q.
Proof. intros Hq. pose proof (round_pos_error q Hq). unfold u in *. lra. Qed.

(** Rounding does not pass a power of two. *)
Lemma round_pos_le_pow2 (q : Q) (j : Z) :
  0 < q -> q <= 2 ^ j -> Float.round_pos q <= 2 ^ j.
Proof.
  intros Hq Hj.
  destruct (ilog2_spec q Hq) as [Hlo Hhi].
  destruct (round_pos_spec q Hq) as (m & Hr & [Hm1 Hm2] & Hlo' & Hhi' & H1 & H2).
  cbv zeta in *. set (e := (Float.ilog2 q - 52)%Z) in *.
  pose proof (pow2_pos e) as He.
  assert (Hkj : (Float.ilog2 q <= j)%Z).
  { apply (Qpower_le_compat_l_inv 2); [lra | reflexivity]. }
  rewrite Hr.
  destruct (Z.eq_dec (Float.ilog2 q) j) as [Heq | Hne].
  - assert (Hqj : q == 2 ^ 52 * 2 ^ e).
    { apply Qle_antisym; [| exact Hlo'].
      assert (H : 2 ^ j == 2 ^ 52 * 2 ^ e).
      { unfold e. rewrite Heq, <- Qpower_plus by discriminate.
        replace (52 + (j - 52))%Z with j by lia. reflexivity. }
      lra. }
    change (2 ^ 52) with (4503599627370496 # 1) in Hqj.
    assert (Hm' : inject_Z m <= (4503599627370496 # 1) + (1 # 2)).
    { apply (Qmult_le_r _ _ (2 ^ e)); [exact He |]. lra. }
    assert (Hm : (m <= 4503599627370496)%Z).
    { destruct (Z_le_gt_dec m 4503599627370496) as [Hle | Hgt]; [exact Hle |].
      assert (Hge : inject_Z 4503599627370497 <= inject_Z m) by (rewrite <- Zle_Qle; lia).
      change (inject_Z 4503599627370497) with (4503599627370497 # 1) in Hge. lra. }
    change (2 ^ 52)%Z with 4503599627370496%Z in Hm1.
    assert (m = 4503599627370496)%Z by lia. subst m.
    change (inject_Z 4503599627370496) with (4503599627370496 # 1). lra.
  - assert (H : 2 ^ 53 * 2 ^ e <= 2 ^ j).
    { unfold e. rewrite <- Qpower_plus by discriminate.
      apply Qpower_le_compat_l; [lia | lra]. }
    assert (Hm : inject_Z m <= 2 ^ 53).
    { rewrite <- pow2_Z by lia. rewrite <- Zle_Qle. lia. }
    assert (inject_Z m * 2 ^ e <= 2 ^ 53 * 2 ^ e) by (apply Qmult_le_compat_r; lra).
    lra.
Qed.

(** [round] on equal rationals is the same rational. *)
Lemma round_comp (p q : Q) : p == q -> Float.round p = Float.round q.
Proof. intros H. unfold Float.round. rewrite (Qred_complete p q H). reflexivity. Qed.

Lemma round_0 (q : Q) : q == 0 -> Float.round q = 0.
Proof. intros H. rewrite (round_comp q 0 H). reflexivity. Qed.

Lemma round_positive (q : Q) : 0 < q -> Float.round q = Float.round_pos (Qred q).
Proof.
  intros H. unfold Float.round.
  assert (Hc : Qcompare (Qred q) 0 = Gt).
  { apply Qgt_alt. pose proof (Qred_correct q) as Hr. lra. }
  rewrite Hc. reflexivity.
Qed.

(** The relative error of a rounding is at most [u]. *)
Lemma round_error (q : Q) :
  0 < q -> q * (1 - u) <= Float.round q /\ Float.round q <= q * (1 + u).
Proof.
  intros H. rewrite (round_positive q H).
  assert (H' : 0 < Qred q) by (pose proof (Qred_correct q); lra).
  pose proof (round_pos_error (Qred q) H') as [He1 He2].
  pose proof (Qred_correct q) as Hr. unfold u in *. split; lra.
Qed.

Lemma round_le_pow2 (q : Q) (j : Z) : q <= 2 ^ j -> Float.round q <= 2 ^ j.
Proof.
  intros H. pose proof (pow2_pos j) as Hj.
  unfold Float.round.
  destruct (Qcompare (Qred q) 0) eqn:Hc.
  - lra.
  - apply Qlt_alt in Hc.
    assert (H' : 0 < - Qred q) by lra.
    pose proof (round_pos_pos _ H'). lra.
  - apply Qgt_alt in Hc.
    apply round_pos_le_pow2; [exact Hc |]. pose proof (Qred_correct q) as Hr. lra.
Qed.

Lemma round_nonneg (q : Q) : 0 <= q -> 0 <= Float.round q.
Proof.
  intros H. unfold Float.round.
  destruct (Qcompare (Qred q) 0) eqn:Hc.
  - lra.
  - apply Qlt_alt in Hc. pose proof (Qred_correct q) as Hr. lra.
  - apply Qgt_alt in Hc. pose proof (round_pos_pos _ Hc). lra.
Qed.

(** ** The thumbnail size *)

Lemma round_aspect_cases (number : Q) (key : Z -> Q) :
  Pillow.round_aspect number key = Z.max (Qfloor number) 1
  \/ Pillow.round_aspect number key = Z.max (Qceiling number) 1.
Proof.
  unfold Pillow.round_aspect, Pillow.min_by.
  destruct (Qle_bool (key (Qfloor number)) (key (Qceiling number))); [left | right]; reflexivity.
Qed.

Lemma floor_le_ceiling (x : Q) : (Qfloor x <= Qceiling x)%Z.
Proof. rewrite Zle_Qle. apply Qle_floor_ceiling. Qed.

Lemma round_aspect_ge_1 (number : Q) (key : Z -> Q) :
  (1 <= Pillow.round_aspect number key)%Z.
Proof. unfold Pillow.round_aspect. lia. Qed.

Lemma round_aspect_le (number : Q) (key : Z -> Q) (b : Z) :
  (number <= inject_Z b)%Q -> (1 <= b)%Z -> (Pillow.round_aspect number key <= b)%Z.
Proof.
  intros Hn Hb.
  assert (Hc : (Qceiling number <= b)%Z).
  { rewrite <- (Qceiling_Z b). apply Qceiling_resp_le. exact Hn. }
  pose proof (floor_le_ceiling number).
  destruct (round_aspect_cases number key) as [-> | ->]; lia.
Qed.

Lemma inject_Z_pos (z : Z) : (0 < z)%Z -> (0 < inject_Z z)%Q.
Proof. intros H. change 0%Q with (inject_Z 0). rewrite <- Zlt_Qlt. exact H. Qed.

(** The integers around [t]. *)
Lemma floor_ceiling_close (t : Q) (r : Z) :
  (Qfloor t <= r <= Qceiling t)%Z -> Qabs (inject_Z r - t) < 1.
Proof.
  intros [H1 H2]. apply Qabs_Qlt_condition.
  pose proof (Qfloor_le t) as Hf1. pose proof (Qlt_floor t) as Hf2.
  pose proof (Qle_ceiling t) as Hc1. pose proof (Qceiling_lt t) as Hc2.
  rewrite inject_Z_plus in Hf2. unfold Zminus in Hc2. rewrite inject_Z_plus in Hc2.
  change (inject_Z 1) with 1%Q in Hf2. change (inject_Z (Z.opp 1)) with (-1)%Q in Hc2.
  rewrite Zle_Qle in H1, H2.
  destruct (Z.eq_dec (Qfloor t) (Qceiling t)) as [Heq | Hne].
  - rewrite <- Heq in *. split; lra.
  - assert (Hlt : (Qfloor t < Qceiling t)%Z) by (pose proof (floor_le_ceiling t); lia).
    (* t is not an integer: floor < t < ceiling *)
    assert (Hft : inject_Z (Qfloor t) < t).
    { apply Qnot_le_lt. intros Hle.
      assert (Ht : t == inject_Z (Qfloor t)) by (apply Qle_antisym; assumption).
      rewrite Ht, Qceiling_Z, Qfloor_Z in Hlt. lia. }
    assert (Htc : t < inject_Z (Qceiling t)).
    { apply Qnot_le_lt. intros Hle.
      assert (Ht : t == inject_Z (Qceiling t)) by (apply Qle_antisym; assumption).
      rewrite Ht, Qceiling_Z, Qfloor_Z in Hlt. lia. }
    split; lra.
Qed.

(** A number close to a fraction that is no integer has the floor and the
    ceiling of the fraction. *)
Lemma near_fraction (p h : Z) (N : Q) :
  (0 < h)%Z -> ~ (h | p)%Z ->
  Qabs (N - inject_Z p / inject_Z h) < 1 / inject_Z h ->
  (Qfloor (inject_Z p / inject_Z h) <= Qfloor N)%Z
  /\ (Qceiling N <= Qceiling (inject_Z p / inject_Z h))%Z.
Proof.
  intros Hh Hnd Hnear.
  set (t := inject_Z p / inject_Z h) in *.
  pose proof (inject_Z_pos h Hh) as Hhq.
  assert (Ht : t * inject_Z h == inject_Z p) by (unfold t; field; lra).
  pose proof (Qfloor_le t) as Hf1. pose proof (Qlt_floor t) as Hf2.
  rewrite inject_Z_plus in Hf2. change (inject_Z 1) with 1 in Hf2.
  set (f := Qfloor t) in *.
  assert (H1 : (f * h <= p)%Z).
  { rewrite Zle_Qle, inject_Z_mult.
    assert (inject_Z f * inject_Z h <= t * inject_Z h) by (apply Qmult_le_compat_r; lra).
    lra. }
  assert (H2 : (p < (f + 1) * h)%Z).
  { rewrite Zlt_Qlt, inject_Z_mult, inject_Z_plus. change (inject_Z 1) with 1.
    assert (t * inject_Z h < (inject_Z f + 1) * inject_Z h)
      by (apply Qmult_lt_compat_r; lra).
    lra. }
  assert (H3 : (p <> f * h)%Z).
  { intros Heq. apply Hnd. exists f. exact Heq. }
  assert (Hlo : inject_Z f + 1 / inject_Z h <= t).
  { apply (Qmult_le_r _ _ (inject_Z h)); [exact Hhq |].
    assert (Hz : (f * h + 1 <= p)%Z) by lia.
    rewrite Zle_Qle, inject_Z_plus, inject_Z_mult in Hz. change (inject_Z 1) with 1 in Hz.
    assert (Hm : (inject_Z f + 1 / inject_Z h) * inject_Z h == inject_Z f * inject_Z h + 1)
      by (field; lra).
    lra. }
  assert (Hhi : t <= inject_Z f + 1 - 1 / inject_Z h).
  { apply (Qmult_le_r _ _ (inject_Z h)); [exact Hhq |].
    assert (Hz : (p + 1 <= (f + 1) * h)%Z) by lia.
    rewrite Zle_Qle, inject_Z_plus, inject_Z_mult, inject_Z_plus in Hz.
    change (inject_Z 1) with 1 in Hz.
    assert (Hm : (inject_Z f + 1 - 1 / inject_Z h) * inject_Z h
                 == (inject_Z f + 1) * inject_Z h - 1) by (field; lra).
    lra. }
  apply Qabs_Qlt_condition in Hnear. destruct Hnear as [Hn1 Hn2].
  split.
  - rewrite <- (Qfloor_Z f). apply Qfloor_resp_le. lra.
  - assert (Hc : (Qceiling N <= f + 1)%Z).
    { rewrite <- (Qceiling_Z (f + 1)). apply Qceiling_resp_le.
      rewrite inject_Z_plus. change (inject_Z 1) with 1. lra. }
    assert (Hct : (f < Qceiling t)%Z).
    { rewrite Zlt_Qlt. pose proof (Qle_ceiling t).
      assert (0 < 1 / inject_Z h).
      { apply Qlt_shift_div_l; [exact Hhq | lra]. }
      lra. }
    lia.
Qed.

(** *** Exact quotients: checked one by one *)

Lemma in_range (P : Z -> bool) (n : nat) :
  forallb P (map Z.of_nat (seq 1 n)) = true ->
  forall k : Z, (1 <= k <= Z.of_nat n)%Z -> P k = true.
Proof.
  intros H k Hk. rewrite forallb_forall in H. apply H.
  apply in_map_iff. exists (Z.to_nat k). split; [lia |].
  apply in_seq. lia.
Qed.

(** When the proportional width is an integer, it is the width computed. *)
Lemma fit_width_exact (k : Z) :
  (1 <= k <= 128)%Z ->
  Pillow.fit_width 128 (Float.div (inject_Z k) (inject_Z 128)) = k.
Proof.
  intros Hk. apply Z.eqb_eq.
  apply (in_range (fun k => (Pillow.fit_width 128 (Float.div (inject_Z k) (inject_Z 128))
                              =? k)%Z) 128); [vm_compute; reflexivity | exact Hk].
Qed.

Lemma fit_height_exact (k : Z) :
  (1 <= k <= 128)%Z ->
  Pillow.fit_height 128 (Float.div (inject_Z 128) (inject_Z k)) = k.
Proof.
  intros Hk. apply Z.eqb_eq.
  apply (in_range (fun k => (Pillow.fit_height 128 (Float.div (inject_Z 128) (inject_Z k))
                              =? k)%Z) 128); [vm_compute; reflexivity | exact Hk].
Qed.

Lemma one_is_exact : Float.div (inject_Z 128) (inject_Z 128) == 1.
Proof. vm_compute. reflexivity. Qed.

Lemma of_int_128 : Float.of_int 128 == 128.
Proof. vm_compute. reflexivity. Qed.

(** *** The two branches *)

Lemma divide_dec (a b : Z) : {(a | b)%Z} + {~ (a | b)%Z}.
Proof.
  destruct (Z.eq_dec a 0%Z) as [-> | Ha].
  - destruct (Z.eq_dec b 0%Z) as [-> | Hb].
    + left. exists 0%Z. reflexivity.
    + right. intros [k Hk]. lia.
  - destruct (Z.eq_dec (b mod a)%Z 0%Z) as [H | H].
    + left. apply Z.mod_divide; assumption.
    + right. intros Hd. apply H. apply Z.mod_divide; assumption.
Qed.

Lemma quotient_pos (p q : Z) : (0 < p)%Z -> (0 < q)%Z -> 0 < inject_Z p / inject_Z q.
Proof.
  intros Hp Hq. apply Qlt_shift_div_l; [apply inject_Z_pos; exact Hq |].
  rewrite Qmult_0_l. apply inject_Z_pos. exact Hp.
Qed.

Lemma Qfloor_ceiling_Z (t : Q) (k : Z) :
  t == inject_Z k -> Qfloor t = k /\ Qceiling t = k.
Proof. intros H. rewrite H, Qfloor_Z, Qceiling_Z. split; reflexivity. Qed.

(** One over a length below [2^31]. *)
Lemma pixel_fraction (h : Z) :
  (1 <= h < 2 ^ 31)%Z -> (1 # 2147483648) < 1 / inject_Z h.
Proof.
  intros [H1 H2]. pose proof (inject_Z_pos h ltac:(lia)) as Hh.
  apply Qlt_shift_div_l; [exact Hh |].
  assert (Hq : inject_Z h < inject_Z 2147483648) by (rewrite <- Zlt_Qlt; exact H2).
  change (inject_Z 2147483648) with (2147483648 # 1) in Hq. lra.
Qed.

(** A width computed is one of the two integers around the exact
    proportional width. *)
Lemma fit_width_near (w h : Z) :
  (1 <= w)%Z -> (w <= h)%Z -> (h < 2 ^ 31)%Z ->
  let t := inject_Z (128 * w) / inject_Z h in
  (Qfloor t <= Pillow.fit_width 128 (Float.div (inject_Z w) (inject_Z h)) <= Qceiling t)%Z.
Proof.
  intros Hw Hwh Hh t.
  pose proof (inject_Z_pos w ltac:(lia)) as Hwq.
  pose proof (inject_Z_pos h ltac:(lia)) as Hhq.
  set (a := inject_Z w / inject_Z h).
  assert (Ha : 0 < a) by (apply quotient_pos; lia).
  assert (Hah : a * inject_Z h == inject_Z w) by (unfold a; field; lra).
  assert (Hta : t == 128 * a).
  { unfold t, a. rewrite inject_Z_mult. change (inject_Z 128) with 128. field. lra. }
  assert (Ht : 0 < t) by lra.
  destruct (divide_dec h (128 * w)) as [[k Hk] | Hnd].
  - assert (Hk1 : (1 <= k <= 128)%Z) by nia.
    assert (Hak : a == inject_Z k / inject_Z 128).
    { unfold a. change (inject_Z 128) with 128. 
      assert (Hq : inject_Z 128 * inject_Z w == inject_Z k * inject_Z h)
        by (rewrite <- !inject_Z_mult, Hk; reflexivity).
      change (inject_Z 128) with 128 in Hq. field_simplify_eq; [rewrite Hq; ring | lra]. }
    assert (HAk : Float.div (inject_Z w) (inject_Z h)
                  = Float.div (inject_Z k) (inject_Z 128))
      by (apply round_comp; exact Hak).
    rewrite HAk, (fit_width_exact k Hk1).
    assert (Htk : t == inject_Z k).
    { rewrite Hta, Hak. change (inject_Z 128) with 128. field. }
    destruct (Qfloor_ceiling_Z t k Htk) as [Hfl Hce]. rewrite Hfl, Hce. lia.
  - set (A := Float.div (inject_Z w) (inject_Z h)).
    assert (HA : a * (1 - u) <= A /\ A <= a * (1 + u)) by (apply round_error; exact Ha).
    assert (Ha1 : a <= 1).
    { apply Qle_shift_div_r; [exact Hhq |]. rewrite Qmult_1_l, <- Zle_Qle. exact Hwh. }
    set (P := Float.of_int 128 * A).
    assert (HP : P == 128 * A) by (unfold P; rewrite of_int_128; reflexivity).
    unfold u in HA.
    assert (HPpos : 0 < P) by lra.
    set (N := Float.mul (Float.of_int 128) A).
    assert (HN : P * (1 - u) <= N /\ N <= P * (1 + u)) by (apply round_error; exact HPpos).
    unfold u in HN.
    pose proof (pixel_fraction h ltac:(lia)) as Hd.
    assert (Hnear : Qabs (N - t) < 1 / inject_Z h).
    { apply Qabs_Qlt_condition. split; lra. }
    destruct (near_fraction (128 * w) h N ltac:(lia) Hnd Hnear) as [Hf Hc].
    fold t in Hf, Hc.
    assert (Hct : (1 <= Qceiling t)%Z).
    { assert (H0 : (0 < Qceiling t)%Z).
      { rewrite Zlt_Qlt. pose proof (Qle_ceiling t). change (inject_Z 0) with 0. lra. }
      lia. }
    pose proof (floor_le_ceiling N) as Hfc.
    unfold Pillow.fit_width. fold A. fold N.
    destruct (round_aspect_cases N
                (fun n => Qabs (Float.sub A (Float.div (inject_Z n) (inject_Z 128)))))
      as [-> | ->]; lia.
Qed.

(** A height computed is one of the two integers around the exact
    proportional height. *)
Lemma fit_height_near (w h : Z) :
  (1 <= h)%Z -> (h < w)%Z -> (w < 2 ^ 31)%Z ->
  let t := inject_Z (128 * h) / inject_Z w in
  (Qfloor t <= Pillow.fit_height 128 (Float.div (inject_Z w) (inject_Z h)) <= Qceiling t)%Z.
Proof.
  intros Hh Hhw Hw t.
  pose proof (inject_Z_pos w ltac:(lia)) as Hwq.
  pose proof (inject_Z_pos h ltac:(lia)) as Hhq.
  set (a := inject_Z w / inject_Z h).
  assert (Ha : 0 < a) by (apply quotient_pos; lia).
  assert (Hta : t * a == 128).
  { unfold t, a. rewrite inject_Z_mult. change (inject_Z 128) with 128. field. lra. }
  assert (Ht : 0 < t) by (apply quotient_pos; lia).
  assert (Ht128 : t <= 128).
  { unfold t. apply Qle_shift_div_r; [exact Hwq |].
    change 128 with (inject_Z 128). rewrite <- inject_Z_mult, <- Zle_Qle. lia. }
  destruct (divide_dec w (128 * h)) as [[k Hk] | Hnd].
  - assert (Hk1 : (1 <= k <= 128)%Z) by nia.
    pose proof (inject_Z_pos k ltac:(lia)) as Hkq.
    assert (Hq : inject_Z 128 * inject_Z h == inject_Z k * inject_Z w)
      by (rewrite <- !inject_Z_mult, Hk; reflexivity).
    change (inject_Z 128) with 128 in Hq.
    assert (Hak : a == inject_Z 128 / inject_Z k).
    { unfold a. change (inject_Z 128) with 128. field_simplify_eq; [lra | lra]. }
    assert (HAk : Float.div (inject_Z w) (inject_Z h)
                  = Float.div (inject_Z 128) (inject_Z k))
      by (apply round_comp; exact Hak).
    rewrite HAk, (fit_height_exact k Hk1).
    assert (Htk : t == inject_Z k).
    { unfold t. rewrite inject_Z_mult. change (inject_Z 128) with 128.
      field_simplify_eq; [lra | lra]. }
    destruct (Qfloor_ceiling_Z t k Htk) as [Hfl Hce]. rewrite Hfl, Hce. lia.
  - set (A := Float.div (inject_Z w) (inject_Z h)).
    assert (HA : a * (1 - u) <= A /\ A <= a * (1 + u)) by (apply round_error; exact Ha).
    unfold u in HA.
    assert (HApos : 0 < A) by lra.
    set (X := Float.of_int 128 / A).
    assert (HXA : X * A == 128).
    { unfold X. rewrite of_int_128. field. lra. }
    assert (HXpos : 0 < X).
    { unfold X. apply Qlt_shift_div_l; [exact HApos |]. rewrite of_int_128. lra. }
    assert (Hx1 : X * (1 - (1 # 9007199254740992)) <= t).
    { apply (Qmult_le_r _ _ A); [exact HApos |].
      assert (H1 : t * (a * (1 - (1 # 9007199254740992))) <= t * A)
        by (apply Qmult_le_l; lra).
      assert (H2 : t * (a * (1 - (1 # 9007199254740992)))
                   == 128 * (1 - (1 # 9007199254740992))) by (rewrite <- Hta; ring).
      assert (H3 : X * (1 - (1 # 9007199254740992)) * A
                   == 128 * (1 - (1 # 9007199254740992))) by (rewrite <- HXA; ring).
      lra. }
    assert (Hx2 : t <= X * (1 + (1 # 9007199254740992))).
    { apply (Qmult_le_r _ _ A); [exact HApos |].
      assert (H1 : t * A <= t * (a * (1 + (1 # 9007199254740992))))
        by (apply Qmult_le_l; lra).
      assert (H2 : t * (a * (1 + (1 # 9007199254740992)))
                   == 128 * (1 + (1 # 9007199254740992))) by (rewrite <- Hta; ring).
      assert (H3 : X * (1 + (1 # 9007199254740992)) * A
                   == 128 * (1 + (1 # 9007199254740992))) by (rewrite <- HXA; ring).
      lra. }
    set (M := Float.div (Float.of_int 128) A).
    assert (HM : X * (1 - u) <= M /\ M <= X * (1 + u)) by (apply round_error; exact HXpos).
    unfold u in HM.
    pose proof (pixel_fraction w ltac:(lia)) as Hd.
    assert (Hnear : Qabs (M - t) < 1 / inject_Z w).
    { apply Qabs_Qlt_condition. split; lra. }
    destruct (near_fraction (128 * h) w M ltac:(lia) Hnd Hnear) as [Hf Hc].
    fold t in Hf, Hc.
    assert (Hct : (1 <= Qceiling t)%Z).
    { assert (H0 : (0 < Qceiling t)%Z).
      { rewrite Zlt_Qlt. pose proof (Qle_ceiling t). change (inject_Z 0) with 0. lra. }
      lia. }
    pose proof (floor_le_ceiling M) as Hfc.
    unfold Pillow.fit_height. fold A. fold M.
    destruct (round_aspect_cases M
                (fun n => if (n =? 0)%Z then 0
                          else Qabs (Float.sub A (Float.div (inject_Z 128) (inject_Z n)))))
      as [-> | ->]; lia.
Qed.

(** Below [2^31], an aspect that rounds to at most 1 is at most 1. *)
Lemma aspect_le_1 (w h : Z) :
  (1 <= w)%Z -> (1 <= h < 2 ^ 31)%Z ->
  Float.div (inject_Z w) (inject_Z h) <= 1 -> (w <= h)%Z.
Proof.
  intros Hw Hh HA. destruct (Z_le_gt_dec w h) as [Hle | Hgt]; [exact Hle | exfalso].
  pose proof (inject_Z_pos h ltac:(lia)) as Hhq.
  set (a := inject_Z w / inject_Z h) in *.
  assert (Ha : 0 < a) by (apply quotient_pos; lia).
  pose proof (round_error a Ha) as [He _]. fold (Float.div (inject_Z w) (inject_Z h)) in He.
  pose proof (pixel_fraction h Hh) as Hd.
  assert (Ha1 : 1 + 1 / inject_Z h <= a).
  { apply (Qmult_le_r _ _ (inject_Z h)); [exact Hhq |].
    assert (Hz : (h + 1 <= w)%Z) by lia.
    rewrite Zle_Qle, inject_Z_plus in Hz. change (inject_Z 1) with 1 in Hz.
    assert (H1 : (1 + 1 / inject_Z h) * inject_Z h == inject_Z h + 1) by (field; lra).
    assert (H2 : a * inject_Z h == inject_Z w) by (unfold a; field; lra).
    lra. }
  unfold u in He. unfold Float.div in HA. fold a in HA. lra.
Qed.

(** An aspect that rounds above 1 is above 1. *)
Lemma aspect_gt_1 (w h : Z) :
  (0 < h)%Z -> ~ Float.div (inject_Z w) (inject_Z h) <= 1 -> (h < w)%Z.
Proof.
  intros Hh H. destruct (Z_lt_le_dec h w) as [Hlt | Hle]; [exact Hlt | exfalso].
  apply H. change 1 with (2 ^ 0). apply round_le_pow2. change (2 ^ 0) with 1.
  apply Qle_shift_div_r; [apply inject_Z_pos; exact Hh |].
  rewrite Qmult_1_l, <- Zle_Qle. exact Hle.
Qed.

Lemma Qeq_128_mult (w h : Z) :
  inject_Z 128 * inject_Z w / inject_Z h == inject_Z (128 * w) / inject_Z h.
Proof. rewrite inject_Z_mult. reflexivity. Qed.

(** The size [thumbnail((128, 128))] computes for an image of [w] by [h]. *)
Lemma thumbnail_size (w h : Z) (new_size : option (Z * Z)) :
  Pillow.preserve_aspect_ratio 128 128 w h = inr new_size ->
  match new_size with
  | None => (w <= 128 /\ h <= 128)%Z
  | Some (x, y) =>
      (128 < w \/ 128 < h)%Z
      /\ (1 <= x <= 128)%Z /\ (1 <= y <= 128)%Z
      /\ ((1 <= w < 2 ^ 31)%Z -> (1 <= h < 2 ^ 31)%Z ->
          (x <= w)%Z /\ (y <= h)%Z /\ within_a_pixel w h x y)
  end.
Proof.
  unfold Pillow.preserve_aspect_ratio.
  destruct ((w <=? 128)%Z && (h <=? 128)%Z)%bool eqn:Hfit.
  { intros H. injection H as <-. apply andb_true_iff in Hfit. lia. }
  assert (Hbig : (128 < w \/ 128 < h)%Z).
  { apply andb_false_iff in Hfit. lia. }
  destruct (h =? 0)%Z eqn:Hh0; [discriminate |].
  cbv zeta. cbn [Z.eqb].
  set (A := Float.div (inject_Z w) (inject_Z h)).
  destruct (Qle_bool A (Float.div (inject_Z 128) (inject_Z 128))) eqn:Hbranch.
  - apply Qle_bool_iff in Hbranch. rewrite one_is_exact in Hbranch.
    intros H. injection H as <-.
    split; [exact Hbig |]. split.
    { split; [apply round_aspect_ge_1 |].
      apply round_aspect_le; [| lia].
      change (inject_Z 128) with (2 ^ 7). apply round_le_pow2.
      rewrite of_int_128. change (2 ^ 7) with 128. lra. }
    split; [lia |].
    intros Hw Hh.
    assert (Hle : (w <= h)%Z) by (apply aspect_le_1; [lia | exact Hh | exact Hbranch]).
    pose proof (fit_width_near w h ltac:(lia) Hle ltac:(lia)) as Hnear. cbv zeta in Hnear.
    fold A in Hnear.
    assert (Ht : inject_Z (128 * w) / inject_Z h <= inject_Z w).
    { apply Qle_shift_div_r; [apply inject_Z_pos; lia |].
      rewrite <- inject_Z_mult, <- Zle_Qle. nia. }
    assert (Hc : (Qceiling (inject_Z (128 * w) / inject_Z h) <= w)%Z).
    { apply Z.le_trans with (Qceiling (inject_Z w));
        [apply Qceiling_resp_le; exact Ht | rewrite Qceiling_Z; lia]. }
    split; [lia |]. split; [lia |].
    right. split; [reflexivity |].
    rewrite Qeq_128_mult. apply floor_ceiling_close. exact Hnear.
  - assert (Hgt : ~ A <= 1).
    { intros Hle. rewrite <- one_is_exact in Hle. apply Qle_bool_iff in Hle. congruence. }
    destruct (Qeq_bool A 0) eqn:Hzero; [discriminate |].
    intros H. injection H as <-.
    split; [exact Hbig |]. split; [lia |]. split.
    { split; [apply round_aspect_ge_1 |].
      apply round_aspect_le; [| lia].
      change (inject_Z 128) with (2 ^ 7). apply round_le_pow2.
      change (2 ^ 7) with 128.
      assert (HA : 1 < A) by (apply Qnot_le_lt; exact Hgt).
      apply Qle_shift_div_r; [lra |]. rewrite of_int_128. lra. }
    intros Hw Hh.
    assert (Hlt : (h < w)%Z) by (apply aspect_gt_1; [lia | exact Hgt]).
    pose proof (fit_height_near w h ltac:(lia) Hlt ltac:(lia)) as Hnear. cbv zeta in Hnear.
    fold A in Hnear.
    assert (Ht : inject_Z (128 * h) / inject_Z w <= inject_Z h).
    { apply Qle_shift_div_r; [apply inject_Z_pos; lia |].
      rewrite <- inject_Z_mult, <- Zle_Qle. nia. }
    assert (Hc : (Qceiling (inject_Z (128 * h) / inject_Z w) <= h)%Z).
    { apply Z.le_trans with (Qceiling (inject_Z h));
        [apply Qceiling_resp_le; exact Ht | rewrite Qceiling_Z; lia]. }
    split; [lia |]. split; [lia |].
    left. split; [reflexivity |].
    rewrite Qeq_128_mult. apply floor_ceiling_close. exact Hnear.
Qed.

End Binary64.

(** ** The icon normaliser *)

Section Icon.

Variable str_of_exn : exn -> string.
Variable image : Type.
Variable Image_open : list byte -> result image.
Variable image_size : image -> Z * Z.
Variable image_resize : image -> Z * Z -> result image.
Variable image_save_png : image -> result (list byte).

Local Abbreviation thumbnail_of := (thumbnail image image_size image_resize).
Local Abbreviation normalize_icon_of :=
  (normalize_icon image Image_open image_size image_resize image_save_png).
Local Abbreviation upload_icon_of :=
  (upload_icon str_of_exn image Image_open image_size image_resize image_save_png).

(** What is left of the [try] block once the text to decode is known. *)
Lemma normalize_icon_from_payload (req : request) (data image_data piece : pyval) :
  json req = inr data ->
  py_get data "image" (PyStr "") = inr image_data ->
  payload image_data = inr piece ->
  normalize_icon_of req
  = (let! img_bytes := b64decode piece in
     let! img := Image_open img_bytes in
     let! img := thumbnail_of img (128, 128)%Z in
     let! buffered := image_save_png img in
     ret (jsonify (PyDict [("success", PyBool true);
                           ("icon", PyStr ("data:image/png;base64,"
                                           +:+ Base64.b64encode buffered))]))).
Proof.
  intros Hjson Hget Hpayload. unfold normalize_icon.
  rewrite Hjson. cbn [bind]. rewrite Hget. cbn [bind]. rewrite Hpayload. reflexivity.
Qed.

(** C7 (as amended). For an image text with at least one comma,
    [upload_icon] base64-decodes the text between the first comma and the
    next comma, which is the whole remainder when the text has one comma
    only; for a text without a comma it decodes the whole text. *)
Theorem decodes_text_up_to_second_comma (s : string) :
  payload (PyStr s)
  = inr (PyStr (if Str.contains "," s then before_comma (after_first_comma s) else s))
  /\ (Str.contains "," s = false -> payload (PyStr s) = inr (PyStr s))
  /\ (Str.contains "," s = true -> Str.contains "," (after_first_comma s) = false ->
      payload (PyStr s) = inr (PyStr (after_first_comma s)))
  /\ (forall (req : request) (data : pyval),
        json req = inr data ->
        py_get data "image" (PyStr "") = inr (PyStr s) ->
        normalize_icon_of req
        = (let! img_bytes :=
             b64decode (PyStr (if Str.contains "," s
                               then before_comma (after_first_comma s) else s)) in
           let! img := Image_open img_bytes in
           let! img := thumbnail_of img (128, 128)%Z in
           let! buffered := image_save_png img in
           ret (jsonify (PyDict [("success", PyBool true);
                                 ("icon", PyStr ("data:image/png;base64,"
                                                 +:+ Base64.b64encode buffered))])))).
Proof.
  split; [apply payload_eq |]. split.
  { intros H. rewrite payload_eq, H. reflexivity. }
  split.
  { intros H1 H2. rewrite payload_eq, H1. rewrite contains_comma in H2.
    rewrite (before_comma_without _ H2). reflexivity. }
  intros req data Hjson Hget.
  apply (normalize_icon_from_payload req data (PyStr s)); [assumption | assumption |].
  apply payload_eq.
Qed.

(** What [thumbnail] returns: the image itself when no size is computed,
    otherwise an image of the computed size. *)
Lemma thumbnail_cases (img img' : image) :
  (forall i size i', image_resize i size = inr i' -> image_size i' = size) ->
  thumbnail_of img (128, 128)%Z = inr img' ->
  (Pillow.preserve_aspect_ratio 128 128 (fst (image_size img)) (snd (image_size img))
   = inr None /\ img' = img)
  \/ (exists x y,
         Pillow.preserve_aspect_ratio 128 128 (fst (image_size img)) (snd (image_size img))
         = inr (Some (x, y))
         /\ image_size img' = (x, y)).
Proof.
  intros Hresize. unfold thumbnail. cbn [fst snd].
  destruct (Pillow.preserve_aspect_ratio 128 128 (fst (image_size img)) (snd (image_size img)))
    as [ex | [[x y] |]]; cbn [bind].
  - discriminate.
  - destruct ((fst (image_size img) =? x)%Z && (snd (image_size img) =? y)%Z)%bool eqn:Hsame.
    + intros H. injection H as <-. right. exists x, y. split; [reflexivity |].
      apply andb_true_iff in Hsame. destruct Hsame as [Hx Hy].
      apply Z.eqb_eq in Hx, Hy. destruct (image_size img). simpl in *. congruence.
    + intros H. right. exists x, y. split; [reflexivity |]. apply (Hresize _ _ _ H).
  - intros H. injection H as <-. left. split; reflexivity.
Qed.

(** C8. When [upload_icon] succeeds, the image it decoded has been put
    through [thumbnail((128, 128))] and written as PNG into a
    [data:image/png;base64,...] string.  The result is never wider or
    higher than 128 pixels; an image that already fits is returned as it is
    (50 by 50 stays 50 by 50); an image with at least one pixel each way
    (and sides below [2^31], as Pillow's are) is never enlarged, and when it
    is shrunk its aspect is kept to the pixel: the side that binds becomes
    128 and the other is less than one pixel from the exact proportional
    length (1000 by 500 becomes 128 by 64).  The size is the one Pillow
    computes in binary64.  Resampling gives an image of the size asked
    for. *)
Theorem icon_fits_128_without_upscaling :
  (forall i size i', image_resize i size = inr i' -> image_size i' = size) ->
  forall (req : request) (resp : response),
    normalize_icon_of req = inr resp ->
    exists (img_bytes : list byte) (img img' : image) (png : list byte),
      Image_open img_bytes = inr img
      /\ thumbnail_of img (128, 128)%Z = inr img'
      /\ image_save_png img' = inr png
      /\ resp = {| status := 200;
                   body_of := Json (PyDict [("success", PyBool true);
                                            ("icon", PyStr ("data:image/png;base64,"
                                                            +:+ Base64.b64encode png))]) |}
      /\ (fst (image_size img') <= 128)%Z /\ (snd (image_size img') <= 128)%Z
      /\ ((fst (image_size img) <= 128)%Z -> (snd (image_size img) <= 128)%Z -> img' = img)
      /\ ((1 <= fst (image_size img) < 2 ^ 31)%Z ->
          (1 <= snd (image_size img) < 2 ^ 31)%Z ->
          (1 <= fst (image_size img') <= fst (image_size img))%Z
          /\ (1 <= snd (image_size img') <= snd (image_size img))%Z
          /\ (img' = img
              \/ within_a_pixel (fst (image_size img)) (snd (image_size img))
                                (fst (image_size img')) (snd (image_size img'))))
      /\ (image_size img = (50, 50)%Z -> image_size img' = (50, 50)%Z)
      /\ (image_size img = (1000, 500)%Z -> image_size img' = (128, 64)%Z).
Proof.
  intros Hresize req resp. unfold normalize_icon.
  destruct (json req) as [ex | data]; [discriminate |]. cbn [bind].
  destruct (py_get data "image" (PyStr "")) as [ex | image_data]; [discriminate |]. cbn [bind].
  destruct (payload image_data) as [ex | piece]; [discriminate |]. cbn [bind].
  destruct (b64decode piece) as [ex | img_bytes]; [discriminate |]. cbn [bind].
  destruct (Image_open img_bytes) as [ex | img] eqn:Hopen; [discriminate |]. cbn [bind].
  destruct (thumbnail_of img (128, 128)%Z) as [ex | img'] eqn:Hthumb; [discriminate |].
  cbn [bind].
  destruct (image_save_png img') as [ex | png] eqn:Hsave; [discriminate |]. cbn [bind].
  intros H. injection H as <-.
  exists img_bytes, img, img', png.
  split; [exact Hopen |]. split; [exact Hthumb |]. split; [exact Hsave |].
  split; [reflexivity |].
  destruct (thumbnail_cases img img' Hresize Hthumb) as [[Hsize ->] | (x & y & Hsize & Himg')].
  - apply thumbnail_size in Hsize. destruct Hsize as [Hw Hh].
    split; [exact Hw |]. split; [exact Hh |]. split; [reflexivity |].
    split; [intros; repeat split; auto; lia |]. split; [auto |].
    intros H. rewrite H in Hw. simpl in Hw. lia.
  - pose proof (thumbnail_size _ _ _ Hsize) as (Hbig & Hx & Hy & Hpos).
    rewrite Himg'. cbn [fst snd].
    split; [lia |]. split; [lia |]. split; [intros; lia |].
    split.
    { intros Hw Hh. destruct (Hpos Hw Hh) as (Hxw & Hyh & Hclose).
      split; [lia |]. split; [lia |]. right. exact Hclose. }
    split.
    + intros H. rewrite H in Hbig. simpl in Hbig. lia.
    + intros H. rewrite H in Hsize. cbn [fst snd] in Hsize.
      vm_compute in Hsize. congruence.
Qed.

(** C9. [upload_icon] never lets an exception out: its answer is always a
    JSON body, and it leaves the world as it was.  Behind the guard, every
    exception of the [try] block (the body is not JSON or not an object,
    the base64 text is malformed, the bytes are no image Pillow recognises,
    resampling or writing the PNG fails) is answered with status 500 and
    the body [{"success": false, "message": str(e)}]. *)
Theorem upload_icon_failures_are_structured (req : request) (w : world) :
  (exists v, body_of (fst (flask (upload_icon_of req) w)) = Json v)
  /\ snd (flask (upload_icon_of req) w) = w
  /\ (truthy (verify_token (store w) (PyStr (bearer_token req))) = true ->
      (forall ex : exn,
          normalize_icon_of req = inl ex ->
          flask (upload_icon_of req) w
          = ({| status := 500;
                body_of := Json (PyDict [("success", PyBool false);
                                         ("message", PyStr (str_of_exn ex))]) |}, w))
      /\ (forall (data image_data : pyval) (text : string) (err : Base64.decode_error),
            json req = inr data ->
            py_get data "image" (PyStr "") = inr image_data ->
            payload image_data = inr (PyStr text) ->
            Base64.b64decode text = inl err ->
            exists ex, normalize_icon_of req = inl ex)
      /\ (forall (data image_data piece : pyval) (img_bytes : list byte) (ex : exn),
            json req = inr data ->
            py_get data "image" (PyStr "") = inr image_data ->
            payload image_data = inr piece ->
            b64decode piece = inr img_bytes ->
            Image_open img_bytes = inl ex ->
            normalize_icon_of req = inl ex)
      /\ (forall (data image_data piece : pyval) (img_bytes : list byte) (img img' : image)
                 (ex : exn),
            json req = inr data ->
            py_get data "image" (PyStr "") = inr image_data ->
            payload image_data = inr piece ->
            b64decode piece = inr img_bytes ->
            Image_open img_bytes = inr img ->
            thumbnail_of img (128, 128)%Z = inr img' ->
            image_save_png img' = inl ex ->
            normalize_icon_of req = inl ex)).
Proof.
  assert (Hrun : forall ok : bool,
             truthy (verify_token (store w) (PyStr (bearer_token req))) = ok ->
             flask (upload_icon_of req) w
             = (if ok then match normalize_icon_of req with
                           | inr r => r
                           | inl ex => failure str_of_exn ex
                           end
                else unauthorized, w)).
  { intros ok Hok. unfold flask, upload_icon, mbind, query, try_except, lift, mret.
    rewrite Hok. destruct ok; [| reflexivity]. cbn [negb].
    destruct (normalize_icon_of req); reflexivity. }
  split.
  { rewrite (Hrun _ eq_refl).
    destruct (truthy (verify_token (store w) (PyStr (bearer_token req)))); cbn [fst].
    - destruct (normalize_icon_of req) as [ex | r] eqn:Hn.
      + eexists. reflexivity.
      + unfold normalize_icon, bind in Hn.
        repeat match type of Hn with
               | match ?x with _ => _ end = _ => destruct x; try discriminate Hn
               end.
        injection Hn as <-. eexists. reflexivity.
    - eexists. reflexivity. }
  split; [rewrite (Hrun _ eq_refl); reflexivity |].
  intros Hok. split.
  { intros ex Hex. rewrite (Hrun true Hok), Hex. reflexivity. }
  split.
  { intros data image_data text err Hjson Hget Hpayload Herr.
    rewrite (normalize_icon_from_payload req data image_data (PyStr text) Hjson Hget Hpayload).
    unfold b64decode. rewrite Herr. destruct err; eexists; reflexivity. }
  split.
  { intros data image_data piece img_bytes ex Hjson Hget Hpayload Hdec Hopen.
    rewrite (normalize_icon_from_payload req data image_data piece Hjson Hget Hpayload).
    rewrite Hdec. cbn [bind]. rewrite Hopen. reflexivity. }
  intros data image_data piece img_bytes img img' ex Hjson Hget Hpayload Hdec Hopen Hth Hsave.
  rewrite (normalize_icon_from_payload req data image_data piece Hjson Hget Hpayload).
  rewrite Hdec. cbn [bind]. rewrite Hopen. cbn [bind]. rewrite Hth. cbn [bind].
  rewrite Hsave. reflexivity.
Qed.

End Icon.

(** * Further properties of the store and of the view functions *)

(** ** Settings *)


Lemma world_eta (w : world) : {| store := store w; attempted := attempted w |} = w.
Proof. destruct w; reflexivity. Qed.


(** ** What the writing statements do *)

(** Taking a statement of [database.py] apart in a hypothesis. *)
Ltac split_in H :=
  repeat match type of H with
         | context [match ?x with _ => _ end] =>
             lazymatch x with
             | context [match _ with _ => _ end] => fail
             | _ => let E := fresh "E" in
                    destruct x eqn:E; cbv beta iota in H; try discriminate H
             end
         end.

(** The fields of a database written out. *)
Ltac fields :=
  cbn [Database.groups Database.groups_seq Database.settings Database.services
       Database.services_seq Database.g_id Database.s_id Database.g_created_at].

Lemma next_id_above (seq : Z) (ids : list Z) :
  (seq < Database.next_id seq ids)%Z
  /\ Forall (fun i => (i < Database.next_id seq ids)%Z) ids.
Proof.
  unfold Database.next_id. induction ids as [| i ids [IH1 IH2]]; simpl.
  - split; [lia | constructor].
  - split; [lia |]. constructor; [lia |].
    eapply Forall_impl; [exact IH2 |]. simpl. intros. lia.
Qed.

(** With the keys in order, the next key is the counter plus one. *)
Lemma next_id_counter (seq : Z) (ids : list Z) :
  ids_ok ids seq -> Database.next_id seq ids = (seq + 1)%Z.
Proof.
  intros [_ Hle]. unfold Database.next_id. f_equal.
  induction Hle as [| i ids Hi _ IH]; simpl; [reflexivity | lia].
Qed.

Lemma ids_ok_next (seq : Z) (ids : list Z) :
  ids_ok ids seq ->
  ids_ok (ids ++ [Database.next_id seq ids])%list (Database.next_id seq ids).
Proof.
  intros [Hnd Hle]. destruct (next_id_above seq ids) as [Hseq Hlt]. split.
  - apply NoDup_app. split; [exact Hnd |]. split; [| apply NoDup_singleton].
    intros i Hi Hin. apply list_elem_of_singleton in Hin. subst i.
    rewrite Forall_forall in Hlt. specialize (Hlt _ Hi). lia.
  - apply Forall_app. split.
    + eapply Forall_impl; [exact Hlt |]. simpl. intros. lia.
    + constructor; [lia | constructor].
Qed.

Lemma ids_ok_filter {A} (f : A -> Z) (p : A -> bool) (l : list A) (seq : Z) :
  ids_ok (map f l) seq -> ids_ok (map f (List.filter p l)) seq.
Proof.
  intros [Hnd Hle]. induction l as [| x l IH]; [split; assumption |].
  simpl in Hnd, Hle. apply NoDup_cons in Hnd. destruct Hnd as [Hx Hnd].
  apply Forall_cons in Hle. destruct Hle as [Hxle Hle].
  destruct (IH Hnd Hle) as [IH1 IH2]. simpl. destruct (p x); [| split; assumption].
  simpl. split.
  - apply NoDup_cons. split; [| exact IH1].
    intros Hin. apply Hx. apply list_elem_of_fmap in Hin. destruct Hin as (y & Hy & Hin).
    apply list_elem_of_fmap. exists y. split; [exact Hy |].
    apply list_elem_of_In, filter_In in Hin. apply list_elem_of_In. tauto.
  - constructor; assumption.
Qed.

Lemma map_id_update {A} (f : A -> Z) (upd : A -> A) (id : Z) (l : list A) :
  (forall x, f (upd x) = f x) ->
  map f (map (fun x => if (f x =? id)%Z then upd x else x) l) = map f l.
Proof.
  intros H. induction l as [| x l IH]; [reflexivity |].
  simpl. rewrite IH. destruct (f x =? id)%Z; [rewrite H |]; reflexivity.
Qed.

Section Writes.

Variable real_text : Z -> Z -> string.
Variable numeric_of_text : string -> option Database.sqlval.

Lemma create_group_effect (now : string) (name order is_nas_service : pyval)
    (d d' : Database.db) (id : Z) :
  Database.create_group real_text numeric_of_text now name order is_nas_service d
  = inr (id, d') ->
  id = Database.next_id (Database.groups_seq d) (map Database.g_id (Database.groups d))
  /\ (exists row, Database.g_id row = id
                  /\ Database.g_created_at row = now
                  /\ Database.groups d' = (Database.groups d ++ [row])%list)
  /\ Database.groups_seq d' = id
  /\ Database.settings d' = Database.settings d
  /\ Database.services d' = Database.services d
  /\ Database.services_seq d' = Database.services_seq d.
Proof.
  unfold Database.create_group, bind, ret, raise. intros H. split_in H.
  injection H as <- <-. fields. split; [reflexivity |].
  split; [eexists; split; [| split; [| reflexivity]]; reflexivity |]. repeat split.
Qed.

Lemma create_service_effect (now : string)
    (group_id name url_public url_local icon order : pyval) (d d' : Database.db) (id : Z) :
  Database.create_service real_text numeric_of_text now
    group_id name url_public url_local icon order d = inr (id, d') ->
  id = Database.next_id (Database.services_seq d) (map Database.s_id (Database.services d))
  /\ (exists row, Database.s_id row = id
                  /\ Database.services d' = (Database.services d ++ [row])%list)
  /\ Database.services_seq d' = id
  /\ Database.settings d' = Database.settings d
  /\ Database.groups d' = Database.groups d
  /\ Database.groups_seq d' = Database.groups_seq d.
Proof.
  unfold Database.create_service, bind, ret, raise. intros H. split_in H.
  injection H as <- <-. fields. split; [reflexivity |].
  split; [eexists; split; [| reflexivity]; reflexivity |]. repeat split.
Qed.

Lemma update_group_effect (group_id : Z) (name order : pyval) (d d' : Database.db) :
  Database.update_group real_text numeric_of_text group_id name order d = inr d' ->
  map Database.g_id (Database.groups d') = map Database.g_id (Database.groups d)
  /\ Database.groups_seq d' = Database.groups_seq d
  /\ Database.settings d' = Database.settings d
  /\ Database.services d' = Database.services d
  /\ Database.services_seq d' = Database.services_seq d.
Proof.
  unfold Database.update_group, bind, ret, raise. intros H. split_in H.
  all: injection H as <-; fields; split; [apply map_id_update; reflexivity | repeat split].
Qed.

Lemma update_service_effect (service_id : Z) (name url_public url_local icon order : pyval)
    (d d' : Database.db) :
  Database.update_service real_text numeric_of_text service_id
    name url_public url_local icon order d = inr d' ->
  map Database.s_id (Database.services d') = map Database.s_id (Database.services d)
  /\ Database.services_seq d' = Database.services_seq d
  /\ Database.settings d' = Database.settings d
  /\ Database.groups d' = Database.groups d
  /\ Database.groups_seq d' = Database.groups_seq d.
Proof.
  unfold Database.update_service, bind, ret, raise. intros H. split_in H.
  all: injection H as <-; fields; split; [apply map_id_update; reflexivity | repeat split].
Qed.

Lemma delete_group_effect (group_id : Z) (d d' : Database.db) :
  Database.delete_group group_id d = inr d' ->
  Database.groups d'
  = List.filter (fun g => negb (Database.g_id g =? group_id)%Z) (Database.groups d)
  /\ Database.groups_seq d' = Database.groups_seq d
  /\ Database.settings d' = Database.settings d
  /\ Database.services d' = Database.services d
  /\ Database.services_seq d' = Database.services_seq d.
Proof.
  unfold Database.delete_group, bind, ret, raise. intros H. split_in H.
  injection H as <-. repeat split.
Qed.

Lemma delete_service_effect (service_id : Z) (d d' : Database.db) :
  Database.delete_service service_id d = inr d' ->
  Database.services d'
  = List.filter (fun s => negb (Database.s_id s =? service_id)%Z) (Database.services d)
  /\ Database.services_seq d' = Database.services_seq d
  /\ Database.settings d' = Database.settings d
  /\ Database.groups d' = Database.groups d
  /\ Database.groups_seq d' = Database.groups_seq d.
Proof.
  unfold Database.delete_service, bind, ret, raise. intros H. split_in H.
  injection H as <-. repeat split.
Qed.

Lemma set_setting_effect (now key : string) (v : pyval) (d d' : Database.db) :
  Database.set_setting real_text now key v d = inr d' ->
  (forall k, k <> key -> Database.settings d' !! k = Database.settings d !! k)
  /\ Database.groups d' = Database.groups d
  /\ Database.groups_seq d' = Database.groups_seq d
  /\ Database.services d' = Database.services d
  /\ Database.services_seq d' = Database.services_seq d.
Proof.
  unfold Database.set_setting, bind, ret, raise. intros H. split_in H.
  injection H as <-. fields. split; [| repeat split].
  intros k Hk. rewrite lookup_insert_ne by congruence. reflexivity.
Qed.

(** A writing statement keeps the keys in order and the session row. *)
Lemma write_keeps (d d' : Database.db) :
  write real_text numeric_of_text d d' ->
  (store_ok d -> store_ok d') /\ session_row d' = session_row d.
Proof.
  unfold store_ok, session_row.
  intros [now v H | now name order nas id H | gid name order H | gid H
         | now g name up ul ic order id H | sid name up ul ic order H | sid H].
  - apply set_setting_effect in H. destruct H as (Hs & -> & -> & -> & ->).
    split; [tauto | apply Hs; discriminate].
  - apply create_group_effect in H.
    destruct H as (-> & (row & Hid & _ & ->) & -> & -> & -> & ->).
    split; [| reflexivity]. intros [Hg Hs]. split; [| exact Hs].
    rewrite map_app. cbn [map]. rewrite Hid. apply ids_ok_next. exact Hg.
  - apply update_group_effect in H. destruct H as (-> & -> & -> & -> & ->).
    split; [tauto | reflexivity].
  - apply delete_group_effect in H. destruct H as (-> & -> & -> & -> & ->).
    split; [| reflexivity]. intros [Hg Hs]. split; [apply ids_ok_filter; exact Hg | exact Hs].
  - apply create_service_effect in H.
    destruct H as (-> & (row & Hid & ->) & -> & -> & -> & ->).
    split; [| reflexivity]. intros [Hg Hs]. split; [exact Hg |].
    rewrite map_app. cbn [map]. rewrite Hid. apply ids_ok_next. exact Hs.
  - apply update_service_effect in H. destruct H as (-> & -> & -> & -> & ->).
    split; [tauto | reflexivity].
  - apply delete_service_effect in H. destruct H as (-> & -> & -> & -> & ->).
    split; [| reflexivity]. intros [Hg Hs]. split; [exact Hg | apply ids_ok_filter; exact Hs].
Qed.

End Writes.

(** ** What a request does to the database *)

Lemma protected_route_eq_fetch (route : protected_route) :
  route = POST_fetch_icon \/ route <> POST_fetch_icon.
Proof. destruct route; first [left; reflexivity | right; discriminate]. Qed.

Section Requests.

Variable real_text : Z -> Z -> string.
Variable numeric_of_text : string -> option Database.sqlval.
Variable str_of_exn : exn -> string.
Variable py_repr : pyval -> string.
Variable urlparse : pyval -> result ParseResult.
Variable image : Type.
Variable Image_open : list byte -> result image.
Variable image_size : image -> Z * Z.
Variable image_resize : image -> Z * Z -> result image.
Variable image_save_png : image -> result (list byte).

Local Abbreviation view_of :=
  (view real_text numeric_of_text str_of_exn py_repr urlparse
        image Image_open image_size image_resize image_save_png).

(** Taking a view function apart: the innermost [match] on a step that
    returns or raises is split, until none is left. *)
Ltac split_step :=
  match goal with
  | |- context [match ?x with _ => _ end] =>
      lazymatch x with
      | context [match _ with _ => _ end] => fail
      | _ => let E := fresh "E" in
             destruct x eqn:E;
             cbn [fst snd store attempted status]
      end
  end.

Ltac behind_guard w req :=
  let G := fresh "G" in
  destruct (truthy (verify_token (store w) (PyStr (bearer_token req)))) eqn:G;
  [ rewrite (guard_passes _ _ _ G) | rewrite (guard_stops _ _ _ G) ].

Ltac run_view :=
  unfold mbind, lift, query, execute_, execute, try_except, mret;
  cbn [fst snd store attempted status];
  repeat split_step.

(** A protected request either leaves the database as it is (and the whole
    world, unless it probes for an icon), or it is a request on a writing
    route that is answered 200 after exactly one writing statement. *)
Lemma view_writes_once (route : protected_route) (req : request) (e : env) (w : world) :
  (store (snd (flask (view_of route req e) w)) = store w
   /\ (route <> POST_fetch_icon -> snd (flask (view_of route req e) w) = w))
  \/ (read_only route = false
      /\ status (fst (flask (view_of route req e) w)) = 200
      /\ write real_text numeric_of_text (store w) (store (snd (flask (view_of route req e) w)))
      /\ attempted (snd (flask (view_of route req e) w)) = attempted w).
Proof.
  unfold flask.
  destruct route; cbn [view].
  - left. unfold get_system_info. behind_guard w req; run_view; split; reflexivity.
  - left. unfold get_groups. behind_guard w req; run_view; split; reflexivity.
  - unfold create_group. behind_guard w req; run_view;
      first [ left; split; reflexivity
            | right; split; [reflexivity | split; [reflexivity | split; [| reflexivity]]];
              eapply write_create_group; eassumption ].
  - unfold update_group. behind_guard w req; run_view;
      first [ left; split; reflexivity
            | right; split; [reflexivity | split; [reflexivity | split; [| reflexivity]]];
              eapply write_update_group; eassumption ].
  - unfold delete_group. behind_guard w req; run_view;
      first [ left; split; reflexivity
            | right; split; [reflexivity | split; [reflexivity | split; [| reflexivity]]];
              eapply write_delete_group; eassumption ].
  - unfold create_service. behind_guard w req; run_view;
      first [ left; split; reflexivity
            | right; split; [reflexivity | split; [reflexivity | split; [| reflexivity]]];
              eapply write_create_service; eassumption ].
  - unfold update_service. behind_guard w req; run_view;
      first [ left; split; reflexivity
            | right; split; [reflexivity | split; [reflexivity | split; [| reflexivity]]];
              eapply write_update_service; eassumption ].
  - unfold delete_service. behind_guard w req; run_view;
      first [ left; split; reflexivity
            | right; split; [reflexivity | split; [reflexivity | split; [| reflexivity]]];
              eapply write_delete_service; eassumption ].
  - left. split; [| intros H; contradiction].
    unfold fetch_icon. behind_guard w req; [| reflexivity].
    unfold mbind at 1. unfold lift at 1. destruct (json req) as [ex | data]; [reflexivity |].
    unfold mbind at 1. unfold lift at 1.
    destruct (py_get data "url" (PyStr "")) as [ex | url]; [reflexivity |].
    unfold try_except, mbind, lift, mret.
    destruct (urlparse url) as [ex | parsed]; [reflexivity |].
    destruct (probe_returns e (favicon_urls py_repr parsed url) w) as (r & k & Hp & _).
    rewrite Hp. reflexivity.
  - left. unfold upload_icon. behind_guard w req; run_view; split; reflexivity.
  - left. unfold get_settings. behind_guard w req; run_view; split; reflexivity.
  - unfold save_settings. behind_guard w req; run_view;
      first [ left; split; reflexivity
            | right; split; [reflexivity | split; [reflexivity | split; [| reflexivity]]];
              eapply write_setting; eassumption ].
Qed.

(** What [authenticate] leaves: groups, services, counters, the GETs sent
    and every setting but the session row. *)
Lemma authenticate_frame (AUTH_KEY : string) (req : request) (e : env) (w : world) :
  let w' := snd (flask (authenticate AUTH_KEY real_text req e) w) in
  Database.groups (store w') = Database.groups (store w)
  /\ Database.groups_seq (store w') = Database.groups_seq (store w)
  /\ Database.services (store w') = Database.services (store w)
  /\ Database.services_seq (store w') = Database.services_seq (store w)
  /\ attempted w' = attempted w
  /\ (forall k, k <> "access_token" ->
                Database.settings (store w') !! k = Database.settings (store w) !! k)
  /\ (status (fst (flask (authenticate AUTH_KEY real_text req e) w)) <> 200 -> w' = w).
Proof.
  cbv zeta. unfold flask, authenticate. run_view;
    try (repeat split; first [reflexivity | intros; reflexivity | intros; congruence]).
  all: match goal with
       | H : Database.set_setting _ _ _ _ _ = inr _ |- _ =>
           apply set_setting_effect in H; destruct H as (Hs & -> & -> & -> & ->)
       end.
  all: repeat split; try reflexivity; try assumption.
  all: intros H; exfalso; apply H; reflexivity.
Qed.

(** X2. The keys of the groups and of the services stay in order with
    their counters: they are in the database [_init_db] makes from nothing,
    and [_init_db], [authenticate] and every protected request keep them so.
    So no two groups and no two services ever share an id. *)
Theorem requests_keep_ids_unique :
  (forall now : string, store_ok (Database.init_db now Database.empty))
  /\ (forall (now : string) (d : Database.db), store_ok d -> store_ok (Database.init_db now d))
  /\ (forall (AUTH_KEY : string) (req : request) (e : env) (w : world),
        store_ok (store w) ->
        store_ok (store (snd (flask (authenticate AUTH_KEY real_text req e) w))))
  /\ (forall (route : protected_route) (req : request) (e : env) (w : world),
        store_ok (store w) ->
        store_ok (store (snd (flask (view_of route req e) w)))).
Proof.
  assert (Hinit : forall now d, store_ok d -> store_ok (Database.init_db now d)).
  { intros now d [Hg Hs]. unfold Database.init_db.
    destruct (existsb _ (Database.groups d)); [split; assumption |].
    split; [| exact Hs]. fields. rewrite map_app. apply ids_ok_next. exact Hg. }
  split.
  { intros now. apply Hinit. split; split; constructor. }
  split; [exact Hinit |]. split.
  - intros AUTH_KEY req e w [Hg Hs].
    destruct (authenticate_frame AUTH_KEY req e w) as (Eg & Egs & Es & Ess & _).
    unfold store_ok. rewrite Eg, Egs, Es, Ess. split; assumption.
  - intros route req e w Hok.
    destruct (view_writes_once route req e w) as [[-> _] | (_ & _ & Hw & _)]; [exact Hok |].
    exact (proj1 (write_keeps real_text numeric_of_text _ _ Hw) Hok).
Qed.

(** X3. A request that is not answered 200 has changed nothing in the
    database: every protected view function and [authenticate] write only
    on the way to their 200 answer, and a statement that fails writes
    nothing. *)
Theorem no_write_without_200 :
  (forall (route : protected_route) (req : request) (e : env) (w : world),
      status (fst (flask (view_of route req e) w)) <> 200 ->
      store (snd (flask (view_of route req e) w)) = store w)
  /\ (forall (AUTH_KEY : string) (req : request) (e : env) (w : world),
        status (fst (flask (authenticate AUTH_KEY real_text req e) w)) <> 200 ->
        snd (flask (authenticate AUTH_KEY real_text req e) w) = w).
Proof.
  split.
  - intros route req e w Hstatus.
    destruct (view_writes_once route req e w) as [[H _] | (_ & H & _)];
      [exact H | contradiction].
  - intros AUTH_KEY req e w Hstatus.
    destruct (authenticate_frame AUTH_KEY req e w) as (_ & _ & _ & _ & _ & _ & H).
    exact (H Hstatus).
Qed.

(** X4. No protected request touches the session: whatever the route, the
    body and the outcome, the row of [access_token] is the same afterwards,
    so a token that verified before still verifies.  Only [authenticate]
    writes that row. *)
Theorem protected_requests_keep_the_session (route : protected_route) (req : request)
    (e : env) (w : world) (token : pyval) :
  session_row (store (snd (flask (view_of route req e) w))) = session_row (store w)
  /\ verify_token (store (snd (flask (view_of route req e) w))) token
     = verify_token (store w) token.
Proof.
  assert (H : session_row (store (snd (flask (view_of route req e) w)))
              = session_row (store w)).
  { destruct (view_writes_once route req e w) as [[-> _] | (_ & _ & Hw & _)]; [reflexivity |].
    exact (proj2 (write_keeps real_text numeric_of_text _ _ Hw)). }
  split; [exact H |].
  unfold verify_token, Database.get_setting. unfold session_row in H. rewrite H. reflexivity.
Qed.

(** X5. The five routes that only read (system-info, the list of groups,
    fetch-icon, upload-icon, the settings) never change the database, with
    or without a valid token; all but fetch-icon leave the whole world as it
    is, and fetch-icon only adds to the GETs sent. *)
Theorem reading_routes_do_not_write (route : protected_route) (req : request)
    (e : env) (w : world) :
  read_only route = true ->
  store (snd (flask (view_of route req e) w)) = store w
  /\ (route <> POST_fetch_icon -> snd (flask (view_of route req e) w) = w)
  /\ exists sent, attempted (snd (flask (view_of route req e) w)) = (attempted w ++ sent)%list.
Proof.
  intros Hro.
  destruct (view_writes_once route req e w) as [[H1 H2] | (Hw & _)]; [| congruence].
  split; [exact H1 |]. split; [exact H2 |].
  destruct (protected_route_eq_fetch route) as [-> | Hne].
  - unfold flask. cbn [view]. unfold fetch_icon.
    behind_guard w req; [| exists []; rewrite app_nil_r; reflexivity].
    unfold mbind at 1. unfold lift at 1.
    destruct (json req) as [ex | data]; [exists []; rewrite app_nil_r; reflexivity |].
    unfold mbind at 1. unfold lift at 1.
    destruct (py_get data "url" (PyStr "")) as [ex | url];
      [exists []; rewrite app_nil_r; reflexivity |].
    unfold try_except, mbind, lift, mret.
    destruct (urlparse url) as [ex | parsed]; [exists []; rewrite app_nil_r; reflexivity |].
    destruct (probe_returns e (favicon_urls py_repr parsed url) w) as (r & k & Hp & _).
    rewrite Hp. eexists. reflexivity.
  - rewrite (H2 Hne). exists []. rewrite app_nil_r. reflexivity.
Qed.

End Requests.

(** ** Groups and services *)

Section Rows.

Variable real_text : Z -> Z -> string.
Variable numeric_of_text : string -> option Database.sqlval.

Lemma filter_all {A} (p : A -> bool) (l : list A) :
  Forall (fun x => p x = true) l -> List.filter p l = l.
Proof.
  induction 1 as [| x l Hx _ IH]; [reflexivity |].
  simpl. rewrite Hx, IH. reflexivity.
Qed.


(** X6. With the keys in order, [create_group] gives the new group the key
    after the counter, a key no group has; the new row is added at the end
    and nothing else changes.  Deleting that group again restores the table
    of groups but not the counter, so the next group created gets the key
    after it: the key of a deleted group is not given again. *)
Theorem create_group_never_reuses_an_id (now : string) (name order is_nas_service : pyval)
    (d d1 : Database.db) (id : Z) :
  store_ok d ->
  Database.create_group real_text numeric_of_text now name order is_nas_service d
  = inr (id, d1) ->
  id = (Database.groups_seq d + 1)%Z
  /\ ~ In id (map Database.g_id (Database.groups d))
  /\ (exists row, Database.g_id row = id
                  /\ Database.groups d1 = (Database.groups d ++ [row])%list)
  /\ Database.services d1 = Database.services d
  /\ Database.settings d1 = Database.settings d
  /\ forall d2 : Database.db,
       Database.delete_group id d1 = inr d2 ->
       Database.groups d2 = Database.groups d
       /\ forall (now' : string) (name' order' is_nas' : pyval) (id' : Z) (d3 : Database.db),
            Database.create_group real_text numeric_of_text now' name' order' is_nas' d2
            = inr (id', d3) ->
            id' = (id + 1)%Z.
Proof.
  intros Hok Hcreate.
  pose proof (create_group_effect real_text numeric_of_text _ _ _ _ _ _ _ Hcreate)
    as (Hid & (row & Hrow & _ & Hgroups) & Hseq & Hsettings & Hservices & _).
  destruct Hok as [Hg Hs].
  destruct (next_id_above (Database.groups_seq d) (map Database.g_id (Database.groups d)))
    as [_ Hlt].
  rewrite <- Hid in Hlt.
  split; [rewrite Hid; apply next_id_counter; exact Hg |].
  split.
  { intros Hin. rewrite Forall_forall in Hlt. specialize (Hlt id).
    apply list_elem_of_In in Hin. specialize (Hlt Hin). lia. }
  split; [exists row; split; assumption |].
  split; [exact Hservices |]. split; [exact Hsettings |].
  intros d2 Hdelete.
  pose proof (delete_group_effect _ _ _ Hdelete) as (Hg2 & Hseq2 & _).
  assert (Hback : Database.groups d2 = Database.groups d).
  { rewrite Hg2, Hgroups, List.filter_app. cbn [List.filter]. rewrite Hrow, Z.eqb_refl.
    cbn [negb]. rewrite app_nil_r. apply filter_all.
    rewrite Forall_map in Hlt. eapply Forall_impl; [exact Hlt |].
    intros g Hgid. cbn in Hgid. apply negb_true_iff, Z.eqb_neq. lia. }
  split; [exact Hback |].
  intros now' name' order' is_nas' id' d3 Hcreate'.
  pose proof (create_group_effect real_text numeric_of_text _ _ _ _ _ _ _ Hcreate')
    as (Hid' & _).
  rewrite Hid', Hback, Hseq2, Hseq. apply next_id_counter.
  destruct Hg as [Hnd Hle]. split; [exact Hnd |].
  eapply Forall_impl; [exact Hlt |]. cbn. intros. lia.
Qed.



Lemma bind_if_given_none (arg : pyval) (given : option Database.sqlval) :
  Database.bind_if_given arg = inr given -> arg = PyNone -> given = None.
Proof. intros H ->. inversion H. reflexivity. Qed.

Lemma bind_if_given_str (t : string) :
  Database.bind_if_given (PyStr t) = inr (Some (Database.SText t)).
Proof. reflexivity. Qed.

(** X8. [update_service] changes the rows of the given id only, and in
    them only the name and the columns whose argument is not [None]; the
    group of the service, its id and its creation time are never changed.
    (The view function passes [None] for a key the body lacks or gives as
    null.)  A [str] given for a URL or the icon is stored as it is. *)
Theorem update_service_sets_only_what_is_given (service_id : Z)
    (name url_public url_local icon order : pyval) (d d' : Database.db) :
  Database.update_service real_text numeric_of_text service_id
    name url_public url_local icon order d = inr d' ->
  Database.groups d' = Database.groups d
  /\ Database.settings d' = Database.settings d
  /\ exists f : Database.service_row -> Database.service_row,
       Database.services d' = map f (Database.services d)
       /\ forall s : Database.service_row,
            (Database.s_id s <> service_id -> f s = s)
            /\ Database.s_id (f s) = Database.s_id s
            /\ Database.s_group_id (f s) = Database.s_group_id s
            /\ Database.s_created_at (f s) = Database.s_created_at s
            /\ (url_public = PyNone -> Database.s_url_public (f s) = Database.s_url_public s)
            /\ (url_local = PyNone -> Database.s_url_local (f s) = Database.s_url_local s)
            /\ (icon = PyNone -> Database.s_icon (f s) = Database.s_icon s)
            /\ (order = PyNone -> Database.s_order_num (f s) = Database.s_order_num s)
            /\ (Database.s_id s = service_id ->
                forall t, url_public = PyStr t ->
                          Database.s_url_public (f s) = Database.SText t)
            /\ (Database.s_id s = service_id ->
                forall t, url_local = PyStr t ->
                          Database.s_url_local (f s) = Database.SText t)
            /\ (Database.s_id s = service_id ->
                forall t, icon = PyStr t -> Database.s_icon (f s) = Database.SText t)
            /\ (Database.s_id s = service_id ->
                forall t, name = PyStr t -> Database.s_name (f s) = Database.SText t).
Proof.
  unfold Database.update_service, bind, ret, raise. intros H.
  destruct (Database.sql_bind name) as [ex | vname] eqn:Ename; [discriminate |].
  destruct (Database.bind_if_given url_public) as [ex | gup] eqn:Eup; [discriminate |].
  destruct (Database.bind_if_given url_local) as [ex | gul] eqn:Eul; [discriminate |].
  destruct (Database.bind_if_given icon) as [ex | gic] eqn:Eic; [discriminate |].
  destruct (Database.bind_if_given order) as [ex | gorder] eqn:Eorder; [discriminate |].
  destruct (Database.sql_bind (PyInt service_id)) as [ex | vid]; [discriminate |].
  destruct (Database.is_null vname && _)%bool; [discriminate |].
  injection H as <-. fields.
  split; [reflexivity |]. split; [reflexivity |].
  eexists. split; [reflexivity |].
  intros s. cbn beta.
  destruct (Database.s_id s =? service_id)%Z eqn:Eid.
  - apply Z.eqb_eq in Eid.
    cbn [Database.s_id Database.s_group_id Database.s_created_at Database.s_url_public
         Database.s_url_local Database.s_icon Database.s_order_num Database.s_name].
    split; [intros Hne; contradiction |].
    split; [reflexivity |]. split; [reflexivity |]. split; [reflexivity |].
    split; [intros Hn; rewrite (bind_if_given_none _ _ Eup Hn); reflexivity |].
    split; [intros Hn; rewrite (bind_if_given_none _ _ Eul Hn); reflexivity |].
    split; [intros Hn; rewrite (bind_if_given_none _ _ Eic Hn); reflexivity |].
    split; [intros Hn; rewrite (bind_if_given_none _ _ Eorder Hn); reflexivity |].
    split; [intros _ t Ht; rewrite Ht, bind_if_given_str in Eup;
            injection Eup as <-; reflexivity |].
    split; [intros _ t Ht; rewrite Ht, bind_if_given_str in Eul;
            injection Eul as <-; reflexivity |].
    split; [intros _ t Ht; rewrite Ht, bind_if_given_str in Eic;
            injection Eic as <-; reflexivity |].
    intros _ t Ht. rewrite Ht in Ename. injection Ename as <-. reflexivity.
  - apply Z.eqb_neq in Eid.
    split; [reflexivity |]. repeat split; try reflexivity; intros; contradiction.
Qed.

(** X9. [update_group] changes the groups of the given id only: it sets the
    name, and the order when the order given is not [None]; the NAS flag,
    the id and the creation time stay, and so do the services and the
    settings.  A null name for a group that exists is refused and nothing
    is written. *)
Theorem update_group_sets_name_and_order (group_id : Z) (name order : pyval)
    (d : Database.db) :
  (forall d' : Database.db,
      Database.update_group real_text numeric_of_text group_id name order d = inr d' ->
      Database.services d' = Database.services d
      /\ Database.settings d' = Database.settings d
      /\ exists f : Database.group_row -> Database.group_row,
           Database.groups d' = map f (Database.groups d)
           /\ forall g : Database.group_row,
                (Database.g_id g <> group_id -> f g = g)
                /\ Database.g_id (f g) = Database.g_id g
                /\ Database.g_is_nas_service (f g) = Database.g_is_nas_service g
                /\ Database.g_created_at (f g) = Database.g_created_at g
                /\ (order = PyNone -> Database.g_order_num (f g) = Database.g_order_num g)
                /\ (Database.g_id g = group_id ->
                    forall t, name = PyStr t -> Database.g_name (f g) = Database.SText t)
                /\ (Database.g_id g = group_id ->
                    forall z, order = PyInt z -> int64 z ->
                              Database.g_order_num (f g) = Database.SInt z))
  /\ (name = PyNone -> In group_id (map Database.g_id (Database.groups d)) ->
      exists ex : exn,
        Database.update_group real_text numeric_of_text group_id name order d = inl ex).
Proof.
  split.
  - intros d'. unfold Database.update_group, bind, ret, raise. intros H.
    destruct (Database.sql_bind name) as [ex | vname] eqn:Ename; [discriminate |].
    destruct (if match order with PyNone => false | _ => true end
              then Database.sql_bind order else inr Database.SNull)
      as [ex | vorder] eqn:Eorder; [discriminate |].
    destruct (Database.sql_bind (PyInt group_id)) as [ex | vid]; [discriminate |].
    destruct (Database.is_null vname && _)%bool; [discriminate |].
    injection H as <-. fields.
    split; [reflexivity |]. split; [reflexivity |].
    eexists. split; [reflexivity |].
    intros g. cbn beta. destruct (Database.g_id g =? group_id)%Z eqn:Eid.
    + apply Z.eqb_eq in Eid.
      cbn [Database.g_id Database.g_is_nas_service Database.g_created_at
           Database.g_order_num Database.g_name].
      split; [intros Hne; contradiction |].
      split; [reflexivity |]. split; [reflexivity |]. split; [reflexivity |].
      split; [intros ->; reflexivity |].
      split.
      * intros _ t Ht. rewrite Ht in Ename. injection Ename as <-. reflexivity.
      * intros _ z Hz [Hlo Hhi]. rewrite Hz in Eorder |- *. cbn in Eorder.
        replace ((- 2 ^ 63 <=? z)%Z && (z <? 2 ^ 63)%Z)%bool with true in Eorder.
        { injection Eorder as <-. reflexivity. }
        symmetry. apply andb_true_iff. split; [apply Z.leb_le | apply Z.ltb_lt]; assumption.
    + apply Z.eqb_neq in Eid.
      split; [reflexivity |]. repeat split; try reflexivity; intros; contradiction.
  - intros -> Hin.
    assert (Hex : existsb (fun g => (Database.g_id g =? group_id)%Z) (Database.groups d)
                  = true).
    { apply existsb_exists. apply in_map_iff in Hin. destruct Hin as (g & Hg & Hin).
      exists g. split; [exact Hin | apply Z.eqb_eq; exact Hg]. }
    unfold Database.update_group, bind, ret, raise. cbn [Database.sql_bind].
    destruct (if match order with PyNone => false | _ => true end
              then Database.sql_bind order else inr Database.SNull) as [ex | vorder];
      [eexists; reflexivity |].
    destruct ((- 2 ^ 63 <=? group_id)%Z && (group_id <? 2 ^ 63)%Z)%bool;
      [| eexists; reflexivity].
    cbn [Database.is_null andb]. rewrite Hex. eexists. reflexivity.
Qed.

End Rows.

(** ** The characters of an encoding *)

Lemma index_of_in (c : ascii) (s : string) (i j : N) :
  Base64.index_of c s i = Some j -> In c (list_ascii_of_string s).
Proof.
  revert i. induction s as [| a s IH]; intros i H; simpl in H; [discriminate |].
  destruct (Ascii.eqb a c) eqn:E.
  - apply Ascii.eqb_eq in E. left. exact E.
  - right. exact (IH _ H).
Qed.

Lemma letter_in_alphabet (v : N) :
  Base64.letter_ok v = true -> In (Base64.b2a v) (list_ascii_of_string Base64.alphabet).
Proof.
  intros H. apply letter_ok_spec in H. destruct H as (_ & H & _).
  exact (index_of_in _ _ _ _ H).
Qed.

(** Every character of an encoding is a letter of the alphabet or [=]. *)
Lemma b64encode_chars_alphabet (bs : list byte) :
  Forall (fun c => In c (list_ascii_of_string Base64.alphabet) \/ c = Base64.pad)
         (Base64.b64encode_chars bs).
Proof.
  pose proof letter_in_alphabet as Hl.
  induction bs as [| a | a b | a b c rest IH] using bytes_by_three.
  - constructor.
  - destruct (byte_facts a) as (Ha0 & _ & Ha1 & _).
    cbn [Base64.b64encode_chars].
    repeat (apply List.Forall_cons; [first [left; apply Hl; assumption | right; reflexivity] |]).
    constructor.
  - destruct (byte_facts a) as (Ha0 & _).
    destruct (byte_facts b) as (_ & _ & _ & Hb2 & _).
    destruct (pair_facts a b) as (Hab1 & _).
    cbn [Base64.b64encode_chars].
    repeat (apply List.Forall_cons; [first [left; apply Hl; assumption | right; reflexivity] |]).
    constructor.
  - destruct (byte_facts a) as (Ha0 & _).
    destruct (byte_facts c) as (_ & Hc3 & _).
    destruct (pair_facts a b) as (Hab1 & _).
    destruct (pair_facts b c) as (_ & Hbc2 & _).
    cbn [Base64.b64encode_chars].
    repeat (apply List.Forall_cons; [left; apply Hl; assumption |]). exact IH.
Qed.

Lemma alphabet_forall (P : ascii -> bool) :
  forallb P (Base64.pad :: list_ascii_of_string Base64.alphabet) = true ->
  forall c, In c (list_ascii_of_string Base64.alphabet) \/ c = Base64.pad -> P c = true.
Proof.
  intros H c Hc. rewrite forallb_forall in H. apply H.
  destruct Hc as [Hc | ->]; [right; exact Hc | left; reflexivity].
Qed.

Lemma contains_char_chars (c : ascii) (l : list ascii) :
  Forall (fun a => Ascii.eqb a c = false) l ->
  Str.contains_char c (string_of_list_ascii l) = false.
Proof.
  induction 1 as [| a l Ha _ IH]; [reflexivity |].
  cbn [string_of_list_ascii Str.contains_char]. rewrite Ha. exact IH.
Qed.

Lemma contains_char_app (c : ascii) (s t : string) :
  Str.contains_char c (s +:+ t) = (Str.contains_char c s || Str.contains_char c t)%bool.
Proof.
  induction s as [| a s IH]; [reflexivity |].
  change (String a s +:+ t) with (String a (s +:+ t)).
  cbn [Str.contains_char]. rewrite IH. destruct (Ascii.eqb a c); reflexivity.
Qed.

(** An encoding has no comma. *)
Lemma b64encode_no_comma (bs : list byte) :
  Str.contains_char "," (Base64.b64encode bs) = false.
Proof.
  apply contains_char_chars.
  eapply List.Forall_impl; [| apply b64encode_chars_alphabet].
  intros c Hc.
  apply (alphabet_forall (fun a => negb (Ascii.eqb a ","))) in Hc;
    [apply negb_true_iff in Hc; exact Hc | vm_compute; reflexivity].
Qed.

(** A token has no space. *)
Lemma generate_token_no_space (e : env) :
  length (entropy e) = 32%nat -> Str.contains_char " " (generate_token e) = false.
Proof.
  intros Hlen. destruct (generate_token_text e 10 Hlen) as (letters & -> & Hc & _).
  apply contains_char_chars.
  assert (H : Forall (fun a => Ascii.eqb a " " = false) (letters ++ [Base64.pad])%list).
  { rewrite <- Hc. apply List.Forall_map.
    eapply List.Forall_impl; [| apply b64encode_chars_alphabet].
    intros c Hin.
    apply (alphabet_forall (fun a => negb (Ascii.eqb (Base64.urlsafe_char a) " "))) in Hin;
      [apply negb_true_iff in Hin; exact Hin | vm_compute; reflexivity]. }
  apply Forall_app in H. tauto.
Qed.

Lemma startswith_cons (a : ascii) (old s : string) :
  Str.startswith (String a old) s = true ->
  exists s', s = String a s' /\ Str.startswith old s' = true.
Proof.
  destruct s as [| b s]; cbn [Str.startswith]; [discriminate |].
  destruct (Ascii.eqb a b) eqn:E; [| discriminate].
  apply Ascii.eqb_eq in E. subst b. intros H. exists s. split; [reflexivity | exact H].
Qed.

Lemma startswith_bearer_space (s : string) :
  Str.startswith "Bearer " s = true -> Str.contains_char " " s = true.
Proof.
  intros H.
  repeat (apply startswith_cons in H; destruct H as (? & -> & H)).
  vm_compute. reflexivity.
Qed.

Lemma contains_bearer_space (s : string) :
  Str.contains_char " " s = false -> Str.contains "Bearer " s = false.
Proof.
  induction s as [| c s IH]; intros H; [reflexivity |].
  cbn [Str.contains].
  destruct (Str.startswith "Bearer " (String c s)) eqn:Hs.
  - apply startswith_bearer_space in Hs. congruence.
  - apply IH. cbn [Str.contains_char] in H. destruct (Ascii.eqb c " "); [discriminate | exact H].
Qed.

Lemma after_first_comma_app (a b : string) :
  Str.contains_char "," a = false -> after_first_comma (a +:+ "," +:+ b) = b.
Proof.
  induction a as [| c a IH]; intros H; [reflexivity |].
  change (String c a +:+ "," +:+ b) with (String c (a +:+ "," +:+ b)).
  cbn [Str.contains_char] in H. cbn [after_first_comma].
  destruct (Ascii.eqb c ","); [discriminate | exact (IH H)].
Qed.

(** The data URL of [content_type] and an encoding: [upload_icon] decodes
    the encoding when the content type has no comma. *)
Lemma payload_data_url (content_type : string) (bs : list byte) :
  Str.contains_char "," content_type = false ->
  payload (PyStr ("data:" +:+ content_type +:+ ";base64," +:+ Base64.b64encode bs))
  = inr (PyStr (Base64.b64encode bs)).
Proof.
  intros Hct. rewrite payload_eq.
  assert (Heq : "data:" +:+ content_type +:+ ";base64," +:+ Base64.b64encode bs
                = ("data:" +:+ content_type +:+ ";base64") +:+ "," +:+ Base64.b64encode bs).
  { rewrite !string_app_assoc. reflexivity. }
  assert (Hno : Str.contains_char "," ("data:" +:+ content_type +:+ ";base64") = false).
  { rewrite !contains_char_app, Hct. reflexivity. }
  rewrite Heq, contains_comma, !contains_char_app, (after_first_comma_app _ _ Hno).
  cbn [Str.contains_char]. rewrite Ascii.eqb_refl, orb_true_r.
  rewrite (before_comma_without _ (b64encode_no_comma bs)). reflexivity.
Qed.

Lemma b64decode_encoding (bs : list byte) :
  b64decode (PyStr (Base64.b64encode bs)) = inr bs.
Proof. unfold b64decode. rewrite b64decode_b64encode. reflexivity. Qed.

(** ** From the probe to the upload *)

Section Icons.

Variable image : Type.
Variable Image_open : list byte -> result image.
Variable image_size : image -> Z * Z.
Variable image_resize : image -> Z * Z -> result image.
Variable image_save_png : image -> result (list byte).

Local Abbreviation thumbnail_of := (thumbnail image image_size image_resize).
Local Abbreviation normalize_icon_of :=
  (normalize_icon image Image_open image_size image_resize image_save_png).

(** X10. What [fetch_icon] returns can be handed to [upload_icon]: when
    the content type the candidate declares has no comma, the icon text of
    an accepted candidate is cut at its only comma and decoded to exactly
    the bytes that were fetched, so the image opened is the one fetched.
    The same holds for the icon text [upload_icon] itself returns. *)
Theorem fetched_icon_uploads_back (e : env) (u : string) (w : world) (r : http_response) :
  http_get e (attempted w) u = inr r ->
  status_code r = 200 ->
  Str.contains_char "," (headers_get (headers r) "content-type" "image/x-icon") = false ->
  exists icon : string,
    fst (try_candidate e u w)
    = inr (Some (jsonify (PyDict [("success", PyBool true); ("icon", PyStr icon)])))
    /\ payload (PyStr icon) = inr (PyStr (Base64.b64encode (content r)))
    /\ b64decode (PyStr (Base64.b64encode (content r))) = inr (content r)
    /\ (forall (req : request) (items : list (string * pyval)),
          json req = inr (PyDict items) ->
          assoc "image" items = Some (PyStr icon) ->
          normalize_icon_of req
          = (let! img := Image_open (content r) in
             let! img := thumbnail_of img (128, 128)%Z in
             let! buffered := image_save_png img in
             ret (jsonify (PyDict [("success", PyBool true);
                                   ("icon", PyStr ("data:image/png;base64,"
                                                   +:+ Base64.b64encode buffered))]))))
    /\ (forall buffered : list byte,
          (let! piece := payload (PyStr ("data:image/png;base64,"
                                         +:+ Base64.b64encode buffered)) in
           b64decode piece) = inr buffered).
Proof.
  intros Hget Hstatus Hct.
  exists ("data:" +:+ headers_get (headers r) "content-type" "image/x-icon"
          +:+ ";base64," +:+ Base64.b64encode (content r)).
  split.
  { rewrite try_candidate_eq, Hget. unfold is_200. rewrite Hstatus. reflexivity. }
  split; [exact (payload_data_url _ _ Hct) |].
  split; [apply b64decode_encoding |].
  split.
  - intros req items Hjson Himage.
    rewrite (normalize_icon_from_payload image Image_open image_size image_resize
               image_save_png req (PyDict items) _ _ Hjson
               ltac:(unfold py_get; rewrite Himage; reflexivity)
               (payload_data_url _ _ Hct)).
    rewrite b64decode_encoding. reflexivity.
  - intros buffered.
    change ("data:image/png;base64," +:+ Base64.b64encode buffered)
      with ("data:" +:+ "image/png" +:+ ";base64," +:+ Base64.b64encode buffered).
    rewrite (payload_data_url "image/png" buffered eq_refl). cbn [bind].
    apply b64decode_encoding.
Qed.

End Icons.

(** ** Logging in and presenting the token *)

Lemma bearer_prefix_token (token : string) (j : result pyval) :
  Str.contains_char " " token = false ->
  bearer_token {| authorization := Some ("Bearer " +:+ token); json := j |} = token.
Proof.
  intros H. rewrite bearer_token_header.
  change ("Bearer " +:+ token) with ("" +:+ "Bearer " +:+ token).
  rewrite (replace_bearer_app token "" 0) by (simpl; lia).
  rewrite (replace_without _ _ _ (contains_bearer_space _ H)). reflexivity.
Qed.


Section Sessions.

Variable real_text : Z -> Z -> string.
Variable numeric_of_text : string -> option Database.sqlval.
Variable str_of_exn : exn -> string.
Variable py_repr : pyval -> string.
Variable urlparse : pyval -> result ParseResult.
Variable image : Type.
Variable Image_open : list byte -> result image.
Variable image_size : image -> Z * Z.
Variable image_resize : image -> Z * Z -> result image.
Variable image_save_png : image -> result (list byte).

Local Abbreviation view_of :=
  (view real_text numeric_of_text str_of_exn py_repr urlparse
        image Image_open image_size image_resize image_save_png).

(** X11. The token [authenticate] hands out can be presented as the
    client does, after the prefix [Bearer ]: a generated token has no space,
    so deleting [Bearer ] from the header leaves the token itself, which
    verifies in the world [authenticate] left; the list of groups, for
    one, is then served. *)
Theorem generated_token_passes_as_bearer (AUTH_KEY : string) (w : world)
    (h : option string) (items : list (string * pyval)) (e : env) (j : result pyval) :
  length (entropy e) = 32%nat ->
  submitted_secret items = PyStr AUTH_KEY ->
  let w' := snd (flask (authenticate AUTH_KEY real_text
                          {| authorization := h; json := inr (PyDict items) |} e) w) in
  let req := {| authorization := Some ("Bearer " +:+ generate_token e); json := j |} in
  Str.contains "Bearer " (generate_token e) = false
  /\ bearer_token req = generate_token e
  /\ truthy (verify_token (store w') (PyStr (bearer_token req))) = true
  /\ forall e' : env,
       flask (view_of GET_groups req e') w'
       = (jsonify (Database.get_all_groups (store w')), w').
Proof.
  intros Hlen Hkey w' req.
  pose proof (generate_token_no_space e Hlen) as Hsp.
  assert (Hb : bearer_token req = generate_token e) by exact (bearer_prefix_token _ _ Hsp).
  assert (Hv : truthy (verify_token (store w') (PyStr (bearer_token req))) = true).
  { rewrite Hb. subst w'. rewrite (authenticate_accepts AUTH_KEY real_text w h items e Hkey).
    cbn [snd store]. apply verify_token_truthy.
    split; [apply generate_token_nonempty, Hlen | apply stored_token_insert]. }
  split; [exact (contains_bearer_space _ Hsp) |].
  split; [exact Hb |]. split; [exact Hv |].
  intros e'. unfold flask. cbn [view]. unfold get_groups.
  rewrite (guard_passes _ _ _ Hv). reflexivity.
Qed.

(** X12. [verify] only reads: whatever the body, the world is the same
    afterwards.  For a [dict] body it answers 200 exactly when the [token]
    it carries is the stored token and is not empty, and 401 when it is
    another text or the key is missing; a body that is not a [dict] has no
    [get], which is Flask's 500 page; a body [request.json] refuses is
    answered with the code of that refusal. *)
Theorem verify_reads_only (req : request) (w : world) :
  snd (flask (verify req) w) = w
  /\ (forall (items : list (string * pyval)) (t : string),
        json req = inr (PyDict items) ->
        assoc "token" items = Some (PyStr t) ->
        (t <> "" /\ stored_token (store w) = Some t ->
         fst (flask (verify req) w) = jsonify (PyDict [("success", PyBool true)]))
        /\ (~ (t <> "" /\ stored_token (store w) = Some t) ->
            fst (flask (verify req) w)
            = jsonify_status (PyDict [("success", PyBool false)]) 401))
  /\ (forall items : list (string * pyval),
        json req = inr (PyDict items) ->
        assoc "token" items = None ->
        fst (flask (verify req) w) = jsonify_status (PyDict [("success", PyBool false)]) 401)
  /\ (forall data : pyval,
        json req = inr data ->
        (forall items, data <> PyDict items) ->
        fst (flask (verify req) w) = {| status := 500; body_of := ErrorPage AttributeError |})
  /\ (forall code : Z,
        json req = inl (HTTPException code) ->
        fst (flask (verify req) w)
        = {| status := code; body_of := ErrorPage (HTTPException code) |}).
Proof.
  unfold flask, verify, mbind, lift, query, mret.
  split.
  { destruct (json req) as [ex | data]; [reflexivity |].
    destruct (py_get data "token" (PyStr "")) as [ex | token]; [reflexivity |].
    destruct (truthy (verify_token (store w) token)); reflexivity. }
  split.
  { intros items t -> Ht. unfold py_get, ret. rewrite Ht.
    destruct (truthy (verify_token (store w) (PyStr t))) eqn:Hv.
    - split; [reflexivity |]. intros Hn. apply verify_token_truthy in Hv. contradiction.
    - split; [| reflexivity]. intros Hy. apply verify_token_truthy in Hy. congruence. }
  split.
  { intros items -> Ht. unfold py_get, ret. rewrite Ht.
    destruct (truthy (verify_token (store w) (PyStr ""))) eqn:Hv; [| reflexivity].
    apply verify_token_truthy in Hv. destruct Hv as [Hv _]. congruence. }
  split.
  { intros data -> Hnd. destruct data; try reflexivity. exfalso. eapply Hnd. reflexivity. }
  intros code ->. reflexivity.
Qed.


End Sessions.

(** ** The order of the listing *)

Lemma dyadic_compare_antisym (m1 e1 m2 e2 : Z) :
  dyadic_compare m2 e2 m1 e1 = CompOpp (dyadic_compare m1 e1 m2 e2).
Proof. unfold dyadic_compare. rewrite (Z.min_comm e2 e1). apply Z.compare_antisym. Qed.

Lemma sql_compare_antisym (a b : Database.sqlval) :
  Database.sql_compare b a = CompOpp (Database.sql_compare a b).
Proof.
  destruct a as [| x | m e | n | s], b as [| y | m' e' | n' | s'];
    cbn [Database.sql_compare CompOpp]; try reflexivity;
    try (destruct n; reflexivity); try (destruct n'; reflexivity).
  - apply Z.compare_antisym.
  - apply dyadic_compare_antisym.
  - apply dyadic_compare_antisym.
  - apply dyadic_compare_antisym.
  - destruct n, n'; reflexivity.
  - apply String.compare_antisym.
Qed.

(** Of two keys one is before the other. *)
Lemma key_le_total (a b : Database.sqlval * Z) :
  Database.key_le a b = false -> Database.key_le b a = true.
Proof.
  unfold Database.key_le. rewrite (sql_compare_antisym (fst a) (fst b)).
  destruct (Database.sql_compare (fst a) (fst b)); cbn [CompOpp];
    [| discriminate | reflexivity].
  intros H. apply Z.leb_gt in H. apply Z.leb_le. lia.
Qed.

Section Order.

Context {A : Type} (key : A -> Database.sqlval * Z).

Lemma insert_by_perm (x : A) (l : list A) :
  Permutation (Database.insert_by key x l) (x :: l).
Proof.
  induction l as [| y l IH]; cbn [Database.insert_by]; [reflexivity |].
  destruct (Database.key_le (key x) (key y)); [reflexivity |].
  rewrite IH. apply perm_swap.
Qed.

Lemma order_by_perm (l : list A) : Permutation (Database.order_by key l) l.
Proof.
  induction l as [| x l IH]; [reflexivity |].
  unfold Database.order_by in *. cbn [fold_right]. rewrite insert_by_perm.
  apply perm_skip. exact IH.
Qed.

Lemma insert_by_hd (a x : A) (l : list A) :
  in_order key a x -> HdRel (in_order key) a l ->
  HdRel (in_order key) a (Database.insert_by key x l).
Proof.
  intros Hax Hal. destruct l as [| y l]; cbn [Database.insert_by]; [constructor; exact Hax |].
  destruct (Database.key_le (key x) (key y)); constructor; [exact Hax |].
  inversion Hal; assumption.
Qed.

Lemma insert_by_sorted (x : A) (l : list A) :
  Sorted (in_order key) l -> Sorted (in_order key) (Database.insert_by key x l).
Proof.
  induction 1 as [| y l Hs IH Hhd]; cbn [Database.insert_by].
  - constructor; constructor.
  - destruct (Database.key_le (key x) (key y)) eqn:Hxy.
    + constructor; [constructor; assumption | constructor; exact Hxy].
    + constructor; [exact IH |].
      apply insert_by_hd; [exact (key_le_total _ _ Hxy) | exact Hhd].
Qed.

Lemma order_by_sorted (l : list A) : Sorted (in_order key) (Database.order_by key l).
Proof.
  induction l as [| x l IH]; [constructor |].
  unfold Database.order_by in *. cbn [fold_right]. apply insert_by_sorted. exact IH.
Qed.

End Order.

(** X14. [get_all_groups] lists every group of the table exactly once, in
    the order of [ORDER BY order_num, id], and under each group exactly the
    services whose [group_id] equals the id of the group, in that order
    too.  In that order a null [order_num] is before every number, numbers
    go by value, and rows with equal numbers go by id. *)
Theorem get_all_groups_in_order (d : Database.db) :
  (exists gs : list Database.group_row,
      Database.get_all_groups d = PyList (map (group_entry d) gs)
      /\ Permutation gs (Database.groups d)
      /\ Sorted (in_order (fun g => (Database.g_order_num g, Database.g_id g))) gs)
  /\ (forall group_id : Z,
        Permutation (listed_services d group_id)
          (List.filter (fun s => Database.sql_eq (Database.s_group_id s)
                                   (Database.SInt group_id))
                       (Database.services d))
        /\ Sorted (in_order (fun s => (Database.s_order_num s, Database.s_id s)))
                  (listed_services d group_id))
  /\ (forall (a b i j : Z),
        Database.key_le (Database.SInt a, i) (Database.SInt b, j) = true
        <-> (a < b \/ (a = b /\ i <= j))%Z)
  /\ (forall (v : Database.sqlval) (i j : Z),
        v <> Database.SNull -> Database.key_le (Database.SNull, i) (v, j) = true).
Proof.
  split.
  { eexists. split; [reflexivity |]. split; [apply order_by_perm | apply order_by_sorted]. }
  split.
  { intros group_id. split; [apply order_by_perm | apply order_by_sorted]. }
  split.
  { intros a b i j. unfold Database.key_le. cbn [fst snd Database.sql_compare].
    destruct (Z.compare_spec a b) as [Heq | Hlt | Hgt].
    - rewrite Z.leb_le. lia.
    - split; [left; exact Hlt | reflexivity].
    - split; [discriminate | lia]. }
  intros v i j Hv. unfold Database.key_le. cbn [fst snd].
  destruct v; [contradiction | reflexivity | reflexivity | reflexivity | reflexivity].
Qed.

(** ** Groups and their services *)

(** X15. [delete_group] deletes the group and nothing else: the services
    of the group stay in their table (the connection never enables
    [foreign_keys], so the [ON DELETE CASCADE] of the schema does not act),
    but no group of the listing shows them any more; the other groups are
    listed with the entries they had. *)
Theorem delete_group_keeps_its_services (group_id : Z) (d d' : Database.db) :
  Database.delete_group group_id d = inr d' ->
  Database.services d' = Database.services d
  /\ ~ In group_id (map Database.g_id (Database.groups d'))
  /\ (forall g, In g (Database.groups d') <->
                In g (Database.groups d) /\ Database.g_id g <> group_id)
  /\ (forall (s : Database.service_row) (g : Database.group_row),
        Database.s_group_id s = Database.SInt group_id ->
        In g (Database.groups d') ->
        Database.sql_eq (Database.s_group_id s) (Database.SInt (Database.g_id g)) = false)
  /\ (forall id, listed_services d' id = listed_services d id)
  /\ (forall g, group_entry d' g = group_entry d g).
Proof.
  intros H. apply delete_group_effect in H.
  destruct H as (Hgroups & _ & Hsettings & Hservices & _).
  assert (Hin : forall g, In g (Database.groups d') <->
                          In g (Database.groups d) /\ Database.g_id g <> group_id).
  { intros g. rewrite Hgroups, List.filter_In, negb_true_iff, Z.eqb_neq. reflexivity. }
  split; [exact Hservices |].
  split.
  { intros Hid. apply in_map_iff in Hid. destruct Hid as (g & Hg & Hing).
    apply Hin in Hing. tauto. }
  split; [exact Hin |].
  split.
  { intros s g Hs Hing. apply Hin in Hing. destruct Hing as [_ Hne].
    rewrite Hs. unfold Database.sql_eq. cbn [Database.sql_compare].
    destruct (Z.compare_spec group_id (Database.g_id g)); [congruence | reflexivity | reflexivity]. }
  split; [intros id; unfold listed_services; rewrite Hservices; reflexivity |].
  intros g. unfold group_entry, listed_services. rewrite Hservices. reflexivity.
Qed.

(** X16. [_init_db] makes sure a group is marked as the NAS group: it
    adds one, with the next id, when none is, and adds nothing when one is,
    so running it again (every start of the process runs it) changes
    nothing; it never touches the groups that exist, the services or the
    settings.  On an empty database it leaves the one group with id 1. *)
Theorem init_db_adds_the_nas_group_once (now now' : string) (d : Database.db) :
  existsb (fun g => Database.sql_eq (Database.g_is_nas_service g) (Database.SInt 1))
          (Database.groups (Database.init_db now d)) = true
  /\ Database.init_db now' (Database.init_db now d) = Database.init_db now d
  /\ (existsb (fun g => Database.sql_eq (Database.g_is_nas_service g) (Database.SInt 1))
              (Database.groups d) = true -> Database.init_db now d = d)
  /\ (exists added,
         Database.groups (Database.init_db now d) = (Database.groups d ++ added)%list
         /\ (length added <= 1)%nat)
  /\ Database.services (Database.init_db now d) = Database.services d
  /\ Database.settings (Database.init_db now d) = Database.settings d
  /\ Database.groups (Database.init_db now Database.empty)
     = [ {| Database.g_id := 1; Database.g_name := Database.SText "NAS服务";
            Database.g_order_num := Database.SInt 1;
            Database.g_is_nas_service := Database.SInt 1;
            Database.g_created_at := now |} ].
Proof.
  assert (Hnas : existsb (fun g => Database.sql_eq (Database.g_is_nas_service g)
                                     (Database.SInt 1))
                         (Database.groups (Database.init_db now d)) = true).
  { unfold Database.init_db.
    destruct (existsb _ (Database.groups d)) eqn:Hex; [exact Hex |].
    cbn [Database.groups]. rewrite existsb_app. cbn. apply orb_true_r. }
  split; [exact Hnas |].
  split.
  { unfold Database.init_db at 1. rewrite Hnas. reflexivity. }
  split.
  { intros Hex. unfold Database.init_db. rewrite Hex. reflexivity. }
  split.
  { unfold Database.init_db. destruct (existsb _ (Database.groups d)).
    - exists []. rewrite app_nil_r. split; [reflexivity | simpl; lia].
    - eexists [_]. split; [reflexivity | simpl; lia]. }
  split; [unfold Database.init_db; destruct (existsb _ (Database.groups d)); reflexivity |].
  split; [unfold Database.init_db; destruct (existsb _ (Database.groups d)); reflexivity |].
  reflexivity.
Qed.

(** ** Bodies that lack what a view function reads *)

Section Bodies.

Variable real_text : Z -> Z -> string.
Variable numeric_of_text : string -> option Database.sqlval.
Variable str_of_exn : exn -> string.
Variable py_repr : pyval -> string.
Variable urlparse : pyval -> result ParseResult.
Variable image : Type.
Variable Image_open : list byte -> result image.
Variable image_size : image -> Z * Z.
Variable image_resize : image -> Z * Z -> result image.
Variable image_save_png : image -> result (list byte).

Local Abbreviation view_of :=
  (view real_text numeric_of_text str_of_exn py_repr urlparse
        image Image_open image_size image_resize image_save_png).

(** X17. The view functions that create or update a group or a service
    read [name] (and [group_id]) with [data[...]], outside any [try]: for a
    request that passes the guard, a [dict] body without the key ends in
    Flask's 500 page for the [KeyError], not in a JSON answer, and nothing
    is written; [create_service] misses [group_id] before it misses [name].
    A name that is null is refused by the NOT NULL column when a row is
    created, with the same 500 page. *)
Theorem missing_field_is_a_500_page (req : request) (e : env) (w : world)
    (items : list (string * pyval)) :
  truthy (verify_token (store w) (PyStr (bearer_token req))) = true ->
  json req = inr (PyDict items) ->
  let page (ex : exn) := ({| status := 500; body_of := ErrorPage ex |}, w) in
  (assoc "name" items = None ->
   flask (view_of POST_groups req e) w = page (KeyError "name")
   /\ (forall id, flask (view_of (PUT_groups id) req e) w = page (KeyError "name"))
   /\ (forall id, flask (view_of (PUT_services id) req e) w = page (KeyError "name"))
   /\ (forall v, assoc "group_id" items = Some v ->
                 flask (view_of POST_services req e) w = page (KeyError "name")))
  /\ (assoc "group_id" items = None ->
      flask (view_of POST_services req e) w = page (KeyError "group_id"))
  /\ (assoc "name" items = Some PyNone ->
      assoc "order" items = None -> assoc "is_nas_service" items = None ->
      flask (view_of POST_groups req e) w = page SqliteError).
Proof.
  intros Hok Hjson page. subst page. cbv beta.
  split; [intros Hname; split; [| split; [| split]] | split].
  - unfold flask. cbn [view]. unfold create_group. rewrite (guard_passes _ _ _ Hok).
    unfold mbind, lift. rewrite Hjson. unfold py_getitem. rewrite Hname. reflexivity.
  - intros id. unfold flask. cbn [view]. unfold update_group.
    rewrite (guard_passes _ _ _ Hok).
    unfold mbind, lift. rewrite Hjson. unfold py_getitem. rewrite Hname. reflexivity.
  - intros id. unfold flask. cbn [view]. unfold update_service.
    rewrite (guard_passes _ _ _ Hok).
    unfold mbind, lift. rewrite Hjson. unfold py_getitem. rewrite Hname. reflexivity.
  - intros v Hgroup. unfold flask. cbn [view]. unfold create_service.
    rewrite (guard_passes _ _ _ Hok).
    unfold mbind, lift. rewrite Hjson. unfold py_getitem. rewrite Hgroup, Hname.
    reflexivity.
  - intros Hgroup. unfold flask. cbn [view]. unfold create_service.
    rewrite (guard_passes _ _ _ Hok).
    unfold mbind, lift. rewrite Hjson. unfold py_getitem. rewrite Hgroup. reflexivity.
  - intros Hname Horder Hnas. unfold flask. cbn [view]. unfold create_group.
    rewrite (guard_passes _ _ _ Hok).
    unfold mbind, lift, execute. rewrite Hjson. unfold py_getitem, py_get.
    rewrite Hname, Horder, Hnas. reflexivity.
Qed.

End Bodies.

(** ** A service from its creation to its deletion *)




Section Services.

Variable real_text : Z -> Z -> string.
Variable numeric_of_text : string -> option Database.sqlval.
Variable str_of_exn : exn -> string.
Variable py_repr : pyval -> string.
Variable urlparse : pyval -> result ParseResult.
Variable image : Type.
Variable Image_open : list byte -> result image.
Variable image_size : image -> Z * Z.
Variable image_resize : image -> Z * Z -> result image.
Variable image_save_png : image -> result (list byte).

Local Abbreviation view_of :=
  (view real_text numeric_of_text str_of_exn py_repr urlparse
        image Image_open image_size image_resize image_save_png).


(** X19. A JSON body that is not an object: the view functions that read
    it with [data[...]] raise [TypeError], and those that read it with
    [data.get] raise [AttributeError], both outside any [try], so the answer
    is Flask's 500 page and nothing is written; [save_settings] asks
    [in] first, so a list that does not hold the key is answered 200 with
    nothing saved. *)
Theorem body_that_is_no_object (AUTH_KEY : string) (req : request) (e : env) (w : world)
    (data : pyval) :
  truthy (verify_token (store w) (PyStr (bearer_token req))) = true ->
  json req = inr data ->
  (forall items, data <> PyDict items) ->
  let page (ex : exn) := ({| status := 500; body_of := ErrorPage ex |}, w) in
  flask (view_of POST_groups req e) w = page TypeError
  /\ (forall id, flask (view_of (PUT_groups id) req e) w = page TypeError)
  /\ flask (view_of POST_services req e) w = page TypeError
  /\ (forall id, flask (view_of (PUT_services id) req e) w = page TypeError)
  /\ flask (view_of POST_fetch_icon req e) w = page AttributeError
  /\ flask (authenticate AUTH_KEY real_text req e) w = page AttributeError
  /\ flask (verify req) w = page AttributeError
  /\ (forall l, data = PyList l ->
                existsb (fun v => py_eq v (PyStr "force_network_mode")) l = false ->
                flask (view_of POST_settings req e) w = (success, w)).
Proof.
  intros Hok Hjson Hnd page. subst page. cbv beta.
  assert (Hitem : forall key, py_getitem data key = inl TypeError).
  { intros key. destruct data; try reflexivity. exfalso. eapply Hnd. reflexivity. }
  assert (Hget : forall key default, py_get data key default = inl AttributeError).
  { intros key default. destruct data; try reflexivity. exfalso. eapply Hnd. reflexivity. }
  split.
  { unfold flask. cbn [view]. unfold create_group. rewrite (guard_passes _ _ _ Hok).
    unfold mbind, lift. rewrite Hjson, Hitem. reflexivity. }
  split.
  { intros id. unfold flask. cbn [view]. unfold update_group.
    rewrite (guard_passes _ _ _ Hok).
    unfold mbind, lift. rewrite Hjson, Hitem. reflexivity. }
  split.
  { unfold flask. cbn [view]. unfold create_service. rewrite (guard_passes _ _ _ Hok).
    unfold mbind, lift. rewrite Hjson, Hitem. reflexivity. }
  split.
  { intros id. unfold flask. cbn [view]. unfold update_service.
    rewrite (guard_passes _ _ _ Hok).
    unfold mbind, lift. rewrite Hjson, Hitem. reflexivity. }
  split.
  { unfold flask. cbn [view]. unfold fetch_icon. rewrite (guard_passes _ _ _ Hok).
    unfold mbind, lift. rewrite Hjson, Hget. reflexivity. }
  split.
  { unfold flask, authenticate, mbind, lift. rewrite Hjson, Hget. reflexivity. }
  split.
  { unfold flask, verify, mbind, lift. rewrite Hjson, Hget. reflexivity. }
  intros l -> Hl. unfold flask. cbn [view]. unfold save_settings.
  rewrite (guard_passes _ _ _ Hok).
  unfold mbind, lift, mret. rewrite Hjson. unfold py_in, ret. rewrite Hl. reflexivity.
Qed.

End Services.

(** * Runs on concrete inputs *)

(** ** Strings and base64 *)

Example replace_bearer_prefix : Str.replace "Bearer " "" "Bearer abc" = "abc".
Proof. reflexivity. Qed.

Example replace_bearer_inside : Str.replace "Bearer " "" "abBearer cdBearer " = "abcd".
Proof. reflexivity. Qed.

(** The deletion is one pass: what it leaves can again contain [Bearer ]. *)
Example replace_is_one_pass : Str.replace "Bearer " "" "BeaBearer rer x" = "Bearer x".
Proof. reflexivity. Qed.

Example split_two_commas :
  Str.split "," "data:image/png;base64,QUJD,REVG" = ["data:image/png;base64"; "QUJD"; "REVG"].
Proof. reflexivity. Qed.

Example b64encode_two_bytes : Base64.b64encode [x64; x32] = "ZDI=".
Proof. reflexivity. Qed.

Example b64decode_skips_comma :
  Base64.b64decode "QUJD,REVG"
  = inr ["A"%byte; "B"%byte; "C"%byte; "D"%byte; "E"%byte; "F"%byte].
Proof. reflexivity. Qed.

Example b64decode_stops_at_padding :
  Base64.b64decode "QUJDRA==QUJD" = inr ["A"%byte; "B"%byte; "C"%byte; "D"%byte].
Proof. reflexivity. Qed.

Example b64decode_incorrect_padding : Base64.b64decode "QUJDRA" = inl Base64.IncorrectPadding.
Proof. reflexivity. Qed.

Example b64decode_one_extra : Base64.b64decode "QUJDR" = inl Base64.OneExtraCharacter.
Proof. reflexivity. Qed.

Example token_of_draw_1 :
  Example.token_1 = "AAECAwQFBgcICQoLDA0ODxAREhMUFRYXGBkaGxwdHh8".
Proof. reflexivity. Qed.

Example thumbnail_size_1000_300 :
  Pillow.preserve_aspect_ratio 128 128 1000 300 = inr (Some (128, 38)%Z).
Proof. reflexivity. Qed.

Example thumbnail_size_1000_1 :
  Pillow.preserve_aspect_ratio 128 128 1000 1 = inr (Some (128, 1)%Z).
Proof. reflexivity. Qed.

(** Sizes for which the two heights around the proportional one keep the
    aspect equally well as exact quotients (for 352 by 15 both 5 and 6 are
    32/15 off); the keys computed in binary64 differ, and the second height
    is taken. *)
Example thumbnail_size_352_15 :
  Pillow.preserve_aspect_ratio 128 128 352 15 = inr (Some (128, 6)%Z).
Proof. vm_compute. reflexivity. Qed.

(** The twelve such sizes below 2000 by 2000, with the heights computed. *)
Example thumbnail_sizes_decided_in_binary64 :
  map (fun '(w, h) => Pillow.preserve_aspect_ratio 128 128 w h)
      [(352, 15); (636, 395); (704, 30); (1056, 45); (1272, 790); (1408, 60);
       (1424, 495); (1632, 325); (1680, 689); (1760, 75); (1908, 1185); (1928, 1815)]%Z
  = map (fun y => inr (Some (128, y)))
        [6; 80; 6; 6; 80; 6; 45; 26; 53; 6; 80; 121]%Z.
Proof. vm_compute. reflexivity. Qed.

(** A quotient and its rounding: [1 / 3] is not a [float]. *)
Example float_div_1_3 :
  Float.div 1 3 = (6004799503160661 # 18014398509481984)%Q.
Proof. vm_compute. reflexivity. Qed.

(** ** The session token *)

(** The fresh world, the default secret, then a second authentication with
    another draw. *)
Lemma authenticate_token_lifecycle_witness :
  length (entropy Example.env_1) = 32%nat
  /\ submitted_secret [("auth_key", PyStr Example.AUTH_KEY)] = PyStr Example.AUTH_KEY
  /\ (exists w',
        flask (authenticate Example.AUTH_KEY Example.real_text
                 (Example.auth_request (PyStr Example.AUTH_KEY)) Example.env_1)
          Example.fresh_world
        = (jsonify (PyDict [("success", PyBool true); ("token", PyStr Example.token_1)]), w')
        /\ truthy (verify_token (store w') (PyStr Example.token_1)) = true
        /\ truthy
             (verify_token
                (store (snd (flask (authenticate Example.AUTH_KEY Example.real_text
                                      (Example.auth_request (PyStr Example.AUTH_KEY))
                                      Example.env_2) w')))
                (PyStr Example.token_1)) = false)
  /\ flask (authenticate Example.AUTH_KEY Example.real_text
              (Example.auth_request (PyStr "guess")) Example.env_1)
        Example.fresh_world
     = (jsonify_status (PyDict [("success", PyBool false); ("message", PyStr "认证失败")]) 401,
        Example.fresh_world).
Proof.
  split; [reflexivity |]. split; [reflexivity |].
  destruct (authenticate_token_lifecycle Example.AUTH_KEY Example.real_text
              Example.fresh_world None [("auth_key", PyStr Example.AUTH_KEY)]
              Example.env_1 eq_refl) as [Hok _].
  destruct (authenticate_token_lifecycle Example.AUTH_KEY Example.real_text
              Example.fresh_world None [("auth_key", PyStr "guess")]
              Example.env_1 eq_refl) as [_ Hbad].
  split.
  - destruct (Hok eq_refl) as (w' & Hrun & _ & _ & _ & Hverify & Hnext).
    exists w'. split; [exact Hrun |]. split; [exact Hverify |].
    destruct (Hnext w' None [("auth_key", PyStr Example.AUTH_KEY)] Example.env_2
                eq_refl eq_refl) as (_ & _ & _ & Hold).
    + vm_compute. discriminate.
    + exact Hold.
  - apply Hbad. vm_compute. discriminate.
Defined.

Lemma verify_token_iff_stored_witness :
  truthy (verify_token (store Example.logged_in) (PyStr Example.token_1)) = true
  /\ truthy (verify_token (store Example.logged_in) (PyStr "")) = false.
Proof.
  destruct (verify_token_iff_stored (store Example.logged_in) Example.token_1)
    as (Htruthy & _ & Hempty & _).
  split; [| exact Hempty].
  apply Htruthy. split; [vm_compute; discriminate | vm_compute; reflexivity].
Defined.

(** ** The access guard *)

(** Creating a group without a header, in the fresh world. *)
Lemma unauthorized_changes_nothing_witness :
  truthy (verify_token (store Example.fresh_world)
            (PyStr (bearer_token {| authorization := None;
                                    json := inr (PyDict [("name", PyStr "Media")]) |})))
  = false
  /\ flask (Example.view_of POST_groups
              {| authorization := None; json := inr (PyDict [("name", PyStr "Media")]) |}
              Example.env_1) Example.fresh_world
     = ({| status := 401; body_of := Json (PyDict [("error", PyStr "Unauthorized")]) |},
        Example.fresh_world).
Proof.
  split; [reflexivity |].
  apply (unauthorized_changes_nothing Example.real_text Example.numeric_of_text
           Example.str_of_exn Example.py_repr Example.urlparse
           Example.image Example.Image_open Example.image_size Example.image_resize
           Example.image_save_png POST_groups).
  reflexivity.
Defined.

(** The same request with the token of the session creates the group. *)
Example authorized_create_group :
  let '(r, w) :=
    flask (Example.view_of POST_groups
             {| authorization := Example.bearer Example.token_1;
                json := inr (PyDict [("name", PyStr "Media")]) |}
             Example.env_1) Example.logged_in in
  r = jsonify (PyDict [("success", PyBool true); ("group_id", PyInt 2)])
  /\ map Database.g_name (Database.groups (store w))
     = [Database.SText "NAS服务"; Database.SText "Media"].
Proof. vm_compute. split; reflexivity. Qed.

Lemma bearer_token_deletes_every_occurrence_witness :
  bearer_token {| authorization := Some "xBearer yBearer z"; json := raise (HTTPException 415) |}
  = "xyz"
  /\ truthy (verify_token (store Example.logged_in)
               (PyStr (bearer_token {| authorization := Some Example.token_1;
                                       json := raise (HTTPException 415) |}))) = true
  /\ truthy (verify_token (Example.db_with_token "my Bearer token")
               (PyStr (bearer_token {| authorization := Example.bearer "my Bearer token";
                                       json := raise (HTTPException 415) |}))) = false.
Proof.
  destruct (bearer_token_deletes_every_occurrence Example.real_text Example.numeric_of_text
              Example.str_of_exn Example.py_repr Example.urlparse
              Example.image Example.Image_open Example.image_size Example.image_resize
              Example.image_save_png (raise (HTTPException 415)))
    as (_ & _ & Happ & _ & Hraw & Hmangled).
  split.
  - exact (Happ "x" "yBearer z").
  - split.
    + apply Hraw; [vm_compute; discriminate | reflexivity | reflexivity].
    + destruct (Hmangled (Example.db_with_token "my Bearer token") "my Bearer token"
                  eq_refl eq_refl) as (_ & Hfail & _).
      exact Hfail.
Defined.

(** ** The favicon probe *)

(** C4 as stated fails.  The first candidate is answered 203, a 2xx status,
    with a PNG body; [fetch_icon] passes it over, probes the other five and
    answers 404.  So "the first candidate with a 2xx status wins" does not
    hold of the probe. *)
Lemma first_2xx_candidate_is_passed_over :
  let e := Example.env_with Example.draw_1 Example.proxied_203 in
  let urls := favicon_urls Example.py_repr {| scheme := "http"; netloc := "nas.local" |}
                (PyStr "http://nas.local") in
  let answer := {| status_code := 203; content := ["A"%byte; "B"%byte; "C"%byte];
                   headers := [("Content-Type", "image/png")] |} in
  urls !! 0%nat = Some "http://nas.local/favicon.ico"
  /\ http_get e [] "http://nas.local/favicon.ico" = inr answer
  /\ is_2xx (status_code answer) = true
  /\ flask (fetch_icon Example.str_of_exn Example.py_repr Example.urlparse
              {| authorization := Example.bearer Example.token_1;
                 json := inr (PyDict [("url", PyStr "http://nas.local")]) |} e)
       Example.logged_in
     = ({| status := 404;
           body_of := Json (PyDict [("success", PyBool false);
                                    ("message", PyStr "无法获取图标")]) |},
        {| store := store Example.logged_in; attempted := urls |})
  /\ ~ first_accepted_wins is_2xx.
Proof.
  cbv zeta.
  split; [reflexivity |]. split; [reflexivity |]. split; [reflexivity |].
  split; [vm_compute; reflexivity |].
  intros Hclaim.
  specialize (Hclaim (Example.env_with Example.draw_1 Example.proxied_203)
                Example.fresh_world
                (favicon_urls Example.py_repr {| scheme := "http"; netloc := "nas.local" |}
                   (PyStr "http://nas.local"))
                0%nat "http://nas.local/favicon.ico"
                {| status_code := 203; content := ["A"%byte; "B"%byte; "C"%byte];
                   headers := [("Content-Type", "image/png")] |}
                eq_refl).
  assert (Hrun : probe (Example.env_with Example.draw_1 Example.proxied_203)
                   (favicon_urls Example.py_repr {| scheme := "http"; netloc := "nas.local" |}
                      (PyStr "http://nas.local")) Example.fresh_world
                 = (inr icon_not_found,
                    {| store := store Example.fresh_world;
                       attempted := favicon_urls Example.py_repr
                                      {| scheme := "http"; netloc := "nas.local" |}
                                      (PyStr "http://nas.local") |}))
    by (vm_compute; reflexivity).
  rewrite Hrun in Hclaim.
  assert (Habsurd : (inr icon_not_found : result response)
                    = inr (data_uri_response
                             {| status_code := 203; content := ["A"%byte; "B"%byte; "C"%byte];
                                headers := [("Content-Type", "image/png")] |})).
  { refine (f_equal fst (Hclaim _ eq_refl eq_refl)). intros i ui Hi. lia. }
  discriminate Habsurd.
Qed.

(** [/favicon.ico] is answered 404 and [/favicon.png] is answered 200: the
    second candidate is returned and no third GET is sent. *)
Lemma accepts_first_status_200_witness :
  let e := Example.env_with Example.draw_1 Example.png_only in
  let urls := favicon_urls Example.py_repr {| scheme := "http"; netloc := "nas.local" |}
                (PyStr "http://nas.local") in
  probe e urls Example.fresh_world
  = (inr {| status := 200;
            body_of := Json (PyDict [("success", PyBool true);
                                     ("icon", PyStr "data:image/png;base64,QUJD")]) |},
     {| store := store Example.fresh_world;
        attempted := ["http://nas.local/favicon.ico"; "http://nas.local/favicon.png"] |}).
Proof.
  cbv zeta.
  refine (proj1 accepts_first_status_200
            (Example.env_with Example.draw_1 Example.png_only) Example.fresh_world
            (favicon_urls Example.py_repr {| scheme := "http"; netloc := "nas.local" |}
               (PyStr "http://nas.local"))
            1%nat "http://nas.local/favicon.png"
            {| status_code := 200; content := ["A"%byte; "B"%byte; "C"%byte];
               headers := [("Content-Type", "image/png")] |}
            eq_refl _ eq_refl eq_refl).
  intros i ui Hi Hui.
  destruct i as [| i]; [| lia].
  injection Hui as <-. reflexivity.
Defined.


(** A URL that [urlparse] refuses is the 500 case, and no GET is sent. *)
Example unparsable_url_is_500 :
  flask (fetch_icon Example.str_of_exn Example.py_repr Example.urlparse
           {| authorization := Example.bearer Example.token_1;
              json := inr (PyDict [("url", PyStr "http://[nas")]) |} Example.env_1)
    Example.logged_in
  = ({| status := 500;
        body_of := Json (PyDict [("success", PyBool false); ("message", PyStr "error")]) |},
     Example.logged_in).
Proof. vm_compute. reflexivity. Qed.

Lemma six_candidates_in_order_witness :
  favicon_urls Example.py_repr {| scheme := "http"; netloc := "nas.local" |}
    (PyStr "http://nas.local/")
  = ["http://nas.local/favicon.ico"; "http://nas.local/favicon.png";
     "http://nas.local/apple-touch-icon.png";
     "http://nas.local/apple-touch-icon-precomposed.png";
     "http://nas.local/static/favicon.ico";
     "http://nas.local//favicon.ico"]
  /\ favicon_urls Example.py_repr {| scheme := "http"; netloc := "nas.local" |}
       (PyStr "http://nas.local/") !! 5%nat
     = Some "http://nas.local//favicon.ico"
  /\ exists (r : response) (k : nat),
       (1 <= k <= 6)%nat
       /\ flask (fetch_icon Example.str_of_exn Example.py_repr Example.urlparse
                  {| authorization := Example.bearer Example.token_1;
                     json := inr (PyDict [("url", PyStr "http://nas.local")]) |}
                  Example.env_1) Example.logged_in
          = (r, {| store := store Example.logged_in;
                   attempted :=
                     attempted Example.logged_in
                     ++ take k (favicon_urls Example.py_repr
                                  {| scheme := "http"; netloc := "nas.local" |}
                                  (PyStr "http://nas.local")) |}).
Proof.
  destruct (six_candidates_in_order Example.str_of_exn Example.py_repr Example.urlparse
              {| scheme := "http"; netloc := "nas.local" |} "http://nas.local/")
    as (Hlist & _ & Hslash & _).
  destruct (six_candidates_in_order Example.str_of_exn Example.py_repr Example.urlparse
              {| scheme := "http"; netloc := "nas.local" |} "http://nas.local")
    as (_ & _ & _ & Hsent).
  split; [exact Hlist |].
  split; [exact (Hslash "http://nas.local" eq_refl) |].
  exact (Hsent {| authorization := Example.bearer Example.token_1;
                  json := inr (PyDict [("url", PyStr "http://nas.local")]) |}
           Example.env_1 Example.logged_in (PyDict [("url", PyStr "http://nas.local")])
           eq_refl eq_refl eq_refl eq_refl).
Defined.

(** ** The icon normaliser *)

(** C7 as stated fails.  For a text with two commas [upload_icon] decodes
    the piece between them, not the whole remainder after the first: here
    the bytes [ABC], where the whole remainder would decode to [ABCDEF]. *)
Lemma whole_remainder_is_not_decoded :
  Str.contains "," "data:image/png;base64,QUJD,REVG" = true
  /\ after_first_comma "data:image/png;base64,QUJD,REVG" = "QUJD,REVG"
  /\ payload (PyStr "data:image/png;base64,QUJD,REVG") = inr (PyStr "QUJD")
  /\ b64decode (PyStr "QUJD") = inr ["A"%byte; "B"%byte; "C"%byte]
  /\ b64decode (PyStr "QUJD,REVG")
     = inr ["A"%byte; "B"%byte; "C"%byte; "D"%byte; "E"%byte; "F"%byte]
  /\ ~ decodes_whole_remainder.
Proof.
  split; [reflexivity |]. split; [reflexivity |]. split; [reflexivity |].
  split; [reflexivity |]. split; [reflexivity |].
  intros Hclaim.
  specialize (Hclaim "data:image/png;base64,QUJD,REVG" eq_refl).
  vm_compute in Hclaim. discriminate Hclaim.
Qed.

Lemma decodes_text_up_to_second_comma_witness :
  payload (PyStr "data:image/png;base64,QUJD,REVG") = inr (PyStr "QUJD")
  /\ payload (PyStr "data:image/png;base64,ZDI=") = inr (PyStr "ZDI=")
  /\ payload (PyStr "ZDI=") = inr (PyStr "ZDI=").
Proof.
  split.
  - exact (proj1 (decodes_text_up_to_second_comma Example.image Example.Image_open
                    Example.image_size Example.image_resize Example.image_save_png
                    "data:image/png;base64,QUJD,REVG")).
  - split.
    + destruct (decodes_text_up_to_second_comma Example.image Example.Image_open
                  Example.image_size Example.image_resize Example.image_save_png
                  "data:image/png;base64,ZDI=") as (_ & _ & Hone & _).
      exact (Hone eq_refl eq_refl).
    + destruct (decodes_text_up_to_second_comma Example.image Example.Image_open
                  Example.image_size Example.image_resize Example.image_save_png
                  "ZDI=") as (_ & Hnone & _).
      exact (Hnone eq_refl).
Defined.

(** An upload of 1000 by 500 comes back as the PNG of 128 by 64. *)
Lemma icon_fits_128_without_upscaling_witness :
  (forall i size i', Example.image_resize i size = inr i' -> Example.image_size i' = size)
  /\ normalize_icon Example.image Example.Image_open Example.image_size
       Example.image_resize Example.image_save_png
       (Example.upload_request None "data:image/png;base64,ZDI=")
     = inr (jsonify (PyDict [("success", PyBool true);
                             ("icon", PyStr "data:image/png;base64,gEA=")]))
  /\ exists (img_bytes : list byte) (img img' : Example.image) (png : list byte),
       Example.Image_open img_bytes = inr img
       /\ thumbnail Example.image Example.image_size Example.image_resize img (128, 128)%Z
          = inr img'
       /\ (Example.image_size img = (1000, 500)%Z -> Example.image_size img' = (128, 64)%Z)
       /\ (fst (Example.image_size img') <= 128)%Z
       /\ (snd (Example.image_size img') <= 128)%Z.
Proof.
  assert (Hresize : forall i size i',
             Example.image_resize i size = inr i' -> Example.image_size i' = size).
  { intros i size i' H. injection H as <-. reflexivity. }
  split; [exact Hresize |]. split; [reflexivity |].
  destruct (icon_fits_128_without_upscaling Example.image Example.Image_open
              Example.image_size Example.image_resize Example.image_save_png Hresize
              (Example.upload_request None "data:image/png;base64,ZDI=")
              (jsonify (PyDict [("success", PyBool true);
                                ("icon", PyStr "data:image/png;base64,gEA=")]))
              eq_refl)
    as (img_bytes & img & img' & png & Hopen & Hthumb & _ & _ & Hw & Hh & _ & _ & _ & H1000).
  exists img_bytes, img, img', png.
  split; [exact Hopen |]. split; [exact Hthumb |]. split; [exact H1000 |].
  split; [exact Hw | exact Hh].
Defined.

(** An upload of 50 by 50 comes back as the PNG of 50 by 50. *)
Example upload_50_by_50_keeps_size :
  normalize_icon Example.image Example.Image_open Example.image_size
    Example.image_resize Example.image_save_png
    (Example.upload_request None (Base64.b64encode [x05; x05]))
  = inr (jsonify (PyDict [("success", PyBool true);
                          ("icon", PyStr ("data:image/png;base64,"
                                          +:+ Base64.b64encode [x32; x32]))])).
Proof. reflexivity. Qed.

(** Malformed base64 behind a valid token: a 500 with a JSON body. *)
Lemma upload_icon_failures_are_structured_witness :
  truthy (verify_token (store Example.logged_in)
            (PyStr (bearer_token
                      (Example.upload_request (Example.bearer Example.token_1)
                         "data:image/png;base64,QUJDRA")))) = true
  /\ normalize_icon Example.image Example.Image_open Example.image_size
       Example.image_resize Example.image_save_png
       (Example.upload_request (Example.bearer Example.token_1)
          "data:image/png;base64,QUJDRA")
     = inl BinasciiError
  /\ flask (upload_icon Example.str_of_exn Example.image Example.Image_open
              Example.image_size Example.image_resize Example.image_save_png
              (Example.upload_request (Example.bearer Example.token_1)
                 "data:image/png;base64,QUJDRA"))
       Example.logged_in
     = ({| status := 500;
           body_of := Json (PyDict [("success", PyBool false);
                                    ("message", PyStr "Incorrect padding")]) |},
        Example.logged_in).
Proof.
  split; [vm_compute; reflexivity |]. split; [reflexivity |].
  destruct (upload_icon_failures_are_structured Example.str_of_exn Example.image
              Example.Image_open Example.image_size Example.image_resize
              Example.image_save_png
              (Example.upload_request (Example.bearer Example.token_1)
                 "data:image/png;base64,QUJDRA")
              Example.logged_in) as (_ & _ & Hbehind).
  destruct (Hbehind ltac:(vm_compute; reflexivity)) as (Hcaught & _).
  exact (Hcaught BinasciiError eq_refl).
Defined.

(** Bytes that are no image, and a body that is not an object. *)
Example upload_not_an_image :
  fst (flask (upload_icon Example.str_of_exn Example.image Example.Image_open
                Example.image_size Example.image_resize Example.image_save_png
                (Example.upload_request (Example.bearer Example.token_1) "QUJD"))
         Example.logged_in)
  = {| status := 500;
       body_of := Json (PyDict [("success", PyBool false); ("message", PyStr "error")]) |}.
Proof. vm_compute. reflexivity. Qed.

Example upload_body_is_a_list :
  fst (flask (upload_icon Example.str_of_exn Example.image Example.Image_open
                Example.image_size Example.image_resize Example.image_save_png
                {| authorization := Example.bearer Example.token_1;
                   json := inr (PyList [PyStr "x"]) |})
         Example.logged_in)
  = {| status := 500;
       body_of := Json (PyDict [("success", PyBool false); ("message", PyStr "error")]) |}.
Proof. vm_compute. reflexivity. Qed.

(** ** The store and the view functions *)

Lemma fresh_db_ok : store_ok Example.fresh_db.
Proof.
  split; split.
  - apply NoDup_singleton.
  - repeat constructor. vm_compute. discriminate.
  - apply NoDup_nil_2.
  - constructor.
Qed.

Lemma logged_in_ok : store_ok (store Example.logged_in).
Proof. exact fresh_db_ok. Qed.

Lemma db_with_service_ok : store_ok Example.db_with_service.
Proof.
  split; split.
  - apply NoDup_singleton.
  - repeat constructor. vm_compute. discriminate.
  - apply NoDup_singleton.
  - repeat constructor. vm_compute. discriminate.
Qed.

Lemma session_request_passes (items : list (string * pyval)) :
  truthy (verify_token (store Example.logged_in)
            (PyStr (bearer_token (Example.session_request items)))) = true.
Proof. vm_compute. reflexivity. Qed.



(** Creating a group in the session keeps the keys in order. *)
Lemma requests_keep_ids_unique_witness :
  store_ok (store Example.logged_in)
  /\ store_ok (store (snd (flask (Example.view_of POST_groups
                                    (Example.session_request [("name", PyStr "Media")])
                                    Example.env_1) Example.logged_in))).
Proof.
  split; [exact logged_in_ok |].
  destruct (requests_keep_ids_unique Example.real_text Example.numeric_of_text
              Example.str_of_exn Example.py_repr Example.urlparse
              Example.image Example.Image_open Example.image_size Example.image_resize
              Example.image_save_png) as (_ & _ & _ & Hview).
  exact (Hview POST_groups (Example.session_request [("name", PyStr "Media")])
           Example.env_1 Example.logged_in logged_in_ok).
Defined.

(** An update without a name ends in a 500 page and writes nothing. *)
Lemma no_write_without_200_witness :
  status (fst (flask (Example.view_of (PUT_groups 1)
                        (Example.session_request [("order", PyInt 3)])
                        Example.env_1) Example.logged_in)) <> 200
  /\ store (snd (flask (Example.view_of (PUT_groups 1)
                          (Example.session_request [("order", PyInt 3)])
                          Example.env_1) Example.logged_in))
     = store Example.logged_in.
Proof.
  assert (H : status (fst (flask (Example.view_of (PUT_groups 1)
                                    (Example.session_request [("order", PyInt 3)])
                                    Example.env_1) Example.logged_in)) <> 200)
    by (vm_compute; discriminate).
  split; [exact H |].
  destruct (no_write_without_200 Example.real_text Example.numeric_of_text
              Example.str_of_exn Example.py_repr Example.urlparse
              Example.image Example.Image_open Example.image_size Example.image_resize
              Example.image_save_png) as (Hview & _).
  exact (Hview (PUT_groups 1) (Example.session_request [("order", PyInt 3)])
           Example.env_1 Example.logged_in H).
Defined.

(** Listing the groups in the session leaves the world as it is. *)
Lemma reading_routes_do_not_write_witness :
  read_only GET_groups = true
  /\ snd (flask (Example.view_of GET_groups (Example.session_request [])
                   Example.env_1) Example.logged_in)
     = Example.logged_in.
Proof.
  split; [reflexivity |].
  destruct (reading_routes_do_not_write Example.real_text Example.numeric_of_text
              Example.str_of_exn Example.py_repr Example.urlparse
              Example.image Example.Image_open Example.image_size Example.image_resize
              Example.image_save_png GET_groups (Example.session_request [])
              Example.env_1 Example.logged_in eq_refl) as (_ & Hworld & _).
  apply Hworld. discriminate.
Defined.

(** The second group of a fresh database gets the key 2. *)
Lemma create_group_never_reuses_an_id_witness :
  store_ok Example.fresh_db
  /\ exists d1,
       Database.create_group Example.real_text Example.numeric_of_text
         "2024-01-02 03:04:05" (PyStr "Media") (PyInt 999) (PyBool false) Example.fresh_db
       = inr (2, d1)
       /\ 2 = Database.groups_seq Example.fresh_db + 1
       /\ ~ In 2 (map Database.g_id (Database.groups Example.fresh_db)).
Proof.
  split; [exact fresh_db_ok |].
  eexists. split; [vm_compute; reflexivity |].
  destruct (create_group_never_reuses_an_id Example.real_text Example.numeric_of_text
              "2024-01-02 03:04:05" (PyStr "Media") (PyInt 999) (PyBool false)
              Example.fresh_db _ 2 fresh_db_ok eq_refl) as (Hid & Hnew & _).
  split; [exact Hid | exact Hnew].
Defined.


(** Renaming the service and giving it an icon keeps its URLs and order. *)
Lemma update_service_sets_only_what_is_given_witness :
  exists d',
    Database.update_service Example.real_text Example.numeric_of_text 1
      (PyStr "Plex Media Server") PyNone PyNone (PyStr "data:image/png;base64,QUJD") PyNone
      Example.db_with_service = inr d'
    /\ Database.groups d' = Database.groups Example.db_with_service
    /\ exists f,
         Database.services d' = map f (Database.services Example.db_with_service)
         /\ Database.s_url_public (f Example.plex) = Database.s_url_public Example.plex
         /\ Database.s_order_num (f Example.plex) = Database.s_order_num Example.plex
         /\ Database.s_name (f Example.plex) = Database.SText "Plex Media Server".
Proof.
  eexists. split; [vm_compute; reflexivity |].
  destruct (update_service_sets_only_what_is_given
              Example.real_text Example.numeric_of_text 1
              (PyStr "Plex Media Server") PyNone PyNone (PyStr "data:image/png;base64,QUJD")
              PyNone Example.db_with_service _ eq_refl) as (Hgroups & _ & f & Hmap & Hf).
  split; [exact Hgroups |].
  exists f. split; [exact Hmap |].
  destruct (Hf Example.plex) as (_ & _ & _ & _ & Hpublic & _ & _ & Horder & _ & _ & _ & Hname).
  split; [exact (Hpublic eq_refl) |]. split; [exact (Horder eq_refl) |].
  exact (Hname eq_refl _ eq_refl).
Defined.

(** Renaming the first group and moving it to place 3. *)
Lemma update_group_sets_name_and_order_witness :
  exists d',
    Database.update_group Example.real_text Example.numeric_of_text 1
      (PyStr "Home") (PyInt 3) Example.db_with_service = inr d'
    /\ Database.services d' = Database.services Example.db_with_service
    /\ exists f,
         Database.groups d' = map f (Database.groups Example.db_with_service)
         /\ forall g, Database.g_id g = 1 ->
                      Database.g_name (f g) = Database.SText "Home"
                      /\ Database.g_order_num (f g) = Database.SInt 3
                      /\ Database.g_is_nas_service (f g) = Database.g_is_nas_service g.
Proof.
  eexists. split; [vm_compute; reflexivity |].
  destruct (update_group_sets_name_and_order Example.real_text Example.numeric_of_text 1
              (PyStr "Home") (PyInt 3) Example.db_with_service) as (Hset & _).
  destruct (Hset _ eq_refl) as (Hservices & _ & f & Hmap & Hf).
  split; [exact Hservices |].
  exists f. split; [exact Hmap |].
  intros g Hg. destruct (Hf g) as (_ & _ & Hnas & _ & _ & Hname & Horder).
  split; [exact (Hname Hg _ eq_refl) |].
  split; [| exact Hnas].
  apply (Horder Hg 3 eq_refl). split; [discriminate | reflexivity].
Defined.

(** The icon fetched from [/favicon.png] is decoded to the bytes fetched. *)
Lemma fetched_icon_uploads_back_witness :
  let e := Example.env_with Example.draw_1 Example.png_only in
  let r := {| status_code := 200; content := ["A"%byte; "B"%byte; "C"%byte];
              headers := [("Content-Type", "image/png")] |} in
  http_get e (attempted Example.logged_in) "http://nas.local/favicon.png" = inr r
  /\ status_code r = 200
  /\ Str.contains_char "," (headers_get (headers r) "content-type" "image/x-icon") = false
  /\ exists icon,
       fst (try_candidate e "http://nas.local/favicon.png" Example.logged_in)
       = inr (Some (jsonify (PyDict [("success", PyBool true); ("icon", PyStr icon)])))
       /\ payload (PyStr icon) = inr (PyStr (Base64.b64encode (content r)))
       /\ b64decode (PyStr (Base64.b64encode (content r))) = inr (content r).
Proof.
  intros e r.
  split; [reflexivity |]. split; [reflexivity |]. split; [reflexivity |].
  destruct (fetched_icon_uploads_back Example.image Example.Image_open Example.image_size
              Example.image_resize Example.image_save_png
              e "http://nas.local/favicon.png" Example.logged_in r
              eq_refl eq_refl eq_refl) as (icon & Hfetch & Hpayload & Hdecode & _).
  exists icon. split; [exact Hfetch |]. split; [exact Hpayload | exact Hdecode].
Defined.

(** The token of the first draw, presented after [Bearer ]. *)
Lemma generated_token_passes_as_bearer_witness :
  length (entropy Example.env_1) = 32%nat
  /\ submitted_secret [("auth_key", PyStr Example.AUTH_KEY)] = PyStr Example.AUTH_KEY
  /\ bearer_token (Example.session_request []) = Example.token_1
  /\ flask (Example.view_of GET_groups (Example.session_request []) Example.env_2)
       Example.logged_in
     = (jsonify (Database.get_all_groups (store Example.logged_in)), Example.logged_in).
Proof.
  split; [reflexivity |]. split; [reflexivity |].
  destruct (generated_token_passes_as_bearer Example.real_text Example.numeric_of_text
              Example.str_of_exn Example.py_repr Example.urlparse
              Example.image Example.Image_open Example.image_size Example.image_resize
              Example.image_save_png Example.AUTH_KEY Example.fresh_world None
              [("auth_key", PyStr Example.AUTH_KEY)] Example.env_1 (inr (PyDict []))
              eq_refl eq_refl) as (_ & Htoken & _ & Hgroups).
  split; [exact Htoken | exact (Hgroups Example.env_2)].
Defined.

(** The token of the session, sent to [/api/verify]. *)
Lemma verify_reads_only_witness :
  let req := {| authorization := None;
                json := inr (PyDict [("token", PyStr Example.token_1)]) |} in
  (Example.token_1 <> "" /\ stored_token (store Example.logged_in) = Some Example.token_1)
  /\ flask (verify req) Example.logged_in
     = (jsonify (PyDict [("success", PyBool true)]), Example.logged_in).
Proof.
  intros req.
  assert (H : Example.token_1 <> ""
              /\ stored_token (store Example.logged_in) = Some Example.token_1)
    by (split; [vm_compute; discriminate | vm_compute; reflexivity]).
  split; [exact H |].
  destruct (verify_reads_only req Example.logged_in) as (Hworld & Hstr & _).
  destruct (Hstr [("token", PyStr Example.token_1)] Example.token_1 eq_refl eq_refl)
    as (Hyes & _).
  rewrite (surjective_pairing (flask (verify req) Example.logged_in)).
  rewrite Hworld, (Hyes H). reflexivity.
Defined.


(** A group without order is listed before the groups with one. *)
Lemma get_all_groups_in_order_witness :
  Database.SInt 1 <> Database.SNull
  /\ Database.key_le (Database.SNull, 5) (Database.SInt 1, 2) = true
  /\ Database.key_le (Database.SInt 4, 9) (Database.SInt 4, 12) = true
  /\ Permutation (listed_services Example.db_with_service 1) [Example.plex].
Proof.
  assert (H : Database.SInt 1 <> Database.SNull) by discriminate.
  split; [exact H |].
  destruct (get_all_groups_in_order Example.db_with_service) as (_ & Hservices & Hint & Hnull).
  split; [exact (Hnull (Database.SInt 1) 5 2 H) |].
  split; [apply Hint; right; split; [reflexivity | discriminate] |].
  exact (proj1 (Hservices 1)).
Defined.

(** Deleting the group of the service leaves the service. *)
Lemma delete_group_keeps_its_services_witness :
  exists d',
    Database.delete_group 1 Example.db_with_service = inr d'
    /\ Database.services d' = [Example.plex]
    /\ Database.groups d' = []
    /\ listed_services d' 1 = listed_services Example.db_with_service 1.
Proof.
  eexists. split; [vm_compute; reflexivity |].
  destruct (delete_group_keeps_its_services 1 Example.db_with_service _ eq_refl)
    as (Hservices & _ & _ & _ & Hlisted & _).
  split; [exact Hservices |]. split; [reflexivity | exact (Hlisted 1)].
Defined.

(** A second start of the process on the fresh database. *)
Lemma init_db_adds_the_nas_group_once_witness :
  existsb (fun g => Database.sql_eq (Database.g_is_nas_service g) (Database.SInt 1))
          (Database.groups Example.fresh_db) = true
  /\ Database.init_db "2024-02-01 00:00:00" Example.fresh_db = Example.fresh_db.
Proof.
  assert (H : existsb (fun g => Database.sql_eq (Database.g_is_nas_service g)
                                  (Database.SInt 1))
                (Database.groups Example.fresh_db) = true) by reflexivity.
  split; [exact H |].
  destruct (init_db_adds_the_nas_group_once "2024-02-01 00:00:00" "2024-02-01 00:00:00"
              Example.fresh_db) as (_ & _ & Hsame & _).
  exact (Hsame H).
Defined.

(** A group posted without a name. *)
Lemma missing_field_is_a_500_page_witness :
  let req := Example.session_request [("order", PyInt 3)] in
  truthy (verify_token (store Example.logged_in) (PyStr (bearer_token req))) = true
  /\ json req = inr (PyDict [("order", PyInt 3)])
  /\ assoc "name" [("order", PyInt 3)] = (None : option pyval)
  /\ flask (Example.view_of POST_groups req Example.env_1) Example.logged_in
     = ({| status := 500; body_of := ErrorPage (KeyError "name") |}, Example.logged_in).
Proof.
  intros req.
  split; [apply session_request_passes |]. split; [reflexivity |]. split; [reflexivity |].
  destruct (missing_field_is_a_500_page Example.real_text Example.numeric_of_text
              Example.str_of_exn Example.py_repr Example.urlparse
              Example.image Example.Image_open Example.image_size Example.image_resize
              Example.image_save_png req Example.env_1 Example.logged_in
              [("order", PyInt 3)] (session_request_passes _) eq_refl) as (Hname & _).
  destruct (Hname eq_refl) as (Hpost & _). exact Hpost.
Defined.


(** A group posted as a JSON list. *)
Lemma body_that_is_no_object_witness :
  let req := {| authorization := Example.bearer Example.token_1; json := inr (PyList []) |} in
  truthy (verify_token (store Example.logged_in) (PyStr (bearer_token req))) = true
  /\ flask (Example.view_of POST_groups req Example.env_1) Example.logged_in
     = ({| status := 500; body_of := ErrorPage TypeError |}, Example.logged_in)
  /\ flask (Example.view_of POST_settings req Example.env_1) Example.logged_in
     = (success, Example.logged_in).
Proof.
  intros req.
  assert (Hok : truthy (verify_token (store Example.logged_in)
                          (PyStr (bearer_token req))) = true) by (vm_compute; reflexivity).
  split; [exact Hok |].
  destruct (body_that_is_no_object Example.real_text Example.numeric_of_text
              Example.str_of_exn Example.py_repr Example.urlparse
              Example.image Example.Image_open Example.image_size Example.image_resize
              Example.image_save_png Example.AUTH_KEY req Example.env_1 Example.logged_in
              (PyList []) Hok eq_refl ltac:(discriminate))
    as (Hgroups & _ & _ & _ & _ & _ & _ & Hsettings).
  split; [exact Hgroups | exact (Hsettings [] eq_refl eq_refl)].
Defined.
